(** * Depth/similarity map tiles of AliceVision: merge, persistence and
      the host-side refinement loop.

    Shallow embedding of
    - [src/aliceVision/mvsUtils/depthSimMapIO.cpp]
      ([getRoiFromMetadata], [getTileParamsFromMetadata], [getTilePathList],
       [weightTileBorder], [addTileMapWeighted], [readMapFromTiles],
       [writeDepthSimMap], [writeDepthMap], [readDepthSimMap], [readDepthMap],
       [readSimMap], [getNbDepthValuesFromDepthMap],
       [deleteDepthSimMapTiles]),
    - [computeNormalMap_kernel] of
      [src/aliceVision/depthMap/cuda/normalMapping/deviceNormalMapKernels.cuh],
    - [cuda_depthSimMapOptimizeGradientDescent] (host side), and
    - the best / second best similarity volumes declared in [Sgm.hpp].

    Numbers.  C++ [int] values are [Z]; [float] and [double] values are exact
    rationals [Q]: rounding, infinities and NaN are outside the model.  Every
    quotient the code takes is written with [Qdiv]; the theorems that depend
    on a quotient carry the hypothesis that its divisor is not zero. *)

From Stdlib Require Import String.
From Stdlib Require Import ZArith QArith Qminmax Qabs List Lia Lqa Bool
  Permutation.
Import ListNotations.

Open Scope Z_scope.

(** ** Regions of interest (mvsData/ROI.hpp) *)

(** Modelled from the spec: [ROI.hpp] is missing from the sources.  A
    [Range] is a half-open interval [begin, end) of pixel indices and a [ROI]
    is a pair of ranges; "rectangular pixel regions plus arithmetic
    (downscale, intersect, bounds-check)". *)
Record Range : Type := mkRange { r_begin : Z; r_end : Z }.

(** Modelled from the spec: a rectangular region, [x] and [y] ranges. *)
Record ROI : Type := mkROI { roi_x : Range; roi_y : Range }.

(** Modelled from the spec: [Range::size()]. *)
Definition Range_size (r : Range) : Z := r_end r - r_begin r.

(** Modelled from the spec: [Range::isEmpty()]. *)
Definition Range_isEmpty (r : Range) : bool := r_end r <=? r_begin r.

(** Modelled from the spec: [ROI::width()]. *)
Definition ROI_width (r : ROI) : Z := Range_size (roi_x r).

(** Modelled from the spec: [ROI::height()]. *)
Definition ROI_height (r : ROI) : Z := Range_size (roi_y r).

(** Modelled from the spec: [ROI::isEmpty()], "tile ROIs, after
    intersecting with image bounds, are either empty (skipped) or fully
    inside the image". *)
Definition ROI_isEmpty (r : ROI) : bool :=
  Range_isEmpty (roi_x r) || Range_isEmpty (roi_y r).

(** Modelled from the spec: [intersect] on ranges and on regions. *)
Definition Range_intersect (a b : Range) : Range :=
  mkRange (Z.max (r_begin a) (r_begin b)) (Z.min (r_end a) (r_end b)).

(** Modelled from the spec: [intersect(roi, imageRoi)]. *)
Definition intersect (a b : ROI) : ROI :=
  mkROI (Range_intersect (roi_x a) (roi_x b))
        (Range_intersect (roi_y a) (roi_y b)).

(** Modelled from the spec: [divideRoundUp] (numeric.hpp) is missing; it is
    the integer quotient rounded up, used for "the full downscaled image
    dimensions". *)
Definition divideRoundUp (x n : Z) : Z := (x + n - 1) / n.

(** Modelled from the spec: [downscaleROI] is missing; the begin of each
    range is divided rounding down and its end rounding up, so that the
    downscaled full-image ROI has the [divideRoundUp] dimensions that
    [writeDepthSimMap] compares it with. *)
Definition downscaleRange (r : Range) (downscale : Z) : Range :=
  mkRange (r_begin r / downscale) (divideRoundUp (r_end r) downscale).

(** Modelled from the spec: [downscaleROI], both ranges downscaled. *)
Definition downscaleROI (r : ROI) (downscale : Z) : ROI :=
  mkROI (downscaleRange (roi_x r) downscale)
        (downscaleRange (roi_y r) downscale).

(** ** Camera and tile parameters *)

(** The part of [MultiViewParams] that the map readers use: the image
    dimensions of each camera. *)
Record MultiViewParams : Type := mkMVP {
  getWidth : Z -> Z;
  getHeight : Z -> Z
}.

(** [TileParams]: "tile buffer dimensions, padding width". *)
Record TileParams : Type := mkTileParams {
  bufferWidth : Z;
  bufferHeight : Z;
  padding : Z
}.

(** ** Images *)

(** [image::Image<float>]: dimensions and a pixel store addressed as
    [img(y, x)].  The store is total; the source has no defined behaviour
    outside [0, Width) x [0, Height), and the theorems keep every access in
    range through their hypotheses on the tile geometry. *)
Record Image : Type := mkImage {
  Width : Z;
  Height : Z;
  pix : Z -> Z -> Q
}.

(** The assignment [img(y, x) = v]. *)
Definition set_pix (img : Image) (y x : Z) (v : Q) : Image :=
  mkImage (Width img) (Height img)
          (fun y' x' => if (y' =? y) && (x' =? x) then v else pix img y' x').

(** [out_map.resize(width, height, true, 0.f)] *)
Definition Image_resize (width height : Z) (v : Q) : Image :=
  mkImage width height (fun _ _ => v).

(** [for (int i = lo; i < hi; ++i) body(i)] on a state [St]. *)
Definition for_range {St : Type} (lo hi : Z) (body : Z -> St -> St) (s : St) : St :=
  fold_left (fun acc k => body (lo + Z.of_nat k) acc)
            (seq 0 (Z.to_nat (hi - lo))) s.

(** ** weightTileBorder *)

(** [Point2d], a pair of doubles, and its sum. *)
Record Point2d : Type := mkPoint2d { p_x : Q; p_y : Q }.

(** [a + b] on [Point2d]. *)
Definition Point2d_add (a b : Point2d) : Point2d :=
  mkPoint2d (p_x a + p_x b) (p_y a + p_y b).

(** [int(v)] of a double: truncation towards zero. *)
Definition to_int (v : Q) : Z := Z.quot (Qnum v) (Zpos (Qden v)).

(** Modelled from the spec: [clamp] (numeric.hpp) is missing; the value is
    brought back into [lo, hi], which makes the weight "ramp from 0 to 1". *)
Definition clamp (v lo hi : Q) : Q := Qmax lo (Qmin v hi).

(** [static const double margin = 2.0] *)
Definition margin : Q := 2.

(** The weight of pixel [(x, y)]: the bilinear interpolation of the four
    corner alphas over the area [lu, rd), shrunk by the margin. *)
Definition borderWeight (a b c d : Z) (borderWidth borderHeight : Z)
    (lu : Point2d) (x y : Z) : Q :=
  let rd := Point2d_add lu (mkPoint2d (inject_Z borderWidth) (inject_Z borderHeight)) in
  let lu_m := mkPoint2d (p_x lu + margin) (p_y lu + margin) in
  let rd_m := mkPoint2d (p_x rd - margin) (p_y rd - margin) in
  let borderWidth_m := (inject_Z borderWidth - 2 * margin)%Q in
  let borderHeight_m := (inject_Z borderHeight - 2 * margin)%Q in
  let r_x := clamp ((p_x rd_m - inject_Z x) / borderWidth_m) 0 1 in
  let r_y := clamp ((p_y rd_m - inject_Z y) / borderHeight_m) 0 1 in
  let l_x := clamp ((inject_Z x - p_x lu_m) / borderWidth_m) 0 1 in
  let l_y := clamp ((inject_Z y - p_y lu_m) / borderHeight_m) 0 1 in
  (r_y * (r_x * inject_Z a + l_x * inject_Z b)
   + l_y * (r_x * inject_Z d + l_x * inject_Z c))%Q.

(** [weightTileBorder]: every pixel of the area [lu, rd), cut at the tile
    dimensions, is multiplied by its weight. *)
Definition weightTileBorder (a b c d : Z) (borderWidth borderHeight : Z)
    (lu : Point2d) (in_tileMap : Image) : Image :=
  let rd := Point2d_add lu (mkPoint2d (inject_Z borderWidth) (inject_Z borderHeight)) in
  let endX := Z.min (to_int (p_x rd)) (Width in_tileMap) in
  let endY := Z.min (to_int (p_y rd)) (Height in_tileMap) in
  for_range (to_int (p_x lu)) endX (fun x =>
    for_range (to_int (p_y lu)) endY (fun y img =>
      let weight := borderWeight a b c d borderWidth borderHeight lu x y in
      set_pix img y x (pix img y x * weight)%Q))
    in_tileMap.

(** ** addTileMapWeighted *)

(** [(flag) ? 1 : 0] *)
Definition b2i (b : bool) : Z := if b then 1 else 0.

(** [Point2d(x, y)] of two integers. *)
Definition pt (x y : Z) : Point2d := mkPoint2d (inject_Z x) (inject_Z y).

(** [if (c) { f(img); }] for a block [f] that updates the image in place. *)
Definition when (c : bool) (f : Image -> Image) (img : Image) : Image :=
  if c then f img else img.

(** The eight weighting blocks of [addTileMapWeighted], in source order:
    four corners, then the top, bottom, left and right borders. *)
Definition weightTileBorders (firstColumn lastColumn firstRow lastRow : bool)
    (tileWidth tileHeight tilePadding : Z) (in_tileMap : Image) : Image :=
  (* weight the top left corner *)
  let t1 :=
    when (negb firstColumn || negb firstRow)
      (weightTileBorder 0 (b2i firstRow) 1 (b2i firstColumn)
         tilePadding tilePadding (pt 0 0)) in_tileMap in
  (* weight the bottom left corner *)
  let t2 :=
    when (negb firstColumn || negb lastRow)
      (weightTileBorder (b2i firstColumn) 1 (b2i lastRow) 0
         tilePadding tilePadding (pt 0 (tileHeight - tilePadding))) t1 in
  (* weight the top right corner *)
  let t3 :=
    when (negb lastColumn || negb firstRow)
      (weightTileBorder (b2i firstRow) 0 (b2i lastColumn) 1
         tilePadding tilePadding (pt (tileWidth - tilePadding) 0)) t2 in
  (* weight the bottom right corner *)
  let t4 :=
    when (negb lastColumn || negb lastRow)
      (weightTileBorder 1 (b2i lastColumn) 0 (b2i lastRow)
         tilePadding tilePadding
         (pt (tileWidth - tilePadding) (tileHeight - tilePadding))) t3 in
  (* weight the top border *)
  let t5 :=
    when (negb firstRow)
      (weightTileBorder 0 0 1 1 (tileWidth - 2 * tilePadding) tilePadding
         (pt tilePadding 0)) t4 in
  (* weight the bottom border *)
  let t6 :=
    when (negb lastRow)
      (weightTileBorder 1 1 0 0 (tileWidth - 2 * tilePadding) tilePadding
         (pt tilePadding (tileHeight - tilePadding))) t5 in
  (* weight the left border *)
  let t7 :=
    when (negb firstColumn)
      (weightTileBorder 0 1 1 0 tilePadding (tileHeight - 2 * tilePadding)
         (pt 0 tilePadding)) t6 in
  (* weight the right border *)
  when (negb lastColumn)
    (weightTileBorder 1 0 0 1 tilePadding (tileHeight - 2 * tilePadding)
       (pt (tileWidth - tilePadding) tilePadding)) t7.

(** The accumulation loop: [inout_map(y, x) += in_tileMap(ty, tx)]. *)
Definition accumulateTile (downscaledRoi : ROI) (in_tileMap inout_map : Image)
    : Image :=
  for_range (r_begin (roi_x downscaledRoi)) (r_end (roi_x downscaledRoi)) (fun x =>
    for_range (r_begin (roi_y downscaledRoi)) (r_end (roi_y downscaledRoi)) (fun y out =>
      let tx := x - r_begin (roi_x downscaledRoi) in
      let ty := y - r_begin (roi_y downscaledRoi) in
      set_pix out y x (pix out y x + pix in_tileMap ty tx)%Q))
    inout_map.

(** [addTileMapWeighted] changes both of its image arguments: the result is
    the pair (weighted tile, map with the tile added). *)
Definition addTileMapWeighted (rc : Z) (mp : MultiViewParams)
    (tileParams : TileParams) (roi : ROI) (downscale : Z)
    (in_tileMap inout_map : Image) : Image * Image :=
  let downscaledRoi := downscaleROI roi downscale in
  let tileWidth := ROI_width downscaledRoi in
  let tileHeight := ROI_height downscaledRoi in
  let tilePadding := Z.quot (padding tileParams) downscale in
  let firstColumn := r_begin (roi_x roi) =? 0 in
  let lastColumn := r_end (roi_x roi) =? getWidth mp rc in
  let firstRow := r_begin (roi_y roi) =? 0 in
  let lastRow := r_end (roi_y roi) =? getHeight mp rc in
  let weighted :=
    weightTileBorders firstColumn lastColumn firstRow lastRow
                      tileWidth tileHeight tilePadding in_tileMap in
  (weighted, accumulateTile downscaledRoi weighted inout_map).

(** ** Files of a camera (image/io.hpp, mvsUtils/fileIO.hpp) *)

(** The two map types that the readers handle. *)
Inductive EFileType : Type := depthMap | simMap.

(** Modelled from the spec: [getFileNameFromIndex] is missing.  The files of
    one camera at one scale and custom suffix are named by the map type
    and, for a tile, by the "optional tile-origin suffix" [_x_y]. *)
Inductive MapPath : Type :=
| FullMapPath (fileType : EFileType)
| TileMapPath (fileType : EFileType) (tileBeginX tileBeginY : Z).

(** Modelled from the spec: the name of the full-size map, or of the tile
    with the given origin. *)
Definition getFileNameFromIndex (fileType : EFileType)
    (tile : option (Z * Z)) : MapPath :=
  match tile with
  | None => FullMapPath fileType
  | Some (bx, by_) => TileMapPath fileType bx by_
  end.

(** Equality of map types. *)
Definition EFileType_eqb (a b : EFileType) : bool :=
  match a, b with
  | depthMap, depthMap | simMap, simMap => true
  | _, _ => false
  end.

(** Equality of paths. *)
Definition MapPath_eqb (a b : MapPath) : bool :=
  match a, b with
  | FullMapPath f, FullMapPath g => EFileType_eqb f g
  | TileMapPath f x y, TileMapPath g x' y' =>
      EFileType_eqb f g && (x =? x') && (y =? y')
  | _, _ => false
  end.

(** The metadata entries the readers look at; [None] is an entry that is
    absent or not of type INT. *)
Record Metadata : Type := mkMetadata {
  roiBeginX : option Z;
  roiBeginY : option Z;
  roiEndX : option Z;
  roiEndY : option Z;
  tileBufferWidth : option Z;
  tileBufferHeight : option Z;
  tilePadding : option Z;
  nbDepthValues : option Z
}.

(** A file on disk: what [readImageMetadata] and [readImage] find in it;
    [None] when the call throws (unreadable or corrupt content). *)
Record MapFile : Type := mkMapFile {
  f_metadata : option Metadata;
  f_pixels : option Image
}.

(** The depth map folder of the camera: whether it exists, and its files
    in directory order. *)
Record MapFolder : Type := mkMapFolder {
  is_directory : bool;
  entries : list (MapPath * MapFile)
}.

(** The exceptions of the readers. *)
Inductive Error : Type :=
| CannotFindMapDirectory
| CannotReadMetadata (path : MapPath)
| CannotReadImage (path : MapPath)
| CannotFindROI (path : MapPath)
| CannotFindTileParams (path : MapPath)
| IncorrectNbDepthValues.

(** The messages logged by [readMapFromTiles]. *)
Inductive LogEntry : Type :=
| InfoNoMapTile
| WarningCannotFindMap (path : MapPath).

(** A call either returns or throws. *)
Inductive Result (A : Type) : Type :=
| Ok (a : A)
| Throw (e : Error).

Arguments Ok {A} a.
Arguments Throw {A} e.

(** Sequencing: an exception of the first call leaves the function. *)
Definition bind {A B : Type} (r : Result A) (k : A -> Result B) : Result B :=
  match r with
  | Ok a => k a
  | Throw e => Throw e
  end.

Notation "x <- r ;; k" := (bind r (fun x => k))
  (at level 61, r at next level, right associativity).

(** The file of a folder with the given name. *)
Fixpoint lookupFile (l : list (MapPath * MapFile)) (path : MapPath)
    : option MapFile :=
  match l with
  | [] => None
  | (p, f) :: rest => if MapPath_eqb p path then Some f else lookupFile rest path
  end.

(** [fs::exists(path)] *)
Definition exists_ (fs : MapFolder) (path : MapPath) : bool :=
  match lookupFile (entries fs) path with Some _ => true | None => false end.

(** Modelled from the spec: [image::readImageMetadata] and
    [image::readImage] (image/io.hpp) are missing; the "image read/write
    service" returns the metadata or the pixels of a file, and throws for a
    file that is missing or that it cannot decode. *)
Definition readImageMetadata (fs : MapFolder) (path : MapPath)
    : Result Metadata :=
  match lookupFile (entries fs) path with
  | Some f =>
      match f_metadata f with
      | Some m => Ok m
      | None => Throw (CannotReadMetadata path)
      end
  | None => Throw (CannotReadMetadata path)
  end.

(** Modelled from the spec: [image::readImage], see [readImageMetadata]. *)
Definition readImage (fs : MapFolder) (path : MapPath) : Result Image :=
  match lookupFile (entries fs) path with
  | Some f =>
      match f_pixels f with
      | Some img => Ok img
      | None => Throw (CannotReadImage path)
      end
  | None => Throw (CannotReadImage path)
  end.

(** ** getRoiFromMetadata, getTileParamsFromMetadata, getTilePathList *)

(** [if (it != metadata.end() && it->type() == INT) field = it->get_int();] *)
Definition assign_if_found (entry : option Z) (field : Z) : Z :=
  match entry with Some v => v | None => field end.

(** [getRoiFromMetadata]: the ROI entries replace the fields of [out_roi];
    the result is checked. *)
Definition getRoiFromMetadata (fs : MapFolder) (mapTilePath : MapPath)
    (out_roi : ROI) : Result ROI :=
  metadata <- readImageMetadata fs mapTilePath ;;
  let bx := assign_if_found (roiBeginX metadata) (r_begin (roi_x out_roi)) in
  let by_ := assign_if_found (roiBeginY metadata) (r_begin (roi_y out_roi)) in
  let ex := assign_if_found (roiEndX metadata) (r_end (roi_x out_roi)) in
  let ey := assign_if_found (roiEndY metadata) (r_end (roi_y out_roi)) in
  (* invalid or no roi metadata *)
  if (bx <? 0) || (by_ <? 0) || (ex <=? 0) || (ey <=? 0)
  then Throw (CannotFindROI mapTilePath)
  else Ok (mkROI (mkRange bx ex) (mkRange by_ ey)).

(** [getTileParamsFromMetadata] *)
Definition getTileParamsFromMetadata (fs : MapFolder) (mapTilePath : MapPath)
    (out_tileParams : TileParams) : Result TileParams :=
  metadata <- readImageMetadata fs mapTilePath ;;
  let tw := assign_if_found (tileBufferWidth metadata) (bufferWidth out_tileParams) in
  let th := assign_if_found (tileBufferHeight metadata) (bufferHeight out_tileParams) in
  let tp := assign_if_found (tilePadding metadata) (padding out_tileParams) in
  (* invalid or no tile metadata *)
  if (tw <=? 0) || (th <=? 0) || (tp <? 0)
  then Throw (CannotFindTileParams mapTilePath)
  else Ok (mkTileParams tw th tp).

(** [boost::regex_match(filename, stem + "_\\d+_\\d+" + extension)] *)
Definition matchesTilePattern (fileType : EFileType) (path : MapPath) : bool :=
  match path with
  | TileMapPath f bx by_ => EFileType_eqb f fileType && (0 <=? bx) && (0 <=? by_)
  | FullMapPath _ => false
  end.

(** [getTilePathList]: the tile files of the folder are appended to the
    list; a missing folder is an error. *)
Definition getTilePathList (fs : MapFolder) (fileType : EFileType)
    (out_mapTilePathList : list MapPath) : Result (list MapPath) :=
  if negb (is_directory fs) then Throw CannotFindMapDirectory
  else Ok (out_mapTilePathList
           ++ map fst (filter (fun e => matchesTilePattern fileType (fst e))
                              (entries fs))).

(** ** readMapFromTiles *)

(** [ROI()], the value of the elements of [tileRoiList] after [resize]. *)
Definition ROI_default : ROI := mkROI (mkRange 0 0) (mkRange 0 0).

(** [for i: getRoiFromMetadata(mapTilePathList.at(i), tileRoiList.at(i))];
    an exception leaves the loop and the function. *)
Fixpoint getTileRoiList (fs : MapFolder) (paths : list MapPath)
    : Result (list ROI) :=
  match paths with
  | [] => Ok []
  | p :: rest =>
      roi <- getRoiFromMetadata fs p ROI_default ;;
      rois <- getTileRoiList fs rest ;;
      Ok (roi :: rois)
  end.

(** One iteration of the loop "read and add each tile to the full map",
    on the output map and the log. *)
Definition addTileStep (fs : MapFolder) (rc : Z) (mp : MultiViewParams)
    (fileType : EFileType) (tileParams : TileParams) (imageRoi : ROI)
    (scaleStep : Z) (acc : Image * list LogEntry) (tileRoi : ROI)
    : Image * list LogEntry :=
  let roi := intersect tileRoi imageRoi in
  let mapTilePath :=
    getFileNameFromIndex fileType
      (Some (r_begin (roi_x roi), r_begin (roi_y roi))) in
  if ROI_isEmpty roi then acc
  else
    match readImage fs mapTilePath with
    | Ok tileMap =>
        (snd (addTileMapWeighted rc mp tileParams roi scaleStep tileMap (fst acc)),
         snd acc)
    | Throw _ => (fst acc, snd acc ++ [WarningCannotFindMap mapTilePath])
    end.

(** [readMapFromTiles]; [tileParams0] is the default-constructed
    [TileParams] ([TileParams.hpp] is missing from the sources).  The result
    is the output map and the messages logged. *)
Definition readMapFromTiles (tileParams0 : TileParams) (fs : MapFolder)
    (rc : Z) (mp : MultiViewParams) (fileType : EFileType)
    (scale step : Z) : Result (Image * list LogEntry) :=
  let imageRoi :=
    mkROI (mkRange 0 (getWidth mp rc)) (mkRange 0 (getHeight mp rc)) in
  let scaleStep := Z.max scale 1 * step in
  let width := divideRoundUp (getWidth mp rc) scaleStep in
  let height := divideRoundUp (getHeight mp rc) scaleStep in
  (* the output full map *)
  let out_map := Image_resize width height 0 in
  mapTilePathList <- getTilePathList fs fileType [] ;;
  match mapTilePathList with
  | [] => Ok (out_map, [InfoNoMapTile])
  | front :: _ =>
      tileParams <- getTileParamsFromMetadata fs front tileParams0 ;;
      tileRoiList <- getTileRoiList fs mapTilePathList ;;
      Ok (fold_left (addTileStep fs rc mp fileType tileParams imageRoi scaleStep)
                    tileRoiList (out_map, []))
  end.

(** ** readDepthMap and getNbDepthValuesFromDepthMap *)

(** [readDepthMap]: the full-size map when its file exists, the merge of
    the tiles otherwise. *)
Definition readDepthMap (tileParams0 : TileParams) (fs : MapFolder)
    (rc : Z) (mp : MultiViewParams) (scale step : Z)
    : Result (Image * list LogEntry) :=
  let depthMapPath := getFileNameFromIndex depthMap None in
  if exists_ fs depthMapPath
  then (img <- readImage fs depthMapPath ;; Ok (img, []))
  else readMapFromTiles tileParams0 fs rc mp depthMap scale step.

(** [readSimMap] *)
Definition readSimMap (tileParams0 : TileParams) (fs : MapFolder)
    (rc : Z) (mp : MultiViewParams) (scale step : Z)
    : Result (Image * list LogEntry) :=
  let simMapPath := getFileNameFromIndex simMap None in
  if exists_ fs simMapPath
  then (img <- readImage fs simMapPath ;; Ok (img, []))
  else readMapFromTiles tileParams0 fs rc mp simMap scale step.

(** [readDepthSimMap]: the depth map, the similarity map and the messages
    logged. *)
Definition readDepthSimMap (tileParams0 : TileParams) (fs : MapFolder)
    (rc : Z) (mp : MultiViewParams) (scale step : Z)
    : Result (Image * Image * list LogEntry) :=
  let depthMapPath := getFileNameFromIndex depthMap None in
  let simMapPath := getFileNameFromIndex simMap None in
  if exists_ fs depthMapPath && exists_ fs simMapPath
  then (out_depthMap <- readImage fs depthMapPath ;;
        out_simMap <- readImage fs simMapPath ;;
        Ok (out_depthMap, out_simMap, []))
  else (d <- readMapFromTiles tileParams0 fs rc mp depthMap scale step ;;
        s <- readMapFromTiles tileParams0 fs rc mp simMap scale step ;;
        Ok (fst d, fst s, snd d ++ snd s)).

(** [img.data() .. img.data() + img.size()]: the pixels in row-major order. *)
Definition Image_data (img : Image) : list Q :=
  flat_map (fun y => map (fun x => pix img (Z.of_nat y) (Z.of_nat x))
                         (seq 0 (Z.to_nat (Width img))))
           (seq 0 (Z.to_nat (Height img))).

(** [a > b] on floats. *)
Definition Qgtb (a b : Q) : bool :=
  match Qcompare a b with Gt => true | _ => false end.

(** [std::count_if(first, last, [](float v) { return v > 0.0f; })] *)
Definition count_valid (data : list Q) : Z :=
  Z.of_nat (length (filter (fun v => Qgtb v 0) data)).

(** Storing a value in an [int]: 32 bits, two's complement. *)
Definition to_int32 (z : Z) : Z := (z + 2 ^ 31) mod 2 ^ 32 - 2 ^ 31.

(** Returning an [int] as [unsigned long] (64 bits). *)
Definition to_ulong (z : Z) : Z := z mod 2 ^ 64.

(** [metadata.get_int("AliceVision:nbDepthValues", -1)] *)
Definition get_nbDepthValues (m : Metadata) : Z :=
  match nbDepthValues m with Some v => v | None => -1 end.

(** The loop over the tiles of [getNbDepthValuesFromDepthMap], on the
    running total. *)
Fixpoint sumTileDepthValues (fs : MapFolder) (paths : list MapPath)
    (nbDepthValues : Z) : Result Z :=
  match paths with
  | [] => Ok nbDepthValues
  | mapTilePath :: rest =>
      metadata <- readImageMetadata fs mapTilePath ;;
      let nbTileDepthValues := get_nbDepthValues metadata in
      if nbTileDepthValues <? 0 then Throw IncorrectNbDepthValues
      else sumTileDepthValues fs rest
             (to_int32 (nbDepthValues + nbTileDepthValues))
  end.

(** [getNbDepthValuesFromDepthMap] *)
Definition getNbDepthValuesFromDepthMap (tileParams0 : TileParams)
    (fs : MapFolder) (rc : Z) (mp : MultiViewParams) (scale step : Z)
    : Result Z :=
  let depthMapPath := getFileNameFromIndex depthMap None in
  let nbDepthValues := -1 in
  nbDepthValues <-
    (if exists_ fs depthMapPath (* untilled *)
     then (metadata <- readImageMetadata fs depthMapPath ;;
           Ok (get_nbDepthValues metadata))
     else (* tilled *)
          (mapTilePathList <- getTilePathList fs depthMap [] ;;
           sumTileDepthValues fs mapTilePathList nbDepthValues)) ;;
  (* no metadata compute number of depth values *)
  if nbDepthValues <? 0
  then (r <- readDepthMap tileParams0 fs rc mp scale step ;;
        Ok (to_ulong (to_int32 (count_valid (Image_data (fst r))))))
  else Ok (to_ulong nbDepthValues).

(** ** The statistics written by writeDepthSimMap *)

(** [std::numeric_limits<float>::max()] *)
Definition FLT_MAX : Q := inject_Z ((2 ^ 24 - 1) * 2 ^ 104).

(** One iteration of the min/max loop on [(minDepth, maxDepth)]. *)
Definition minMaxStep (acc : Q * Q) (depth : Q) : Q * Q :=
  if Qle_bool depth (-1) then acc (* continue *)
  else (Qmin (fst acc) depth, Qmax (snd acc) depth).

(** The three statistics pushed to the metadata. *)
Record DepthStats : Type := mkDepthStats {
  stat_nbDepthValues : Z;
  stat_minDepth : Q;
  stat_maxDepth : Q
}.

(** The block "min/max/nb depth metadata" of [writeDepthSimMap]. *)
Definition depthMapStats (depthMap_data : list Q) : DepthStats :=
  let nbDepthValues := count_valid depthMap_data in
  let maxDepth := (-1)%Q in
  let minDepth := FLT_MAX in
  let mm := fold_left minMaxStep depthMap_data (minDepth, maxDepth) in
  mkDepthStats nbDepthValues (fst mm) (snd mm).

(** ** computeNormalMap_kernel (deviceNormalMapKernels.cuh) *)

(** [float3] with its constructor, sum, difference, product by a scalar
    and dot product. *)
Definition float3 : Type := (Q * Q * Q)%type.

(** [make_float3(x, y, z)] *)
Definition make_float3 (x y z : Q) : float3 := (x, y, z).

(** [a + b] *)
Definition float3_add (a b : float3) : float3 :=
  let '(ax, ay, az) := a in let '(bx, by_, bz) := b in
  (ax + bx, ay + by_, az + bz)%Q.

(** [a - b] *)
Definition float3_sub (a b : float3) : float3 :=
  let '(ax, ay, az) := a in let '(bx, by_, bz) := b in
  (ax - bx, ay - by_, az - bz)%Q.

(** [a * k] *)
Definition float3_scale (a : float3) (k : Q) : float3 :=
  let '(ax, ay, az) := a in (ax * k, ay * k, az * k)%Q.

(** [dot(a, b)] *)
Definition dot (a b : float3) : Q :=
  let '(ax, ay, az) := a in let '(bx, by_, bz) := b in
  (ax * bx + ay * by_ + az * bz)%Q.

(** The device functions of [matrix.cuh] and [eig33.cuh], which are missing
    from the sources, are parameters of the kernel.  [cuda_stat3d] is the
    sequence of the samples given to [update]; [computePlaneByPCA] returns
    the new plane point and normal, or [None] when it returns [false]. *)
Record DeviceOps : Type := mkDeviceOps {
  M3x3mulV2 : list Q -> Q * Q -> float3;
  normalize : float3 -> float3;
  size : float3 -> Q;
  computePlaneByPCA :
    list (float3 * Q) -> float3 -> float3 -> option (float3 * float3)
}.

(** The fields of [DeviceCameraParams] that the kernel reads: the inverse
    projection matrix and the camera centre. *)
Record DeviceCameraParams : Type := mkDeviceCameraParams {
  iP : list Q;
  C : float3
}.

(** [get3DPointForPixelAndDepthFromRC] on a [float2] pixel. *)
Definition get3DPointForPixelAndDepthFromRC (ops : DeviceOps)
    (rcDeviceCamParams : DeviceCameraParams) (pix : Q * Q) (depth : Q)
    : float3 :=
  let rpv := M3x3mulV2 ops (iP rcDeviceCamParams) pix in
  let rpv := normalize ops rpv in
  float3_add (C rcDeviceCamParams) (float3_scale rpv depth).

(** The overload on an [int2] pixel. *)
Definition get3DPointForPixelAndDepthFromRC_int (ops : DeviceOps)
    (rcDeviceCamParams : DeviceCameraParams) (pixi : Z * Z) (depth : Q)
    : float3 :=
  get3DPointForPixelAndDepthFromRC ops rcDeviceCamParams
    (inject_Z (fst pixi), inject_Z (snd pixi)) depth.

(** [orientedPointPlaneDistanceNormalizedNormal] *)
Definition orientedPointPlaneDistanceNormalizedNormal
    (point planePoint planeNormalNormalized : float3) : Q :=
  (dot point planeNormalNormalized - dot planePoint planeNormalNormalized)%Q.

(** [a < b] on floats. *)
Definition Qltb (a b : Q) : bool :=
  match Qcompare a b with Lt => true | _ => false end.

(** [pixSize], the distance between the points of the pixel and of its
    right neighbour at the depth of the pixel. *)
Definition pixSizeAt (ops : DeviceOps) (cam : DeviceCameraParams)
    (x y : Z) (depth : Q) : Q :=
  let p := get3DPointForPixelAndDepthFromRC_int ops cam (x, y) depth in
  let p2 := get3DPointForPixelAndDepthFromRC_int ops cam (x + 1, y) depth in
  size ops (float3_sub p p2).

(** The body of the two window loops on [s3d]. *)
Definition windowStep (ops : DeviceOps) (cam : DeviceCameraParams)
    (depthMap_d : Z -> Z -> Q) (x y : Z) (depth pixSize : Q)
    (yp xp : Z) (s3d : list (float3 * Q)) : list (float3 * Q) :=
  let depthn := depthMap_d (x + xp) (y + yp) in
  if Qltb 0 depth && Qltb (Qabs (depthn - depth)) (30 * pixSize)
  then
    let w := 1%Q in
    let pixn := (inject_Z (x + xp), inject_Z (y + yp)) in
    let pn := get3DPointForPixelAndDepthFromRC ops cam pixn depthn in
    s3d ++ [(pn, w)]
  else s3d.

(** [s3d] after the loops [for yp in [-wsh, wsh]: for xp in [-wsh, wsh]]. *)
Definition windowSamples (ops : DeviceOps) (cam : DeviceCameraParams)
    (depthMap_d : Z -> Z -> Q) (wsh x y : Z) : list (float3 * Q) :=
  let depth := depthMap_d x y in
  let pixSize := pixSizeAt ops cam x y depth in
  for_range (- wsh) (wsh + 1) (fun yp =>
    for_range (- wsh) (wsh + 1) (fun xp =>
      windowStep ops cam depthMap_d x y depth pixSize yp xp)) [].

(** One thread of [computeNormalMap_kernel]: the value it writes at
    [(x, y)] of the normal map, [None] when it writes nothing. *)
Definition computeNormalMap_kernel (ops : DeviceOps)
    (rcDeviceCamParams : DeviceCameraParams) (depthMap_d : Z -> Z -> Q)
    (width height wsh : Z) (x y : Z) : option float3 :=
  if (width <=? x) || (height <=? y) then None
  else
    let depth := depthMap_d x y in
    if Qle_bool depth 0 then Some (make_float3 (-1) (-1) (-1))
    else
      let p := get3DPointForPixelAndDepthFromRC_int ops rcDeviceCamParams
                 (x, y) depth in
      let s3d := windowSamples ops rcDeviceCamParams depthMap_d wsh x y in
      let pp := p in
      let nn := make_float3 (-1) (-1) (-1) in
      match computePlaneByPCA ops s3d pp nn with
      | None => Some (make_float3 (-1) (-1) (-1))
      | Some (pp, nn) =>
          let nc := float3_sub (C rcDeviceCamParams) p in
          let nc := normalize ops nc in
          if Qltb (orientedPointPlaneDistanceNormalizedNormal
                     (float3_add pp nn) pp nc) 0
          then let '(nx, ny, nz) := nn in Some (- nx, - ny, - nz)%Q
          else Some nn
      end.

(** ** Best and second best similarity volumes (Sgm.hpp) *)

(** Modelled from the spec: the body of [computeSimilarityVolumes] and its
    kernels are missing from the sources.  "Maintain running best and
    second-best cost per (pixel, depth) across all neighbors"; "a
    pixel/depth with no valid neighbor sample gets a maximal sentinel
    cost".  A cell of the two volumes is the pair (best, second best); a
    neighbour camera gives the cell a cost or none.  [maxSim] is the
    maximal sentinel cost. *)
Definition maxSim : Z := 255.

(** Modelled from the spec: the update of a cell by the cost of one
    neighbour camera.  A cost below the best one becomes the best and the
    former best becomes the second best; otherwise a cost below the second
    best becomes the second best. *)
Definition updateBestSim (cell : Z * Z) (sim : option Z) : Z * Z :=
  match sim with
  | None => cell
  | Some c =>
      if c <? fst cell then (c, fst cell)
      else if c <? snd cell then (fst cell, c)
      else cell
  end.

(** Modelled from the spec: the volumes after all the neighbour cameras,
    as a function of the cell [(x, y, depth index)]. *)
Definition computeSimilarityVolumes
    (tcSims : list (Z * Z * Z -> option Z)) (cell : Z * Z * Z) : Z * Z :=
  fold_left (fun acc tcSim => updateBestSim acc (tcSim cell)) tcSims
            (maxSim, maxSim).

(** Modelled from the spec: [_volumeBestSim_dmp], the best volume. *)
Definition volumeBestSim (tcSims : list (Z * Z * Z -> option Z))
    (cell : Z * Z * Z) : Z :=
  fst (computeSimilarityVolumes tcSims cell).

(** Modelled from the spec: [_volumeSecBestSim_dmp], the second best
    volume. *)
Definition volumeSecBestSim (tcSims : list (Z * Z * Z -> option Z))
    (cell : Z * Z * Z) : Z :=
  snd (computeSimilarityVolumes tcSims cell).

(** ** cuda_depthSimMapOptimizeGradientDescent *)

(** The fields of [RefineParams] that the host function reads. *)
Record RefineParams : Type := mkRefineParams {
  stepXY : Z;
  optimizationNbIterations : Z
}.

(** Modelled from the spec: [RefineParams.hpp] is missing; the number of
    iterations is "default 100", as the comment of the loop says too. *)
Definition RefineParams_default : RefineParams := mkRefineParams 1 100.

(** What the host function puts on the stream, in order. *)
Inductive Launch : Type :=
| copyFrom_sgmDepthPixSizeMap
| optimize_varLofLABtoW_kernel (stepXY : Z) (roi : ROI)
| optimize_getOptDeptMapFromOptDepthSimMap_kernel (roi : ROI)
| optimize_depthSimMap_kernel (iter : Z) (roi : ROI).

(** [cuda_depthSimMapOptimizeGradientDescent]: the launches it adds to
    the stream. *)
Definition cuda_depthSimMapOptimizeGradientDescent
    (refineParams : RefineParams) (roi : ROI) (stream : list Launch)
    : list Launch :=
  (* initialize depth/sim map optimized with SGM depth/pixSize map *)
  let stream := stream ++ [copyFrom_sgmDepthPixSizeMap] in
  let stream :=
    stream ++ [optimize_varLofLABtoW_kernel (stepXY refineParams) roi] in
  for_range 0 (optimizationNbIterations refineParams)
    (fun iter stream =>
       (* copy depths values *)
       let stream :=
         stream ++ [optimize_getOptDeptMapFromOptDepthSimMap_kernel roi] in
       (* adjust depth/sim by using previously computed depths *)
       stream ++ [optimize_depthSimMap_kernel iter roi])
    stream.

(** The device buffers that the launches read and write, for maps of type
    [M2] (depth/sim or depth/pixSize pairs) and [M1] (one float). *)
Record DeviceState (M2 M1 : Type) : Type := mkDeviceState {
  out_optimizeDepthSimMap_dmp : M2;
  inout_imgVariance_dmp : M1;
  inout_tmpOptDepthMap_dmp : M1
}.

Arguments mkDeviceState {M2 M1} _ _ _.
Arguments out_optimizeDepthSimMap_dmp {M2 M1} _.
Arguments inout_imgVariance_dmp {M2 M1} _.
Arguments inout_tmpOptDepthMap_dmp {M2 M1} _.

(** The kernels of [deviceDepthSimilarityMapKernels.cuh], missing from the
    sources, as functions of the buffers they are launched on. *)
Record Kernels (M2 M1 : Type) : Type := mkKernels {
  varLofLABtoW : Z -> ROI -> M1 -> M1;
  getOptDeptMapFromOptDepthSimMap : ROI -> M2 -> M1 -> M1;
  depthSimMap : Z -> ROI -> M1 -> M1 -> M2 -> M2 -> M2 -> M2
}.

Arguments varLofLABtoW {M2 M1} _ _ _ _.
Arguments getOptDeptMapFromOptDepthSimMap {M2 M1} _ _ _ _.
Arguments depthSimMap {M2 M1} _ _ _ _ _ _ _ _.

(** Execution of one launch; the launches of a stream run in order. *)
Definition execLaunch {M2 M1 : Type} (k : Kernels M2 M1)
    (in_sgmDepthPixSizeMap_dmp in_refineDepthSimMap_dmp : M2)
    (st : DeviceState M2 M1) (l : Launch) : DeviceState M2 M1 :=
  match l with
  | copyFrom_sgmDepthPixSizeMap =>
      mkDeviceState in_sgmDepthPixSizeMap_dmp
                    (inout_imgVariance_dmp st) (inout_tmpOptDepthMap_dmp st)
  | optimize_varLofLABtoW_kernel stepXY roi =>
      mkDeviceState (out_optimizeDepthSimMap_dmp st)
                    (varLofLABtoW k stepXY roi (inout_imgVariance_dmp st))
                    (inout_tmpOptDepthMap_dmp st)
  | optimize_getOptDeptMapFromOptDepthSimMap_kernel roi =>
      mkDeviceState (out_optimizeDepthSimMap_dmp st)
                    (inout_imgVariance_dmp st)
                    (getOptDeptMapFromOptDepthSimMap k roi
                       (out_optimizeDepthSimMap_dmp st)
                       (inout_tmpOptDepthMap_dmp st))
  | optimize_depthSimMap_kernel iter roi =>
      mkDeviceState (depthSimMap k iter roi (inout_imgVariance_dmp st)
                       (inout_tmpOptDepthMap_dmp st)
                       in_sgmDepthPixSizeMap_dmp in_refineDepthSimMap_dmp
                       (out_optimizeDepthSimMap_dmp st))
                    (inout_imgVariance_dmp st)
                    (inout_tmpOptDepthMap_dmp st)
  end.

(** In-order execution of a stream. *)
Definition runStream {M2 M1 : Type} (k : Kernels M2 M1)
    (in_sgmDepthPixSizeMap_dmp in_refineDepthSimMap_dmp : M2)
    (stream : list Launch) (st : DeviceState M2 M1) : DeviceState M2 M1 :=
  fold_left (execLaunch k in_sgmDepthPixSizeMap_dmp in_refineDepthSimMap_dmp)
            stream st.

(** * Functions used to state the properties *)

(** Both loop nests of the merge have the shape
    [for x in [x0, x1): for y in [y0, y1): img(y, x) = g x y (img(y, x))]. *)
Definition map_rect (x0 x1 y0 y1 : Z) (g : Z -> Z -> Q -> Q) (img : Image)
    : Image :=
  for_range x0 x1 (fun x =>
    for_range y0 y1 (fun y im => set_pix im y x (g x y (pix im y x)))) img.

(** [x0 <= x < x1] and [y0 <= y < y1]. *)
Definition in_rect (x0 x1 y0 y1 x y : Z) : bool :=
  (x0 <=? x) && (x <? x1) && (y0 <=? y) && (y <? y1).

(** The horizontal factors of [borderWeight] for a band of width [n] whose
    left side is at [lx]: [ramp_r] is [r_x] (1 on the left, 0 on the right)
    and [ramp_l] is [l_x]. The vertical factors are the same functions. *)
Definition ramp_r (n lx x : Z) : Q :=
  clamp ((inject_Z lx + inject_Z n - margin - inject_Z x)
         / (inject_Z n - 2 * margin)) 0 1.

(** [l_x]: 0 on the left of the band, 1 on its right. *)
Definition ramp_l (n lx x : Z) : Q :=
  clamp ((inject_Z x - (inject_Z lx + margin))
         / (inject_Z n - 2 * margin)) 0 1.

(** Weight of a tile along one axis, at offset [t] of a tile of size [size]
    with padding [p]: a side on the image boundary ([first], [last]) keeps
    weight 1 in its band, another side ramps. *)
Definition sideWeight (first last : bool) (size p t : Z) : Q :=
  if t <? p then (if first then 1 else ramp_l p 0 t)
  else if size - p <=? t then (if last then 1 else ramp_r p (size - p) t)
  else 1.

(** The tiles of a camera added one after the other to a map: the loop of
    [readMapFromTiles] when every tile image is read. *)
Definition mergeTiles (rc : Z) (mp : MultiViewParams) (tileParams : TileParams)
    (downscale : Z) (tiles : list (ROI * Image)) (out_map : Image) : Image :=
  fold_left
    (fun acc t =>
       snd (addTileMapWeighted rc mp tileParams (fst t) downscale (snd t) acc))
    tiles out_map.

(** The tile image that a source map [src] gives for a downscaled ROI. *)
Definition crop (src : Image) (downscaledRoi : ROI) : Image :=
  mkImage (ROI_width downscaledRoi) (ROI_height downscaledRoi)
          (fun ty tx => pix src (ty + r_begin (roi_y downscaledRoi))
                                (tx + r_begin (roi_x downscaledRoi))).

(** The tiles of a grid given by its column and row ranges, cut out of
    [src]. *)
Definition gridTiles (downscale : Z) (src : Image) (cols rows : list Range)
    : list (ROI * Image) :=
  flat_map (fun c =>
              map (fun r => (mkROI c r,
                             crop src (downscaleROI (mkROI c r) downscale)))
                  rows)
           cols.

(** A tile range whose downscaled size is positive, at least twice the
    padding [p], and whose border band is not 4 pixels long (the ramp of
    that band would divide by zero). *)
Definition range_ok (s p : Z) (r : Range) : bool :=
  let size := Range_size (downscaleRange r s) in
  (0 <=? r_begin r) && (1 <=? size) && (2 * p <=? size)
  && negb (size - 2 * p =? 4).

(** The ranges of a grid along one axis of length [len], from a given
    range on: each range overlaps the next one by exactly [p] downscaled
    pixels, only the last one ends at [len] and none of the following ones
    begins at 0. *)
Fixpoint chain_ok (s p len : Z) (rs : list Range) : bool :=
  match rs with
  | [] => false
  | r :: rest =>
      range_ok s p r &&
      match rest with
      | [] => r_end r =? len
      | r' :: _ =>
          negb (r_end r =? len) && negb (r_begin r' =? 0)
          && (r_begin (downscaleRange r' s) =? r_end (downscaleRange r s) - p)
          && chain_ok s p len rest
      end
  end.

(** A tiling of an axis: a chain whose first range begins at 0. *)
Definition tiling_ok (s p len : Z) (rs : list Range) : bool :=
  match rs with
  | [] => false
  | r :: _ => (r_begin r =? 0) && chain_ok s p len rs
  end.

(** Every pixel of a [width] x [height] image lies in one of the ROIs. *)
Definition covers (width height : Z) (rois : list ROI) : bool :=
  forallb (fun y =>
    forallb (fun x =>
      existsb (fun r =>
        in_rect (r_begin (roi_x r)) (r_end (roi_x r))
                (r_begin (roi_y r)) (r_end (roi_y r))
                (Z.of_nat x) (Z.of_nat y)) rois)
      (seq 0 (Z.to_nat width)))
    (seq 0 (Z.to_nat height)).

(** Weight of the tile range [r] at the downscaled coordinate [x]. *)
Definition axisWeight (s p len : Z) (r : Range) (x : Z) : Q :=
  let d := downscaleRange r s in
  if (r_begin d <=? x) && (x <? r_end d)
  then sideWeight (r_begin r =? 0) (r_end r =? len) (Range_size d) p
                  (x - r_begin d)
  else 0.

(** Sum of a list of rationals. *)
Fixpoint sumQ (l : list Q) : Q :=
  match l with
  | [] => 0%Q
  | q :: rest => (q + sumQ rest)%Q
  end.

(** What a tile adds to pixel [(x, y)] of the output map. *)
Definition contribution (rc : Z) (mp : MultiViewParams) (tileParams : TileParams)
    (downscale : Z) (t : ROI * Image) (x y : Z) : Q :=
  let d := downscaleROI (fst t) downscale in
  if in_rect (r_begin (roi_x d)) (r_end (roi_x d))
             (r_begin (roi_y d)) (r_end (roi_y d)) x y
  then pix (fst (addTileMapWeighted rc mp tileParams (fst t) downscale (snd t)
                                    (Image_resize 0 0 0)))
           (y - r_begin (roi_y d)) (x - r_begin (roi_x d))
  else 0.

(** The full-image ROI of a camera. *)
Definition fullROI (mp : MultiViewParams) (rc : Z) : ROI :=
  mkROI (mkRange 0 (getWidth mp rc)) (mkRange 0 (getHeight mp rc)).

(** Two maps of the same dimensions with equal pixels. *)
Definition Image_eq (a b : Image) : Prop :=
  Width a = Width b /\ Height a = Height b /\
  forall y x, 0 <= x < Width a -> 0 <= y < Height a ->
              (pix a y x == pix b y x)%Q.

(** The tiles of [rois] that the loop of [readMapFromTiles] adds to the
    map: those with a non-empty ROI inside the image and a readable image. *)
Definition readableTiles (fs : MapFolder) (fileType : EFileType)
    (imageRoi : ROI) (rois : list ROI) : list (ROI * Image) :=
  flat_map (fun tileRoi =>
              let roi := intersect tileRoi imageRoi in
              if ROI_isEmpty roi then []
              else match readImage fs
                           (getFileNameFromIndex fileType
                              (Some (r_begin (roi_x roi), r_begin (roi_y roi))))
                   with
                   | Ok tileMap => [(roi, tileMap)]
                   | Throw _ => []
                   end)
           rois.

(** The warnings of that loop: one for each non-empty tile whose image
    cannot be read. *)
Definition skippedTiles (fs : MapFolder) (fileType : EFileType)
    (imageRoi : ROI) (rois : list ROI) : list LogEntry :=
  flat_map (fun tileRoi =>
              let roi := intersect tileRoi imageRoi in
              let path := getFileNameFromIndex fileType
                            (Some (r_begin (roi_x roi), r_begin (roi_y roi))) in
              if ROI_isEmpty roi then []
              else match readImage fs path with
                   | Ok _ => []
                   | Throw _ => [WarningCannotFindMap path]
                   end)
           rois.

(** The tile files of a folder for one map type. *)
Definition tileFiles (fs : MapFolder) (fileType : EFileType)
    : list (MapPath * MapFile) :=
  filter (fun e => matchesTilePattern fileType (fst e)) (entries fs).

(** Sum of the [nbDepthValues] entries of the listed tiles. *)
Fixpoint sumNbDepthValues (fs : MapFolder) (paths : list MapPath) : Z :=
  match paths with
  | [] => 0
  | p :: rest =>
      match readImageMetadata fs p with
      | Ok m => get_nbDepthValues m
      | Throw _ => 0
      end + sumNbDepthValues fs rest
  end.


(** One iteration of the refinement loop on the device buffers: the copy
    of the optimized depths, then the adjustment with the iteration index. *)
Definition refineIteration {M2 M1 : Type} (k : Kernels M2 M1)
    (sgm refine : M2) (roi : ROI) (st : DeviceState M2 M1) (iter : nat)
    : DeviceState M2 M1 :=
  let tmp := getOptDeptMapFromOptDepthSimMap k roi
               (out_optimizeDepthSimMap_dmp st) (inout_tmpOptDepthMap_dmp st) in
  mkDeviceState
    (depthSimMap k (Z.of_nat iter) roi (inout_imgVariance_dmp st) tmp
       sgm refine (out_optimizeDepthSimMap_dmp st))
    (inout_imgVariance_dmp st) tmp.

(** The launches of the adjustment kernel. *)
Definition is_depthSimMap_launch (l : Launch) : bool :=
  match l with optimize_depthSimMap_kernel _ _ => true | _ => false end.

(** * Worked examples *)

(** The scenario of the specification: a 64 x 64 image cut into four
    40 x 40 tiles with a padding of 8 pixels, neighbours overlapping by 16
    pixels, every tile holding the constant 1. *)
Definition mp64 : MultiViewParams := mkMVP (fun _ => 64) (fun _ => 64).

(** Tile parameters with a padding of 8 pixels. *)
Definition tp8 : TileParams := mkTileParams 40 40 8.

(** The constant map 1. *)
Definition ones : Image := Image_resize 64 64 1.

(** The four tiles of the scenario. *)
Definition tiles_overlap16 : list (ROI * Image) :=
  gridTiles 1 ones [mkRange 0 40; mkRange 24 64] [mkRange 0 40; mkRange 24 64].

(** The same image cut into tiles that overlap by exactly the padding. *)
Definition tiles_overlap8 : list (ROI * Image) :=
  gridTiles 1 ones [mkRange 0 36; mkRange 28 64] [mkRange 0 36; mkRange 28 64].

(** A tile of the grid [tiles_overlap8] on the left image boundary and below
    the first row. *)
Definition roi_left_second_row : ROI := mkROI (mkRange 0 36) (mkRange 28 64).

(** A 2 x 2 camera whose folder holds full-size maps only. *)
Definition mp2 : MultiViewParams := mkMVP (fun _ => 2) (fun _ => 2).

(** A file without any of the metadata entries. *)
Definition no_metadata : Metadata :=
  mkMetadata None None None None None None None None.

(** Two 2 x 2 maps. *)
Definition depth2x2 : Image :=
  mkImage 2 2 (fun y x => inject_Z (2 * y + x + 1)).

Definition sim2x2 : Image := mkImage 2 2 (fun y x => inject_Z (x - y)).

(** The folder of the 2 x 2 camera. *)
Definition folder_full : MapFolder :=
  mkMapFolder true
    [(FullMapPath depthMap, mkMapFile (Some no_metadata) (Some depth2x2));
     (FullMapPath simMap, mkMapFile (Some no_metadata) (Some sim2x2))].

(** Metadata of a tile file with a ROI and a count of valid depths. *)
Definition tile_metadata (bx by_ ex ey nb : Z) : Metadata :=
  mkMetadata (Some bx) (Some by_) (Some ex) (Some ey)
             (Some 40) (Some 40) (Some 8) (Some nb).

(** A folder of the 64 x 64 camera with two tiles of the first row: the
    image of the first one is readable, the second file is corrupt. *)
Definition folder_corrupt_pixels : MapFolder :=
  mkMapFolder true
    [(TileMapPath depthMap 0 0,
      mkMapFile (Some (tile_metadata 0 0 36 36 1296))
                (Some (crop ones (mkROI (mkRange 0 36) (mkRange 0 36)))));
     (TileMapPath depthMap 28 0,
      mkMapFile (Some (tile_metadata 28 0 64 36 1296)) None)].

(** The same folder when the second file has no ROI metadata. *)
Definition folder_no_roi : MapFolder :=
  mkMapFolder true
    [(TileMapPath depthMap 0 0,
      mkMapFile (Some (tile_metadata 0 0 36 36 1296))
                (Some (crop ones (mkROI (mkRange 0 36) (mkRange 0 36)))));
     (TileMapPath depthMap 28 0,
      mkMapFile (Some no_metadata)
                (Some (crop ones (mkROI (mkRange 28 64) (mkRange 0 36)))))].

(** A camera whose depth map folder does not exist. *)
Definition folder_missing : MapFolder := mkMapFolder false [].

(** An existing folder without any tile. *)
Definition folder_empty : MapFolder := mkMapFolder true [].

(** A folder with two depth map tiles and no full-size map; the tiles
    record 5 and 7 valid depths. *)
Definition folder_two_tiles : MapFolder :=
  mkMapFolder true
    [(TileMapPath depthMap 0 0,
      mkMapFile (Some (tile_metadata 0 0 36 36 5)) None);
     (TileMapPath depthMap 28 0,
      mkMapFile (Some (tile_metadata 28 0 64 36 7)) None)].

(** Rational square root, exact when the numerator and the denominator of
    the reduced fraction are squares. *)
Definition Qsqrt (q : Q) : Q :=
  let r := Qred q in Z.sqrt (Qnum r) # Pos.sqrt (Qden r).

(** Device functions for a worked example: the product of a column-major
    3 x 3 matrix with the pixel (x, y, 1), and the norm through [Qsqrt],
    which is exact on the vectors of the example. *)
Definition example_ops : DeviceOps :=
  mkDeviceOps
    (fun m v =>
       let e := fun i => nth i m 0%Q in
       (e 0%nat * fst v + e 3%nat * snd v + e 6%nat,
        e 1%nat * fst v + e 4%nat * snd v + e 7%nat,
        e 2%nat * fst v + e 5%nat * snd v + e 8%nat)%Q)
    (fun v => float3_scale v (/ Qsqrt (dot v v)))
    (fun v => Qsqrt (dot v v))
    (fun _ _ _ => None).

(** A camera at the origin with a focal length of about 24.7 pixels: its
    pixels (0, 0) and (1, 0) look along (0, 0, 1) and
    (970200, 0, 24000199) / 24019801, two unit vectors at distance
    198/4901. *)
Definition example_camera : DeviceCameraParams :=
  mkDeviceCameraParams [970200 # 24000199; 0; 0; 0; 1; 0; 0; 0; 1]%Q
                       (0, 0, 0)%Q.

(** A depth map with the depth 1 at pixel (0, 0) and no depth elsewhere. *)
Definition example_depthMap (x y : Z) : Q :=
  if (x =? 0) && (y =? 0) then 1%Q else 0%Q.

(** Kernels on integers for a worked example: the adjustment adds the
    iteration index to the copied depth. *)
Definition example_kernels : Kernels Z Z :=
  mkKernels Z Z
    (fun _ _ v => v)
    (fun _ out _ => out)
    (fun iter _ _ tmp _ _ _ => tmp + iter).

(** A 4 x 4 region. *)
Definition example_roi : ROI := mkROI (mkRange 0 4) (mkRange 0 4).

(** * More worked examples *)

(** Device functions like [example_ops] whose plane fit always finds the
    plane through the given point with the normal (0, 0, 1). *)
Definition example_ops_plane : DeviceOps :=
  mkDeviceOps (M3x3mulV2 example_ops) (normalize example_ops)
              (size example_ops)
              (fun _ pp _ => Some (pp, (0, 0, 1)%Q)).

(** A folder that holds a full-size depth map and nothing else. *)
Definition folder_depth_only : MapFolder :=
  mkMapFolder true
    [(FullMapPath depthMap, mkMapFile (Some no_metadata) (Some depth2x2))].

(** A folder with two depth map tiles, the second one without a count of
    valid depths. *)
Definition folder_tile_without_count : MapFolder :=
  mkMapFolder true
    [(TileMapPath depthMap 0 0,
      mkMapFile (Some (tile_metadata 0 0 36 36 5)) None);
     (TileMapPath depthMap 28 0, mkMapFile (Some no_metadata) None)].

(** * Writing and deleting maps (depthSimMapIO.cpp) *)

(** ** Metadata lists *)

(** [oiio::ParamValue]: the types of the values that the writer pushes
    (INT, FLOAT, arrays of doubles) and the strings of the image metadata. *)
Inductive ParamData : Type :=
| PV_INT (v : Z)
| PV_FLOAT (v : Q)
| PV_STRING (s : string)
| PV_DOUBLES (l : list Q).

(** [oiio::ParamValueList], in the order of the [push_back] calls. *)
Definition ParamValueList : Type := list (string * ParamData).

(** [metadata.find(name)]: the first entry of that name. *)
Fixpoint metadata_find (metadata : ParamValueList) (name : string)
    : option ParamData :=
  match metadata with
  | [] => None
  | (n, v) :: rest =>
      if String.eqb n name then Some v else metadata_find rest name
  end.

(** An entry found with the type INT; this is what [getRoiFromMetadata]
    and [getTileParamsFromMetadata] assign, and what [get_int] returns for
    an INT entry (its conversion of entries of other types is not
    modelled). *)
Definition find_INT (metadata : ParamValueList) (name : string) : option Z :=
  match metadata_find metadata name with
  | Some (PV_INT v) => Some v
  | _ => None
  end.

(** What the readers find in a file written with a metadata list. *)
Definition storedMetadata (metadata : ParamValueList) : Metadata :=
  mkMetadata (find_INT metadata "AliceVision:roiBeginX")
             (find_INT metadata "AliceVision:roiBeginY")
             (find_INT metadata "AliceVision:roiEndX")
             (find_INT metadata "AliceVision:roiEndY")
             (find_INT metadata "AliceVision:tileBufferWidth")
             (find_INT metadata "AliceVision:tileBufferHeight")
             (find_INT metadata "AliceVision:tilePadding")
             (find_INT metadata "AliceVision:nbDepthValues").

(** [image::getMetadataFromMap]: the strings of the image metadata. *)
Definition getMetadataFromMap (m : list (string * string)) : ParamValueList :=
  map (fun e => (fst e, PV_STRING (snd e))) m.

(** ** The camera data that the writer reads *)

(** What [writeDepthSimMap] reads of [MultiViewParams] for the camera,
    besides its dimensions. *)
Record CameraData : Type := mkCameraData {
  getMetadata : list (string * string);
  getDownscaleFactor : Z;
  getOriginalP : list Q;
  CArr : float3;
  iCamArr : list Q;
  camArr : list Q
}.

(** The matrix functions of [mvsData], missing from the sources, are
    parameters: [decomposeProjectionMatrix] gives K, R and C. *)
Record MatrixOps : Type := mkMatrixOps {
  decomposeProjectionMatrix : list Q -> list Q * list Q * float3;
  inverse : list Q -> list Q;
  mul3x3 : list Q -> list Q -> list Q
}.

(** [for (int i = 0; i < 8; ++i) P.m[i] /= double(scaleStep)] *)
Definition rescaleP (P : list Q) (scaleStep : Z) : list Q :=
  map (fun e => if (fst e <? 8)%nat then (snd e / inject_Z scaleStep)%Q
                else snd e)
      (combine (seq 0 (length P)) P).

(** The block "CArr & iCamArr metadata": the camera centre and the inverse
    camera matrix, recomputed when [scaleStep > 1]. *)
Definition cameraCenterAndInverse (ops : MatrixOps) (cam : CameraData)
    (scaleStep : Z) : float3 * list Q :=
  if 1 <? scaleStep
  then
    let P := rescaleP (camArr cam) scaleStep in
    let '(K, R, C) := decomposeProjectionMatrix ops P in
    let iK := inverse ops K in
    let iR := inverse ops R in
    (C, mul3x3 ops iR iK)
  else (CArr cam, iCamArr cam).

(** ** writeImage *)

(** [EStorageDataType]: the depth map is stored as float, the similarity
    map as half. *)
Inductive EStorageDataType : Type := Float | Half.

(** Replace the file of that name, or add it at the end of the folder. *)
Fixpoint storeFile (l : list (MapPath * MapFile)) (path : MapPath)
    (f : MapFile) : list (MapPath * MapFile) :=
  match l with
  | [] => [(path, f)]
  | (p, g) :: rest =>
      if MapPath_eqb p path then (p, f) :: rest
      else (p, g) :: storeFile rest path f
  end.

(** An image as it is stored in halves: every pixel converted by [toHalf]. *)
Definition storedAsHalf (toHalf : Q -> Q) (img : Image) : Image :=
  mkImage (Width img) (Height img) (fun y x => toHalf (pix img y x)).

(** Modelled from the spec: [image::writeImage] (image/io.hpp) is missing;
    the "image read/write service accepting a pixel buffer, an arbitrary
    key/value metadata list, and a display-ROI/pixel-ROI pair".  The file
    keeps the metadata list and the pixels of the buffer in the storage
    type: floats as they are, halves through the conversion [toHalf].  The
    two windows place the buffer in the image canvas and do not change
    what is read back. *)
Definition writeImage (toHalf : Q -> Q) (fs : MapFolder) (path : MapPath)
    (image : Image) (storageDataType : EStorageDataType)
    (metadata : ParamValueList) (displayRoi pixelRoi : ROI) : MapFolder :=
  let stored :=
    match storageDataType with
    | Float => image
    | Half => storedAsHalf toHalf image
    end in
  mkMapFolder (is_directory fs)
    (storeFile (entries fs) path
       (mkMapFile (Some (storedMetadata metadata)) (Some stored))).

(** ** writeDepthSimMap *)

(** [image.size()] *)
Definition Image_size (img : Image) : Z := Width img * Height img.

(** [if (!image.size() <= 0)]: the negation applies to the size, and the
    resulting 0 or 1 is compared with 0. *)
Definition not_size_le_0 (img : Image) : bool :=
  (if Image_size img =? 0 then 1 else 0) <=? 0.

(** The metadata list built by [writeDepthSimMap]. *)
Definition depthSimMapMetadata (ops : MatrixOps) (cam : CameraData)
    (tileParams : TileParams) (roi : ROI) (depthMap_ : Image)
    (scaleStep : Z) : ParamValueList :=
  let metadata := getMetadataFromMap (getMetadata cam) in
  (* downscale metadata *)
  let metadata := metadata ++
    [("AliceVision:downscale"%string,
      PV_INT (to_int32 (getDownscaleFactor cam * scaleStep)))] in
  (* roi metadata *)
  let metadata := metadata ++
    [("AliceVision:roiBeginX"%string, PV_INT (to_int32 (r_begin (roi_x roi))));
     ("AliceVision:roiBeginY"%string, PV_INT (to_int32 (r_begin (roi_y roi))));
     ("AliceVision:roiEndX"%string, PV_INT (to_int32 (r_end (roi_x roi))));
     ("AliceVision:roiEndY"%string, PV_INT (to_int32 (r_end (roi_y roi))))] in
  (* tile params metadata *)
  let metadata := metadata ++
    [("AliceVision:tileBufferWidth"%string, PV_INT (bufferWidth tileParams));
     ("AliceVision:tileBufferHeight"%string, PV_INT (bufferHeight tileParams));
     ("AliceVision:tilePadding"%string, PV_INT (padding tileParams))] in
  (* projection matrix metadata *)
  let metadata := metadata ++
    [("AliceVision:P"%string, PV_DOUBLES (getOriginalP cam))] in
  (* CArr & iCamArr metadata *)
  let '(C, iP) := cameraCenterAndInverse ops cam scaleStep in
  let metadata := metadata ++
    [("AliceVision:CArr"%string,
      PV_DOUBLES [fst (fst C); snd (fst C); snd C]);
     ("AliceVision:iCamArr"%string, PV_DOUBLES iP)] in
  (* min/max/nb depth metadata *)
  let stats := depthMapStats (Image_data depthMap_) in
  metadata ++
    [("AliceVision:nbDepthValues"%string,
      PV_INT (to_int32 (stat_nbDepthValues stats)));
     ("AliceVision:minDepth"%string, PV_FLOAT (stat_minDepth stats));
     ("AliceVision:maxDepth"%string, PV_FLOAT (stat_maxDepth stats))].

(** [writeDepthSimMap] with tile parameters and a ROI: the folder after
    the call. *)
Definition writeDepthSimMap (ops : MatrixOps) (toHalf : Q -> Q)
    (fs : MapFolder) (rc : Z) (mp : MultiViewParams) (cam : CameraData)
    (tileParams : TileParams) (roi : ROI) (depthMap_ simMap_ : Image)
    (scale step : Z) : MapFolder :=
  let scaleStep := Z.max scale 1 * step in
  (* get image dimensions at scale / stepXY *)
  let imageWidth := divideRoundUp (getWidth mp rc) scaleStep in
  let imageHeight := divideRoundUp (getHeight mp rc) scaleStep in
  (* get downscaled ROI *)
  let downscaledROI := downscaleROI roi scaleStep in
  let displayRoi := mkROI (mkRange 0 imageWidth) (mkRange 0 imageHeight) in
  let pixelRoi := downscaledROI in
  let isTile :=
    negb (ROI_width downscaledROI =? imageWidth)
    || negb (ROI_height downscaledROI =? imageHeight) in
  let tile :=
    if isTile then Some (r_begin (roi_x roi), r_begin (roi_y roi)) else None in
  let depthMapPath := getFileNameFromIndex depthMap tile in
  let simMapPath := getFileNameFromIndex simMap tile in
  let metadata :=
    depthSimMapMetadata ops cam tileParams roi depthMap_ scaleStep in
  (* write depth map *)
  let fs :=
    if not_size_le_0 depthMap_
    then writeImage toHalf fs depthMapPath depthMap_ Float metadata
                    displayRoi pixelRoi
    else fs in
  (* write sim map *)
  if not_size_le_0 simMap_
  then writeImage toHalf fs simMapPath simMap_ Half metadata
                  displayRoi pixelRoi
  else fs.

(** [writeDepthSimMap] without tile parameters and ROI: the default tile
    parameters [tileParams0] and the full ROI. *)
Definition writeDepthSimMap_full (ops : MatrixOps) (toHalf : Q -> Q)
    (tileParams0 : TileParams) (fs : MapFolder) (rc : Z)
    (mp : MultiViewParams) (cam : CameraData) (depthMap_ simMap_ : Image)
    (scale step : Z) : MapFolder :=
  let tileParams := tileParams0 in
  let roi := mkROI (mkRange 0 (getWidth mp rc)) (mkRange 0 (getHeight mp rc)) in
  writeDepthSimMap ops toHalf fs rc mp cam tileParams roi depthMap_ simMap_
                   scale step.

(** [image::Image<float> simMap;], an image without pixels. *)
Definition Image_empty : Image := mkImage 0 0 (fun _ _ => 0%Q).

(** [writeDepthMap]: an empty similarity map, so that only the depth map
    is written. *)
Definition writeDepthMap (ops : MatrixOps) (toHalf : Q -> Q)
    (tileParams0 : TileParams) (fs : MapFolder) (rc : Z)
    (mp : MultiViewParams) (cam : CameraData) (depthMap_ : Image)
    (scale step : Z) : MapFolder :=
  let tileParams := tileParams0 in
  let roi := mkROI (mkRange 0 (getWidth mp rc)) (mkRange 0 (getHeight mp rc)) in
  let simMap_ := Image_empty in
  writeDepthSimMap ops toHalf fs rc mp cam tileParams roi depthMap_ simMap_
                   scale step.

(** ** deleteDepthSimMapTiles *)

(** The messages logged by [deleteDepthSimMapTiles]. *)
Inductive DeleteLogEntry : Type :=
| InfoNoDepthMapTileToDelete
| InfoNoSimMapTileToDelete
| WarningCannotDeleteDepthMapTile (path : MapPath)
| WarningCannotDeleteSimMapTile (path : MapPath).

(** [fs::remove(path)]: the file is removed from the folder, unless the
    file system refuses ([removeThrows]) and the call throws. *)
Definition fs_remove (removeThrows : MapPath -> bool) (fs : MapFolder)
    (path : MapPath) : option MapFolder :=
  if removeThrows path then None
  else Some (mkMapFolder (is_directory fs)
               (filter (fun e => negb (MapPath_eqb (fst e) path))
                       (entries fs))).

(** One of the two loops [for path: try { fs::remove(path); } catch ...]. *)
Definition removeTiles (removeThrows : MapPath -> bool)
    (warning : MapPath -> DeleteLogEntry) (paths : list MapPath)
    (acc : MapFolder * list DeleteLogEntry) : MapFolder * list DeleteLogEntry :=
  fold_left
    (fun acc path =>
       match fs_remove removeThrows (fst acc) path with
       | Some fs' => (fs', snd acc)
       | None => (fst acc, snd acc ++ [warning path])
       end)
    paths acc.

(** [deleteDepthSimMapTiles]: the folder after the call and the messages
    logged. *)
Definition deleteDepthSimMapTiles (removeThrows : MapPath -> bool)
    (fs : MapFolder) : Result (MapFolder * list DeleteLogEntry) :=
  depthMapTilePathList <- getTilePathList fs depthMap [] ;;
  simMapTilePathList <- getTilePathList fs simMap [] ;;
  let log :=
    (if match depthMapTilePathList with [] => true | _ => false end
     then [InfoNoDepthMapTileToDelete] else [])
    ++ (if match simMapTilePathList with [] => true | _ => false end
        then [InfoNoSimMapTileToDelete] else []) in
  (* delete depth map tile files *)
  let acc := removeTiles removeThrows WarningCannotDeleteDepthMapTile
               depthMapTilePathList (fs, log) in
  (* delete similarity map tile files *)
  Ok (removeTiles removeThrows WarningCannotDeleteSimMapTile
        simMapTilePathList acc).

(** * Functions used to state the properties of the writer *)

(** The names of the metadata entries that the readers look for. *)
Definition readerKeys : list string :=
  ["AliceVision:roiBeginX"; "AliceVision:roiBeginY"; "AliceVision:roiEndX";
   "AliceVision:roiEndY"; "AliceVision:tileBufferWidth";
   "AliceVision:tileBufferHeight"; "AliceVision:tilePadding";
   "AliceVision:nbDepthValues"]%string.

(** The image metadata of the camera has none of these names. *)
Definition noReaderKey (cam : CameraData) : bool :=
  forallb (fun k =>
             negb (existsb (fun e => String.eqb (fst e) k) (getMetadata cam)))
          readerKeys.

(** The name under which [writeDepthSimMap] writes a map: the tile name
    when the downscaled ROI does not have the dimensions of the downscaled
    image, the full-size name otherwise. *)
Definition writtenMapPath (fileType : EFileType) (rc : Z)
    (mp : MultiViewParams) (roi : ROI) (scaleStep : Z) : MapPath :=
  let d := downscaleROI roi scaleStep in
  if negb (ROI_width d =? divideRoundUp (getWidth mp rc) scaleStep)
     || negb (ROI_height d =? divideRoundUp (getHeight mp rc) scaleStep)
  then TileMapPath fileType (r_begin (roi_x roi)) (r_begin (roi_y roi))
  else FullMapPath fileType.

(** A value that an [int] holds. *)
Definition is_int (z : Z) : Prop := - 2 ^ 31 <= z < 2 ^ 31.

(** A ROI that [getRoiFromMetadata] accepts, with [int] bounds. *)
Definition roi_storable (roi : ROI) : Prop :=
  0 <= r_begin (roi_x roi) < 2 ^ 31 /\ 0 <= r_begin (roi_y roi) < 2 ^ 31 /\
  0 < r_end (roi_x roi) < 2 ^ 31 /\ 0 < r_end (roi_y roi) < 2 ^ 31.

(** Tile parameters that [getTileParamsFromMetadata] accepts. *)
Definition tileParams_valid (tp : TileParams) : Prop :=
  0 < bufferWidth tp /\ 0 < bufferHeight tp /\ 0 <= padding tp.

(** Matrix functions for the worked examples. *)
Definition example_matrixOps : MatrixOps :=
  mkMatrixOps (fun P => (firstn 9 P, firstn 9 P, (0, 0, 0)%Q))
              (fun m => m) (fun a b => a).

(** A camera whose image metadata holds the name of the lens. *)
Definition example_cameraData : CameraData :=
  mkCameraData [("Exif:LensModel"%string, "50mm"%string)] 1
               [] (0, 0, 0)%Q [] [].

(** A conversion to half for the worked examples: the multiples of 1/8. *)
Definition example_toHalf (v : Q) : Q :=
  (Qnum v * 8 / Zpos (Qden v)) # 8.

(** A tile of the 64 x 64 camera and its depth map. *)
Definition example_tile_roi : ROI := mkROI (mkRange 28 64) (mkRange 0 36).

Definition example_tile_map : Image := crop ones example_tile_roi.

(** The files that a loop of removals takes away: the listed ones that the
    file system does not refuse to remove. *)
Definition removedBy (removeThrows : MapPath -> bool) (paths : list MapPath)
    (e : MapPath * MapFile) : bool :=
  existsb (fun p => MapPath_eqb (fst e) p && negb (removeThrows p)) paths.

(** The files that [deleteDepthSimMapTiles] leaves in the folder. *)
Definition keptByDelete (removeThrows : MapPath -> bool)
    (e : MapPath * MapFile) : bool :=
  negb ((matchesTilePattern depthMap (fst e)
         || matchesTilePattern simMap (fst e))
        && negb (removeThrows (fst e))).

(** A file system that refuses to remove the tile at (28, 0). *)
Definition example_removeThrows (path : MapPath) : bool :=
  MapPath_eqb path (TileMapPath depthMap 28 0).

(** The folder of a camera after the merge: the two full-size maps beside
    the tiles they were merged from. *)
Definition folder_merged : MapFolder :=
  mkMapFolder true (entries folder_full ++ entries folder_two_tiles).

(** * Functions used to state the properties of the readers and of the
      statistics *)

(** A tile file that [readMapFromTiles] cannot take a ROI from: its
    metadata cannot be read, or its ROI entries do not pass the test of
    [getRoiFromMetadata], that is, an end entry is absent or not positive,
    or a begin entry is negative. *)
Definition roiMetadataRejected (fs : MapFolder) (path : MapPath) : Prop :=
  match readImageMetadata fs path with
  | Throw _ => True
  | Ok m =>
      match roiEndX m with Some v => v <= 0 | None => True end \/
      match roiEndY m with Some v => v <= 0 | None => True end \/
      match roiBeginX m with Some v => v < 0 | None => False end \/
      match roiBeginY m with Some v => v < 0 | None => False end
  end.

(** The pixel (x, y) lies in the map. *)
Definition inImage (img : Image) (y x : Z) : Prop :=
  0 <= x < Width img /\ 0 <= y < Height img.

(** [ps] lists, without repetition, the pixels (y, x) of the map that have
    a depth above 0. *)
Definition positivePixels (img : Image) (ps : list (Z * Z)) : Prop :=
  NoDup ps /\
  forall y x, In (y, x) ps <-> inImage img y x /\ (0 < pix img y x)%Q.

(** The pixels (y, x) of a map, row after row. *)
Definition pixelPositions (img : Image) : list (Z * Z) :=
  flat_map (fun y => map (fun x => (Z.of_nat y, Z.of_nat x))
                         (seq 0 (Z.to_nat (Width img))))
           (seq 0 (Z.to_nat (Height img))).

(** The messages that [deleteDepthSimMapTiles] logs for a folder: one
    information for each kind of map without tile, then one warning for
    each depth map tile and for each similarity map tile that the file
    system refuses to remove. *)
Definition deleteLog (removeThrows : MapPath -> bool) (fs : MapFolder)
    : list DeleteLogEntry :=
  (match tileFiles fs depthMap with
   | [] => [InfoNoDepthMapTileToDelete]
   | _ => []
   end)
  ++ (match tileFiles fs simMap with
      | [] => [InfoNoSimMapTileToDelete]
      | _ => []
      end)
  ++ map WarningCannotDeleteDepthMapTile
         (filter removeThrows (map fst (tileFiles fs depthMap)))
  ++ map WarningCannotDeleteSimMapTile
         (filter removeThrows (map fst (tileFiles fs simMap))).

(** * Worked examples for the readers *)

(** A folder of the 64 x 64 camera whose second tile records a ROI that
    ends before it begins. *)
Definition folder_inverted_roi : MapFolder :=
  mkMapFolder true
    [(TileMapPath depthMap 0 0,
      mkMapFile (Some (tile_metadata 0 0 36 36 1296))
                (Some (crop ones (mkROI (mkRange 0 36) (mkRange 0 36)))));
     (TileMapPath depthMap 40 0,
      mkMapFile (Some (tile_metadata 40 0 36 36 1296))
                (Some (crop ones (mkROI (mkRange 28 64) (mkRange 0 36)))))].

(** Two tiles whose counts of valid depths do not fit an [int] together. *)
Definition folder_large_counts : MapFolder :=
  mkMapFolder true
    [(TileMapPath depthMap 0 0,
      mkMapFile (Some (tile_metadata 0 0 36 36 2147483647)) None);
     (TileMapPath depthMap 28 0,
      mkMapFile (Some (tile_metadata 28 0 64 36 2)) None)].

(** The 2 x 2 camera with one tile, the whole image, that records no valid
    depth although its four depths are positive. *)
Definition folder_zero_count : MapFolder :=
  mkMapFolder true
    [(TileMapPath depthMap 0 0,
      mkMapFile (Some (tile_metadata 0 0 2 2 0)) (Some depth2x2))].

(** * Properties *)

(** ** Loops over a rectangle of pixels *)

Lemma for_range_empty {St : Type} (lo hi : Z) (body : Z -> St -> St) (s : St) :
  hi <= lo -> for_range lo hi body s = s.
Proof.
  intros H. unfold for_range.
  replace (Z.to_nat (hi - lo)) with 0%nat by lia. reflexivity.
Qed.

Lemma for_range_last {St : Type} (lo hi : Z) (body : Z -> St -> St) (s : St) :
  lo <= hi ->
  for_range lo (hi + 1) body s = body hi (for_range lo hi body s).
Proof.
  intros H. unfold for_range.
  replace (Z.to_nat (hi + 1 - lo)) with (S (Z.to_nat (hi - lo))) by lia.
  rewrite seq_S, fold_left_app. simpl.
  replace (lo + Z.of_nat (Z.to_nat (hi - lo))) with hi by lia.
  reflexivity.
Qed.

(** Induction on the upper bound of a loop. *)
Lemma for_range_ind {St : Type} (P : Z -> St -> Prop) (lo : Z)
    (body : Z -> St -> St) (s : St) :
  P lo s ->
  (forall i t, lo <= i -> P i t -> P (i + 1) (body i t)) ->
  forall hi, lo <= hi -> P hi (for_range lo hi body s).
Proof.
  intros H0 Hstep hi Hle.
  replace hi with (lo + Z.of_nat (Z.to_nat (hi - lo))) by lia.
  generalize (Z.to_nat (hi - lo)) as n.
  induction n as [|n IH].
  - rewrite Z.add_0_r, for_range_empty by lia. exact H0.
  - replace (lo + Z.of_nat (S n)) with (lo + Z.of_nat n + 1) by lia.
    rewrite for_range_last by lia. apply Hstep; [lia | exact IH].
Qed.

Lemma column_loop (x y0 y1 : Z) (g : Z -> Q -> Q) (img : Image) :
  let img' := for_range y0 y1
                (fun y im => set_pix im y x (g y (pix im y x))) img in
  Width img' = Width img /\ Height img' = Height img /\
  forall y' x',
    pix img' y' x' =
    if (x' =? x) && (y0 <=? y') && (y' <? y1)
    then g y' (pix img y' x') else pix img y' x'.
Proof.
  intros img'. subst img'.
  destruct (Z_lt_le_dec y1 y0) as [Hlt | Hle].
  - rewrite for_range_empty by lia. repeat split.
    intros y' x'.
    destruct (x' =? x), (Z.leb_spec y0 y'), (Z.ltb_spec y' y1);
      simpl; try reflexivity; lia.
  - apply (for_range_ind
             (fun hi im =>
                Width im = Width img /\ Height im = Height img /\
                forall y' x',
                  pix im y' x' =
                  if (x' =? x) && (y0 <=? y') && (y' <? hi)
                  then g y' (pix img y' x') else pix img y' x')); [ | | exact Hle].
    + repeat split. intros y' x'.
      destruct (x' =? x), (Z.leb_spec y0 y'), (Z.ltb_spec y' y0);
        simpl; try reflexivity; lia.
    + intros i t Hi (Hw & Hh & Hp). simpl. repeat split; try assumption.
      intros y' x'. rewrite (Hp i x), !Hp.
      rewrite Z.eqb_refl.
      destruct (Z.leb_spec y0 i), (Z.ltb_spec i i);
        destruct (Z.leb_spec y0 y'), (Z.ltb_spec y' i), (Z.ltb_spec y' (i + 1));
        destruct (Z.eqb_spec y' i), (Z.eqb_spec x' x);
        subst; simpl; try reflexivity; try lia.
Qed.

Lemma map_rect_spec (x0 x1 y0 y1 : Z) (g : Z -> Z -> Q -> Q) (img : Image) :
  Width (map_rect x0 x1 y0 y1 g img) = Width img /\
  Height (map_rect x0 x1 y0 y1 g img) = Height img /\
  forall y x,
    pix (map_rect x0 x1 y0 y1 g img) y x =
    if in_rect x0 x1 y0 y1 x y then g x y (pix img y x) else pix img y x.
Proof.
  unfold map_rect, in_rect.
  destruct (Z_lt_le_dec x1 x0) as [Hlt | Hle].
  - rewrite for_range_empty by lia. repeat split. intros y x.
    destruct (Z.leb_spec x0 x), (Z.ltb_spec x x1); simpl; try reflexivity; lia.
  - apply (for_range_ind
             (fun hi im =>
                Width im = Width img /\ Height im = Height img /\
                forall y x,
                  pix im y x =
                  if (x0 <=? x) && (x <? hi) && (y0 <=? y) && (y <? y1)
                  then g x y (pix img y x) else pix img y x)); [ | | exact Hle].
    + repeat split. intros y x.
      destruct (Z.leb_spec x0 x), (Z.ltb_spec x x0); simpl; try reflexivity; lia.
    + intros i t Hi (Hw & Hh & Hp).
      destruct (column_loop i y0 y1 (g i) t) as (Hw' & Hh' & Hp').
      split; [congruence | split; [congruence | ]].
      intros y x. rewrite Hp', !Hp.
      destruct (Z.leb_spec x0 x), (Z.ltb_spec x i), (Z.ltb_spec x (i + 1));
        destruct (Z.leb_spec y0 y), (Z.ltb_spec y y1);
        destruct (Z.eqb_spec x i);
        subst; simpl; try reflexivity; try lia.
Qed.

(** ** The ramps of [weightTileBorder] *)

Lemma to_int_inject_Z (z : Z) : to_int (inject_Z z) = z.
Proof. unfold to_int. simpl. apply Z.quot_1_r. Qed.

Lemma to_int_inject_Z_plus (a b : Z) :
  to_int (inject_Z a + inject_Z b) = a + b.
Proof. rewrite <- inject_Z_plus. apply to_int_inject_Z. Qed.

Lemma clamp_low (v : Q) : (v <= 0)%Q -> (clamp v 0 1 == 0)%Q.
Proof.
  intros H. unfold clamp.
  rewrite (Q.min_l v 1) by lra. apply Q.max_l. exact H.
Qed.

Lemma clamp_mid (v : Q) : (0 <= v)%Q -> (v <= 1)%Q -> (clamp v 0 1 == v)%Q.
Proof.
  intros H0 H1. unfold clamp.
  rewrite (Q.min_l v 1) by exact H1. apply Q.max_r. exact H0.
Qed.

Lemma clamp_high (v : Q) : (1 <= v)%Q -> (clamp v 0 1 == 1)%Q.
Proof.
  intros H. unfold clamp.
  rewrite (Q.min_r v 1) by exact H. apply Q.max_r. lra.
Qed.

(** A value and its complement to 1 are clamped to complementary weights. *)
Lemma clamp_complement (u v : Q) :
  (u + v == 1)%Q -> (clamp u 0 1 + clamp v 0 1 == 1)%Q.
Proof.
  intros H.
  destruct (Qlt_le_dec u 0) as [Hneg | Hpos].
  - rewrite (clamp_low u), (clamp_high v) by lra. lra.
  - destruct (Qlt_le_dec 1 u) as [Hbig | Hsmall].
    + rewrite (clamp_high u), (clamp_low v) by lra. lra.
    + rewrite (clamp_mid u), (clamp_mid v) by lra. lra.
Qed.

#[global] Instance clamp_Proper :
  Proper (Qeq ==> Qeq ==> Qeq ==> Qeq) clamp.
Proof.
  intros v v' Hv lo lo' Hlo hi hi' Hhi. unfold clamp.
  rewrite Hv, Hlo, Hhi. reflexivity.
Qed.

Lemma borderWeight_ramps (a b c d bw bh lx ly x y : Z) :
  borderWeight a b c d bw bh (pt lx ly) x y =
  (ramp_r bh ly y * (ramp_r bw lx x * inject_Z a + ramp_l bw lx x * inject_Z b)
   + ramp_l bh ly y * (ramp_r bw lx x * inject_Z d + ramp_l bw lx x * inject_Z c))%Q.
Proof. reflexivity. Qed.

Lemma inject_Z_4 (n : Z) : n <> 4 -> ~ (inject_Z n - 2 * margin == 0)%Q.
Proof.
  intros Hn H. apply Hn. unfold margin in H.
  assert (H4 : (inject_Z n == inject_Z 4)%Q) by (change (inject_Z 4) with 4%Q; lra).
  exact (proj1 (inject_Z_injective n 4) H4).
Qed.

Lemma ramp_r_l (n lx x : Z) :
  n <> 4 -> (ramp_r n lx x + ramp_l n lx x == 1)%Q.
Proof.
  intros Hn. unfold ramp_r, ramp_l. apply clamp_complement.
  pose proof (inject_Z_4 n Hn) as Hd. field. exact Hd.
Qed.

(** A ramp only depends on the position inside its band. *)
Lemma ramp_r_shift (n lx x : Z) : (ramp_r n lx x == ramp_r n 0 (x - lx))%Q.
Proof.
  unfold ramp_r. apply clamp_Proper; try reflexivity.
  unfold Z.sub. rewrite inject_Z_plus, inject_Z_opp.
  unfold Qdiv. apply Qmult_comp; [ | reflexivity]. simpl. ring.
Qed.

(** ** What one call of [weightTileBorder] does to a pixel *)

Lemma weightTileBorder_spec (a b c d bw bh lx ly : Z) (img : Image) :
  let img' := weightTileBorder a b c d bw bh (pt lx ly) img in
  Width img' = Width img /\ Height img' = Height img /\
  forall y x,
    pix img' y x =
    if in_rect lx (Z.min (lx + bw) (Width img))
               ly (Z.min (ly + bh) (Height img)) x y
    then (pix img y x * borderWeight a b c d bw bh (pt lx ly) x y)%Q
    else pix img y x.
Proof.
  intros img'. subst img'. unfold weightTileBorder. simpl p_x. simpl p_y.
  rewrite !to_int_inject_Z, !to_int_inject_Z_plus.
  exact (map_rect_spec lx (Z.min (lx + bw) (Width img))
                       ly (Z.min (ly + bh) (Height img))
                       (fun x y v =>
                          (v * borderWeight a b c d bw bh (pt lx ly) x y)%Q)
                       img).
Qed.

(** ** The weight law of one tile *)

Lemma when_block_spec (cond : bool) (a b c d bw bh lx ly : Z) (img : Image) :
  let img' := when cond (weightTileBorder a b c d bw bh (pt lx ly)) img in
  Width img' = Width img /\ Height img' = Height img /\
  forall y x,
    pix img' y x =
    if cond && in_rect lx (Z.min (lx + bw) (Width img))
                       ly (Z.min (ly + bh) (Height img)) x y
    then (pix img y x * borderWeight a b c d bw bh (pt lx ly) x y)%Q
    else pix img y x.
Proof.
  destruct cond; simpl.
  - apply weightTileBorder_spec.
  - repeat split.
Qed.

(** Name the eight intermediate images of [weightTileBorders] and state
    what each block did. *)
Ltac name_block t i H :=
  match goal with
  | |- context [when ?c (weightTileBorder ?a ?b ?c' ?d ?bw ?bh (pt ?lx ?ly)) i] =>
      pose proof (when_block_spec c a b c' d bw bh lx ly i) as H;
      cbv zeta in H;
      set (t := when c (weightTileBorder a b c' d bw bh (pt lx ly)) i) in *;
      clearbody t
  end.

Ltac name_blocks img :=
  unfold weightTileBorders; cbv zeta;
  let t1 := fresh "t1" in let t2 := fresh "t2" in let t3 := fresh "t3" in
  let t4 := fresh "t4" in let t5 := fresh "t5" in let t6 := fresh "t6" in
  let t7 := fresh "t7" in let t8 := fresh "t8" in
  let H1 := fresh "H1" in let H2 := fresh "H2" in let H3 := fresh "H3" in
  let H4 := fresh "H4" in let H5 := fresh "H5" in let H6 := fresh "H6" in
  let H7 := fresh "H7" in let H8 := fresh "H8" in
  name_block t1 img H1; name_block t2 t1 H2; name_block t3 t2 H3;
  name_block t4 t3 H4; name_block t5 t4 H5; name_block t6 t5 H6;
  name_block t7 t6 H7; name_block t8 t7 H8;
  let W1 := fresh "W1" in let W2 := fresh "W2" in let W3 := fresh "W3" in
  let W4 := fresh "W4" in let W5 := fresh "W5" in let W6 := fresh "W6" in
  let W7 := fresh "W7" in let W8 := fresh "W8" in
  let G1 := fresh "G1" in let G2 := fresh "G2" in let G3 := fresh "G3" in
  let G4 := fresh "G4" in let G5 := fresh "G5" in let G6 := fresh "G6" in
  let G7 := fresh "G7" in let G8 := fresh "G8" in
  destruct H1 as (W1 & G1 & H1), H2 as (W2 & G2 & H2),
    H3 as (W3 & G3 & H3), H4 as (W4 & G4 & H4),
    H5 as (W5 & G5 & H5), H6 as (W6 & G6 & H6),
    H7 as (W7 & G7 & H7), H8 as (W8 & G8 & H8);
  rewrite W1 in W2, H2; rewrite W2 in W3, H3; rewrite W3 in W4, H4;
  rewrite W4 in W5, H5; rewrite W5 in W6, H6; rewrite W6 in W7, H7;
  rewrite W7 in W8, H8;
  rewrite G1 in G2, H2; rewrite G2 in G3, H3; rewrite G3 in G4, H4;
  rewrite G4 in G5, H5; rewrite G5 in G6, H6; rewrite G6 in G7, H7;
  rewrite G7 in G8, H8.

Lemma weightTileBorders_dims (fc lc fr lr : bool) (w h p : Z) (img : Image) :
  Width (weightTileBorders fc lc fr lr w h p img) = Width img /\
  Height (weightTileBorders fc lc fr lr w h p img) = Height img.
Proof.
  name_blocks img. split; congruence.
Qed.

Ltac rect_cases_in_hyps :=
  repeat match goal with
  | P : context [in_rect ?a ?b ?c ?d ?x ?y] |- _ =>
      let E := fresh "E" in
      destruct (in_rect a b c d x y) eqn:E; unfold in_rect in E;
      [ rewrite !andb_true_iff, !Z.leb_le, !Z.ltb_lt in E
      | rewrite !andb_false_iff, !Z.leb_gt, !Z.ltb_ge in E ];
      try (exfalso; lia); clear E
  end.

Ltac use_complements :=
  repeat match goal with
  | H : (?r + ?l == 1)%Q |- _ =>
      let Hr := fresh "Hr" in
      assert (Hr : (r == 1 - l)%Q) by lra;
      rewrite ?Hr; clear H Hr
  end.

(** After the eight blocks, a pixel of the tile carries the product of the
    horizontal and the vertical weight of its position. *)
Lemma weightTileBorders_pixel (fc lc fr lr : bool) (w h p : Z) (img : Image)
    (tx ty : Z) :
  Width img = w -> Height img = h ->
  0 <= p -> 2 * p <= w -> 2 * p <= h ->
  p <> 4 -> w - 2 * p <> 4 -> h - 2 * p <> 4 ->
  0 <= tx < w -> 0 <= ty < h ->
  (pix (weightTileBorders fc lc fr lr w h p img) ty tx ==
   pix img ty tx * (sideWeight fc lc w p tx * sideWeight fr lr h p ty))%Q.
Proof.
  intros HW HH Hp Hpw Hph Hp4 Hw4 Hh4 Htx Hty.
  pose proof (ramp_r_l p 0 tx Hp4) as Sx0.
  pose proof (ramp_r_l p (w - p) tx Hp4) as Sx1.
  pose proof (ramp_r_l p 0 ty Hp4) as Sy0.
  pose proof (ramp_r_l p (h - p) ty Hp4) as Sy1.
  pose proof (ramp_r_l (w - 2 * p) p tx Hw4) as Ex.
  pose proof (ramp_r_l (h - 2 * p) p ty Hh4) as Ey.
  name_blocks img.
  pose proof (H1 ty tx) as P1. pose proof (H2 ty tx) as P2.
  pose proof (H3 ty tx) as P3. pose proof (H4 ty tx) as P4.
  pose proof (H5 ty tx) as P5. pose proof (H6 ty tx) as P6.
  pose proof (H7 ty tx) as P7. pose proof (H8 ty tx) as P8.
  clear H1 H2 H3 H4 H5 H6 H7 H8.
  rewrite HW, HH in *.
  unfold sideWeight.
  destruct (Z.ltb_spec tx p), (Z.leb_spec (w - p) tx);
    destruct (Z.ltb_spec ty p), (Z.leb_spec (h - p) ty); try lia;
    rect_cases_in_hyps;
    destruct fc, lc, fr, lr; cbn [negb orb andb b2i] in *;
    rewrite P8, P7, P6, P5, P4, P3, P2, P1;
    rewrite ?borderWeight_ramps;
    change (inject_Z 0) with 0%Q; change (inject_Z 1) with 1%Q;
    use_complements; ring.
Qed.

(** ** Accumulation of the tiles *)

Lemma accumulateTile_spec (d : ROI) (tile out : Image) :
  Width (accumulateTile d tile out) = Width out /\
  Height (accumulateTile d tile out) = Height out /\
  forall y x,
    pix (accumulateTile d tile out) y x =
    if in_rect (r_begin (roi_x d)) (r_end (roi_x d))
               (r_begin (roi_y d)) (r_end (roi_y d)) x y
    then (pix out y x
          + pix tile (y - r_begin (roi_y d)) (x - r_begin (roi_x d)))%Q
    else pix out y x.
Proof.
  exact (map_rect_spec (r_begin (roi_x d)) (r_end (roi_x d))
                       (r_begin (roi_y d)) (r_end (roi_y d))
                       (fun x y v =>
                          (v + pix tile (y - r_begin (roi_y d))
                                        (x - r_begin (roi_x d)))%Q)
                       out).
Qed.

Lemma addTileMapWeighted_pixel rc mp tp roi s tile out y x :
  (pix (snd (addTileMapWeighted rc mp tp roi s tile out)) y x ==
   pix out y x + contribution rc mp tp s (roi, tile) x y)%Q.
Proof.
  unfold contribution, addTileMapWeighted. cbn [fst snd].
  destruct (accumulateTile_spec (downscaleROI roi s)
              (weightTileBorders (r_begin (roi_x roi) =? 0)
                 (r_end (roi_x roi) =? getWidth mp rc)
                 (r_begin (roi_y roi) =? 0)
                 (r_end (roi_y roi) =? getHeight mp rc)
                 (ROI_width (downscaleROI roi s))
                 (ROI_height (downscaleROI roi s))
                 (padding tp ÷ s) tile) out) as (_ & _ & Hp).
  rewrite Hp.
  destruct (in_rect _ _ _ _ x y); [reflexivity | ring].
Qed.

Lemma addTileMapWeighted_dims rc mp tp roi s tile out :
  Width (snd (addTileMapWeighted rc mp tp roi s tile out)) = Width out /\
  Height (snd (addTileMapWeighted rc mp tp roi s tile out)) = Height out.
Proof.
  unfold addTileMapWeighted. cbn [snd].
  destruct (accumulateTile_spec (downscaleROI roi s)
              (weightTileBorders (r_begin (roi_x roi) =? 0)
                 (r_end (roi_x roi) =? getWidth mp rc)
                 (r_begin (roi_y roi) =? 0)
                 (r_end (roi_y roi) =? getHeight mp rc)
                 (ROI_width (downscaleROI roi s))
                 (ROI_height (downscaleROI roi s))
                 (padding tp ÷ s) tile) out) as (Hw & Hh & _).
  split; assumption.
Qed.

Lemma mergeTiles_pixel rc mp tp s tiles out y x :
  (pix (mergeTiles rc mp tp s tiles out) y x ==
   pix out y x
   + sumQ (map (fun t => contribution rc mp tp s t x y) tiles))%Q.
Proof.
  unfold mergeTiles. revert out.
  induction tiles as [|t tiles IH]; intros out;
    cbn [fold_left map sumQ].
  - ring.
  - rewrite IH. destruct t as [roi tile]. cbn [fst snd].
    rewrite addTileMapWeighted_pixel. ring.
Qed.

Lemma mergeTiles_dims rc mp tp s tiles out :
  Width (mergeTiles rc mp tp s tiles out) = Width out /\
  Height (mergeTiles rc mp tp s tiles out) = Height out.
Proof.
  unfold mergeTiles. revert out.
  induction tiles as [|t tiles IH]; intros out; cbn [fold_left].
  - split; reflexivity.
  - destruct (IH (snd (addTileMapWeighted rc mp tp (fst t) s (snd t) out)))
      as (Hw & Hh).
    destruct (addTileMapWeighted_dims rc mp tp (fst t) s (snd t) out)
      as (Hw' & Hh').
    split; congruence.
Qed.

(** ** Sums of weights over a grid of tiles *)

Lemma sumQ_app (l1 l2 : list Q) : (sumQ (l1 ++ l2) == sumQ l1 + sumQ l2)%Q.
Proof.
  induction l1 as [|q l1 IH]; cbn [app sumQ].
  - ring.
  - rewrite IH. ring.
Qed.

Lemma sumQ_scale {A : Type} (v : Q) (a : A -> Q) (f : A -> Q) (l : list A) :
  (forall e, In e l -> (f e == v * a e)%Q) ->
  (sumQ (map f l) == v * sumQ (map a l))%Q.
Proof.
  induction l as [|e l IH]; intros H; cbn [map sumQ].
  - ring.
  - rewrite (H e) by (simpl; auto).
    rewrite IH by (intros; apply H; simpl; auto). ring.
Qed.

Lemma sumQ_grid {A B T : Type} (v : Q) (a : A -> Q) (b : B -> Q)
    (g : A -> B -> T) (f : T -> Q) (cols : list A) (rows : list B) :
  (forall c r, In c cols -> In r rows -> (f (g c r) == v * (a c * b r))%Q) ->
  (sumQ (map f (flat_map (fun c => map (g c) rows) cols))
   == v * (sumQ (map a cols) * sumQ (map b rows)))%Q.
Proof.
  induction cols as [|c cols IH]; intros H; cbn [flat_map map sumQ].
  - ring.
  - rewrite map_app, sumQ_app, IH by (intros; apply H; simpl; auto).
    rewrite map_map.
    rewrite (sumQ_scale (v * a c) b (fun r => f (g c r)) rows).
    + ring.
    + intros r Hr. rewrite (H c r) by (simpl; auto). ring.
Qed.

Lemma chain_ok_range (s p len : Z) (rs : list Range) (r : Range) :
  chain_ok s p len rs = true -> In r rs -> range_ok s p r = true.
Proof.
  induction rs as [|r0 rest IH]; intros Hc Hin; [destruct Hin | ].
  cbn [chain_ok] in Hc. apply andb_prop in Hc. destruct Hc as [Hr Hc].
  destruct Hin as [-> | Hin]; [exact Hr | ].
  destruct rest as [|r' rest']; [destruct Hin | ].
  apply IH; [ | exact Hin].
  rewrite !andb_true_iff in Hc. tauto.
Qed.

Lemma range_ok_facts (s p : Z) (r : Range) :
  range_ok s p r = true ->
  let size := Range_size (downscaleRange r s) in
  0 <= r_begin r /\ 1 <= size /\ 2 * p <= size /\ size - 2 * p <> 4.
Proof.
  unfold range_ok. intros H. cbv zeta.
  rewrite !andb_true_iff, !Z.leb_le, negb_true_iff, Z.eqb_neq in H. tauto.
Qed.

(** Sum of the weights of a chain of ranges at coordinate [x]: nothing
    before the first range, its left ramp inside its left band unless it
    starts at the image boundary, and 1 from there to the end of the axis. *)
Lemma chain_sum (s p len : Z) (rs : list Range) :
  0 <= p -> p <> 4 ->
  forall r rest, rs = r :: rest ->
  chain_ok s p len rs = true ->
  forall x, x < divideRoundUp len s ->
  (sumQ (map (fun c => axisWeight s p len c x) rs) ==
   if x <? r_begin (downscaleRange r s) then 0
   else if (x <? r_begin (downscaleRange r s) + p) && negb (r_begin r =? 0)
        then ramp_l p 0 (x - r_begin (downscaleRange r s))
        else 1)%Q.
Proof.
  intros Hp Hp4. induction rs as [|r0 rest0 IH]; intros r rest Heq Hc x Hx;
    [discriminate | ].
  injection Heq as -> ->.
  cbn [chain_ok] in Hc. apply andb_prop in Hc. destruct Hc as [Hr Hc].
  apply range_ok_facts in Hr. cbv zeta in Hr.
  destruct Hr as (Hb & Hs1 & Hs2 & Hs4).
  cbn [map sumQ].
  destruct rest as [|r' rest'].
  - (* the last range ends at the end of the axis *)
    apply Z.eqb_eq in Hc. cbn [map sumQ].
    unfold axisWeight, sideWeight. rewrite Hc, Z.eqb_refl.
    unfold Range_size, downscaleRange in *. cbn [r_begin r_end] in *.
    rewrite Hc in *.
    destruct (Z.leb_spec (r_begin r / s) x), (Z.ltb_spec x (divideRoundUp len s)),
      (Z.ltb_spec x (r_begin r / s)), (Z.ltb_spec x (r_begin r / s + p)),
      (Z.ltb_spec (x - r_begin r / s) p),
      (Z.leb_spec (divideRoundUp len s - r_begin r / s - p) (x - r_begin r / s)),
      (r_begin r =? 0);
      cbn [andb negb]; try lia; ring.
  - rewrite !andb_true_iff, !negb_true_iff, Z.eqb_eq in Hc.
    destruct Hc as (((Hne & Hnb) & Hov) & Hc').
    rewrite (IH r' rest' eq_refl Hc' x Hx).
    rewrite Hnb. unfold axisWeight, sideWeight. rewrite Hne.
    unfold Range_size, downscaleRange in *. cbn [r_begin r_end] in *.
    rewrite Hov.
    set (b := r_begin r / s) in *. set (e := divideRoundUp (r_end r) s) in *.
    assert (Hshift : (ramp_r p (e - b - p) (x - b) == ramp_r p 0 (x - (e - p)))%Q).
    { rewrite ramp_r_shift. replace (x - b - (e - b - p)) with (x - (e - p)) by lia.
      reflexivity. }
    pose proof (ramp_r_l p 0 (x - (e - p)) Hp4) as Hsum.
    destruct (Z.leb_spec b x), (Z.ltb_spec x e),
      (Z.ltb_spec x b), (Z.ltb_spec x (b + p)),
      (Z.ltb_spec (x - b) p), (Z.leb_spec (e - b - p) (x - b)),
      (Z.ltb_spec x (e - p)), (Z.ltb_spec x (e - p + p)),
      (r_begin r =? 0);
      cbn [andb negb]; try lia; rewrite ?Hshift; try lra.
Qed.

(** Along one axis the weights of a tiling sum to 1 at every coordinate. *)
Lemma tiling_sum (s p len : Z) (rs : list Range) (x : Z) :
  0 <= p -> p <> 4 ->
  tiling_ok s p len rs = true ->
  0 <= x < divideRoundUp len s ->
  (sumQ (map (fun c => axisWeight s p len c x) rs) == 1)%Q.
Proof.
  intros Hp Hp4 Ht Hx. destruct rs as [|r rest]; [discriminate | ].
  unfold tiling_ok in Ht. apply andb_prop in Ht. destruct Ht as [H0 Hc].
  rewrite (chain_sum s p len (r :: rest) Hp Hp4 r rest eq_refl Hc x) by lia.
  rewrite H0. apply Z.eqb_eq in H0.
  unfold downscaleRange. cbn [r_begin]. rewrite H0, Zdiv_0_l.
  destruct (Z.ltb_spec x 0); [lia | ].
  rewrite andb_false_r. reflexivity.
Qed.

Lemma sumQ_perm (l1 l2 : list Q) :
  Permutation l1 l2 -> (sumQ l1 == sumQ l2)%Q.
Proof.
  induction 1 as [ | q l1 l2 _ IH | q1 q2 l | l1 l2 l3 _ IH1 _ IH2];
    cbn [sumQ].
  - reflexivity.
  - rewrite IH. reflexivity.
  - ring.
  - rewrite IH1. exact IH2.
Qed.

Lemma contribution_grid rc mp tp s src c r x y :
  0 <= padding tp ÷ s -> padding tp ÷ s <> 4 ->
  range_ok s (padding tp ÷ s) c = true ->
  range_ok s (padding tp ÷ s) r = true ->
  (contribution rc mp tp s
     (mkROI c r, crop src (downscaleROI (mkROI c r) s)) x y ==
   pix src y x
   * (axisWeight s (padding tp ÷ s) (getWidth mp rc) c x
      * axisWeight s (padding tp ÷ s) (getHeight mp rc) r y))%Q.
Proof.
  intros Hp Hp4 Hc Hr.
  apply range_ok_facts in Hc. apply range_ok_facts in Hr. cbv zeta in Hc, Hr.
  destruct Hc as (_ & Hc1 & Hc2 & Hc4), Hr as (_ & Hr1 & Hr2 & Hr4).
  unfold contribution, addTileMapWeighted, axisWeight. cbn [fst snd].
  unfold downscaleROI, ROI_width, ROI_height. cbn [roi_x roi_y].
  set (dc := downscaleRange c s) in *. set (dr := downscaleRange r s) in *.
  unfold in_rect.
  destruct (Z.leb_spec (r_begin dc) x), (Z.ltb_spec x (r_end dc));
    cbn [andb]; try ring;
    destruct (Z.leb_spec (r_begin dr) y), (Z.ltb_spec y (r_end dr));
    cbn [andb]; try ring.
  rewrite weightTileBorders_pixel; try reflexivity; try assumption;
    unfold Range_size in *; try lia.
  unfold crop. cbn [pix].
  replace (y - r_begin dr + r_begin (roi_y (mkROI dc dr))) with y
    by (cbn [roi_y]; lia).
  replace (x - r_begin dc + r_begin (roi_x (mkROI dc dr))) with x
    by (cbn [roi_x]; lia).
  reflexivity.
Qed.

Lemma gridTiles_sum rc mp tp s src cols rows x y :
  0 <= padding tp ÷ s -> padding tp ÷ s <> 4 ->
  (forall c, In c cols -> range_ok s (padding tp ÷ s) c = true) ->
  (forall r, In r rows -> range_ok s (padding tp ÷ s) r = true) ->
  (sumQ (map (fun t => contribution rc mp tp s t x y)
             (gridTiles s src cols rows)) ==
   pix src y x
   * (sumQ (map (fun c => axisWeight s (padding tp ÷ s) (getWidth mp rc) c x) cols)
      * sumQ (map (fun r => axisWeight s (padding tp ÷ s) (getHeight mp rc) r y) rows)))%Q.
Proof.
  intros Hp Hp4 Hcols Hrows. unfold gridTiles.
  apply (sumQ_grid (pix src y x)
           (fun c => axisWeight s (padding tp ÷ s) (getWidth mp rc) c x)
           (fun r => axisWeight s (padding tp ÷ s) (getHeight mp rc) r y)
           (fun c r => (mkROI c r, crop src (downscaleROI (mkROI c r) s)))
           (fun t => contribution rc mp tp s t x y)).
  intros c r Hc Hr. apply contribution_grid; auto.
Qed.

Lemma tiling_ok_chain s p len rs :
  tiling_ok s p len rs = true -> chain_ok s p len rs = true.
Proof.
  destruct rs as [|r rest]; [discriminate | ].
  unfold tiling_ok. intros H. apply andb_prop in H. tauto.
Qed.

(** C1, amended.  Tiles of a grid whose neighbours overlap by exactly the
    downscaled padding, cut out of a map [src] and merged in any order into
    a zero map, give back [src] at every pixel: the weights applied by
    [weightTileBorder] through [addTileMapWeighted] sum to 1 there.  The
    padding and each border length minus twice the padding differ from 4. *)
Theorem merge_grid_roundtrip rc mp tp s cols rows src tiles x y :
  1 <= s -> 0 <= padding tp -> padding tp ÷ s <> 4 ->
  tiling_ok s (padding tp ÷ s) (getWidth mp rc) cols = true ->
  tiling_ok s (padding tp ÷ s) (getHeight mp rc) rows = true ->
  Permutation tiles (gridTiles s src cols rows) ->
  0 <= x < divideRoundUp (getWidth mp rc) s ->
  0 <= y < divideRoundUp (getHeight mp rc) s ->
  (pix (mergeTiles rc mp tp s tiles
          (Image_resize (divideRoundUp (getWidth mp rc) s)
                        (divideRoundUp (getHeight mp rc) s) 0)) y x
   == pix src y x)%Q.
Proof.
  intros Hs Hpad Hp4 Hcols Hrows Hperm Hx Hy.
  assert (Hp : 0 <= padding tp ÷ s) by (apply Z.quot_pos; lia).
  rewrite mergeTiles_pixel. cbn [Image_resize pix].
  rewrite (sumQ_perm _ _
             (Permutation_map (fun t => contribution rc mp tp s t x y) Hperm)).
  rewrite gridTiles_sum; try assumption.
  - rewrite !tiling_sum by assumption. ring.
  - intros c Hc.
    exact (chain_ok_range _ _ _ _ _ (tiling_ok_chain _ _ _ _ Hcols) Hc).
  - intros r Hr.
    exact (chain_ok_range _ _ _ _ _ (tiling_ok_chain _ _ _ _ Hrows) Hr).
Qed.

Lemma merge_grid_roundtrip_witness :
  (pix (mergeTiles 0 mp64 tp8 1 tiles_overlap8 (Image_resize 64 64 0)) 5 30
   == 1)%Q.
Proof.
  apply (merge_grid_roundtrip 0 mp64 tp8 1
           [mkRange 0 36; mkRange 28 64] [mkRange 0 36; mkRange 28 64] ones
           tiles_overlap8 30 5).
  - lia.
  - simpl; lia.
  - vm_compute; discriminate.
  - vm_compute; reflexivity.
  - vm_compute; reflexivity.
  - apply Permutation_refl.
  - vm_compute; split; [discriminate | reflexivity].
  - vm_compute; split; [discriminate | reflexivity].
Defined.

(** The hypotheses also hold at a downscale of 2: with a padding of 12 the
    ranges [0, 40) and [28, 64) of a 64 pixel axis become [0, 20) and
    [14, 32), which overlap by the downscaled padding 6. *)
Example tiling_downscale2 :
  tiling_ok 2 (12 ÷ 2) 64 [mkRange 0 40; mkRange 28 64] = true.
Proof. reflexivity. Qed.

(** C1 as stated fails on the scenario of the specification: the four
    40 x 40 tiles cover the 64 x 64 image, the padding 8 is less than half
    of 40, every tile holds the constant 1, and the merged map is 5/4 at
    pixel (27, 5), where the left band of the second column meets the
    interior of the first. *)
Lemma merge_overlap16_not_one :
  covers 64 64 (map fst tiles_overlap16) = true /\
  0 <= padding tp8 /\ 2 * padding tp8 < Z.min 40 40 /\
  (pix (mergeTiles 0 mp64 tp8 1 tiles_overlap16 (Image_resize 64 64 0)) 5 27
   == 5 # 4)%Q /\
  ~ (pix (mergeTiles 0 mp64 tp8 1 tiles_overlap16 (Image_resize 64 64 0)) 5 27
     == 1)%Q.
Proof.
  split; [vm_compute; reflexivity | ].
  split; [simpl; lia | ].
  split; [simpl; lia | ].
  split; vm_compute; [reflexivity | discriminate].
Qed.

(** ** The untiled map through the merge path *)

Lemma readImage_exists fs path img :
  readImage fs path = Ok img -> exists_ fs path = true.
Proof.
  unfold readImage, exists_.
  destruct (lookupFile (entries fs) path); [reflexivity | discriminate].
Qed.

(** C3.  When the full-size depth and similarity maps exist,
    [readDepthSimMap] returns them as they are read; adding either of them
    with [addTileMapWeighted] under the full-image ROI to the zero map of
    the downscaled image dimensions leaves the map unweighted (the eight
    blocks are skipped) and gives an output equal to it. *)
Theorem merge_full_map_is_fast_path tileParams0 fs rc mp tileParams
    scale step depthImg simImg :
  readImage fs (getFileNameFromIndex depthMap None) = Ok depthImg ->
  readImage fs (getFileNameFromIndex simMap None) = Ok simImg ->
  let scaleStep := Z.max scale 1 * step in
  let width := divideRoundUp (getWidth mp rc) scaleStep in
  let height := divideRoundUp (getHeight mp rc) scaleStep in
  Width depthImg = width -> Height depthImg = height ->
  Width simImg = width -> Height simImg = height ->
  readDepthSimMap tileParams0 fs rc mp scale step
    = Ok (depthImg, simImg, []) /\
  forall img, img = depthImg \/ img = simImg ->
    let r := addTileMapWeighted rc mp tileParams (fullROI mp rc) scaleStep
               img (Image_resize width height 0) in
    fst r = img /\ Image_eq (snd r) img.
Proof.
  intros Hd Hs scaleStep width height HdW HdH HsW HsH. split.
  - unfold readDepthSimMap.
    rewrite (readImage_exists _ _ _ Hd), (readImage_exists _ _ _ Hs).
    cbn [andb]. rewrite Hd, Hs. reflexivity.
  - intros img Himg r.
    assert (HW : Width img = width) by (destruct Himg; subst; assumption).
    assert (HH : Height img = height) by (destruct Himg; subst; assumption).
    assert (Hfst : fst r = img).
    { subst r. unfold addTileMapWeighted, fullROI. cbn [fst roi_x roi_y r_begin r_end].
      rewrite !Z.eqb_refl. reflexivity. }
    split; [exact Hfst | ].
    assert (Hsnd : snd r = accumulateTile (downscaleROI (fullROI mp rc) scaleStep)
                             (fst r) (Image_resize width height 0))
      by reflexivity.
    rewrite Hsnd, Hfst.
    destruct (accumulateTile_spec (downscaleROI (fullROI mp rc) scaleStep) img
                (Image_resize width height 0)) as (Hw & Hh & Hp).
    unfold Image_eq. rewrite Hw, Hh. cbn [Image_resize Width Height].
    split; [congruence | split; [congruence | ]].
    intros y x Hx Hy. rewrite Hp.
    unfold downscaleROI, downscaleRange, fullROI, in_rect.
    cbn [roi_x roi_y r_begin r_end pix Image_resize].
    rewrite !Zdiv_0_l. fold width height.
    destruct (Z.leb_spec 0 x), (Z.ltb_spec x width),
      (Z.leb_spec 0 y), (Z.ltb_spec y height); try lia.
    cbn [andb]. rewrite !Z.sub_0_r. ring.
Qed.

Lemma merge_full_map_is_fast_path_witness :
  readDepthSimMap tp8 folder_full 0 mp2 1 1 = Ok (depth2x2, sim2x2, []) /\
  forall img, img = depth2x2 \/ img = sim2x2 ->
    let r := addTileMapWeighted 0 mp2 tp8 (fullROI mp2 0) (Z.max 1 1 * 1)
               img (Image_resize 2 2 0) in
    fst r = img /\ Image_eq (snd r) img.
Proof.
  apply (merge_full_map_is_fast_path tp8 folder_full 0 mp2 tp8 1 1
           depth2x2 sim2x2); reflexivity.
Defined.

(** ** Tiles on an image boundary *)

Lemma sideWeight_boundary_first (last : bool) (size p t : Z) :
  t < p -> sideWeight true last size p t = 1%Q.
Proof.
  intros H. unfold sideWeight.
  destruct (Z.ltb_spec t p); [reflexivity | lia].
Qed.

Lemma sideWeight_boundary_last (first : bool) (size p t : Z) :
  2 * p <= size -> size - p <= t -> sideWeight first true size p t = 1%Q.
Proof.
  intros H2 H. unfold sideWeight.
  destruct (Z.ltb_spec t p); [lia | ].
  destruct (Z.leb_spec (size - p) t); [reflexivity | lia].
Qed.

Lemma sideWeight_interior (first last : bool) (size p t : Z) :
  p <= t < size - p -> sideWeight first last size p t = 1%Q.
Proof.
  intros H. unfold sideWeight.
  destruct (Z.ltb_spec t p); [lia | ].
  destruct (Z.leb_spec (size - p) t); [lia | reflexivity].
Qed.

(** C6, amended.  On a side of the tile that lies on the image boundary
    [addTileMapWeighted] applies no ramp across that side: a pixel of the
    padding band of that side is weighted by the weight of the other axis
    alone, which is 1 between the two corner squares (the edge band is
    skipped) and, inside a corner square, the ramp of the adjacent side
    unless that side is on the boundary too. *)
Theorem boundary_side_not_ramped rc mp tp roi s tile out tx ty :
  let d := downscaleROI roi s in
  let w := ROI_width d in
  let h := ROI_height d in
  let p := padding tp ÷ s in
  let firstColumn := r_begin (roi_x roi) =? 0 in
  let lastColumn := r_end (roi_x roi) =? getWidth mp rc in
  let firstRow := r_begin (roi_y roi) =? 0 in
  let lastRow := r_end (roi_y roi) =? getHeight mp rc in
  let weighted := fst (addTileMapWeighted rc mp tp roi s tile out) in
  Width tile = w -> Height tile = h ->
  0 <= p -> 2 * p <= w -> 2 * p <= h ->
  p <> 4 -> w - 2 * p <> 4 -> h - 2 * p <> 4 ->
  0 <= tx < w -> 0 <= ty < h ->
  (firstColumn = true /\ tx < p \/ lastColumn = true /\ w - p <= tx ->
     (pix weighted ty tx
      == pix tile ty tx * sideWeight firstRow lastRow h p ty)%Q /\
     (p <= ty < h - p -> (pix weighted ty tx == pix tile ty tx)%Q)) /\
  (firstRow = true /\ ty < p \/ lastRow = true /\ h - p <= ty ->
     (pix weighted ty tx
      == pix tile ty tx * sideWeight firstColumn lastColumn w p tx)%Q /\
     (p <= tx < w - p -> (pix weighted ty tx == pix tile ty tx)%Q)).
Proof.
  intros d w h p fc lc fr lr weighted HW HH Hp Hpw Hph Hp4 Hw4 Hh4 Htx Hty.
  assert (Hpix : (pix weighted ty tx ==
                  pix tile ty tx * (sideWeight fc lc w p tx
                                    * sideWeight fr lr h p ty))%Q).
  { subst weighted. unfold addTileMapWeighted. cbn [fst].
    apply weightTileBorders_pixel; assumption. }
  split; intros Hside.
  - assert (Hx : sideWeight fc lc w p tx = 1%Q).
    { destruct Hside as [[Hf Hlt] | [Hl Hge]].
      + rewrite Hf. apply sideWeight_boundary_first. exact Hlt.
      + rewrite Hl. apply sideWeight_boundary_last; assumption. }
    rewrite Hx in Hpix. split.
    + rewrite Hpix. ring.
    + intros Hband. rewrite Hpix, (sideWeight_interior fr lr h p ty Hband). ring.
  - assert (Hy : sideWeight fr lr h p ty = 1%Q).
    { destruct Hside as [[Hf Hlt] | [Hl Hge]].
      + rewrite Hf. apply sideWeight_boundary_first. exact Hlt.
      + rewrite Hl. apply sideWeight_boundary_last; assumption. }
    rewrite Hy in Hpix. split.
    + rewrite Hpix. ring.
    + intros Hband. rewrite Hpix, (sideWeight_interior fc lc w p tx Hband). ring.
Qed.

Lemma boundary_side_not_ramped_witness :
  (pix (fst (addTileMapWeighted 0 mp64 tp8 roi_left_second_row 1
               (crop ones roi_left_second_row) (Image_resize 64 64 0))) 12 3
   == pix (crop ones roi_left_second_row) 12 3)%Q.
Proof.
  refine (proj2 (proj1 (boundary_side_not_ramped 0 mp64 tp8
                          roi_left_second_row 1
                          (crop ones roi_left_second_row)
                          (Image_resize 64 64 0) 3 12
                          _ _ _ _ _ _ _ _ _ _) _) _).
  - reflexivity.
  - reflexivity.
  - vm_compute; discriminate.
  - vm_compute; discriminate.
  - vm_compute; discriminate.
  - vm_compute; discriminate.
  - vm_compute; discriminate.
  - vm_compute; discriminate.
  - vm_compute; split; [discriminate | reflexivity].
  - vm_compute; split; [discriminate | reflexivity].
  - left. split; vm_compute; reflexivity.
  - vm_compute; split; [discriminate | reflexivity].
Defined.

(** C6 as stated fails in a corner square: the tile [roi_left_second_row]
    touches the left image boundary, its pixel (0, 0) lies in the padding
    band of that side, and its weight is 0, the top of the ramp towards the
    tile above. *)
Lemma boundary_corner_pixel_not_kept :
  r_begin (roi_x roi_left_second_row) = 0 /\
  0 <= 0 < padding tp8 /\
  (pix (crop ones roi_left_second_row) 0 0 == 1)%Q /\
  (pix (fst (addTileMapWeighted 0 mp64 tp8 roi_left_second_row 1
               (crop ones roi_left_second_row) (Image_resize 64 64 0))) 0 0
   == 0)%Q.
Proof.
  repeat split; try (vm_compute; reflexivity); try (vm_compute; discriminate).
Qed.

(** ** readMapFromTiles *)

Lemma addTileStep_loop fs rc mp ft tp imageRoi s rois out log :
  fold_left (addTileStep fs rc mp ft tp imageRoi s) rois (out, log) =
  (mergeTiles rc mp tp s (readableTiles fs ft imageRoi rois) out,
   log ++ skippedTiles fs ft imageRoi rois).
Proof.
  revert out log. induction rois as [|r rois IH]; intros out log.
  - cbn. rewrite app_nil_r. reflexivity.
  - cbn [fold_left]. unfold readableTiles, skippedTiles. cbn [flat_map].
    fold (readableTiles fs ft imageRoi rois).
    fold (skippedTiles fs ft imageRoi rois).
    unfold addTileStep at 2. cbn [fst snd].
    destruct (ROI_isEmpty (intersect r imageRoi)).
    + rewrite IH. reflexivity.
    + destruct (readImage fs _) as [tileMap | e].
      * rewrite IH. reflexivity.
      * rewrite IH, <- app_assoc. reflexivity.
Qed.

Lemma getTileRoiList_throws fs paths path e :
  In path paths ->
  getRoiFromMetadata fs path ROI_default = Throw e ->
  exists e', getTileRoiList fs paths = Throw e'.
Proof.
  induction paths as [|p rest IH]; intros Hin Hthrow; [destruct Hin | ].
  cbn [getTileRoiList].
  destruct (getRoiFromMetadata fs p ROI_default) as [roi | e0] eqn:Hp.
  - destruct Hin as [-> | Hin]; [congruence | ].
    destruct (IH Hin Hthrow) as [e' He']. rewrite He'. cbn. eauto.
  - cbn. eauto.
Qed.

(** The skipped tile of [folder_corrupt_pixels] is reported and the map of
    the first tile is still produced. *)
Lemma skippedTiles_corrupt_pixels :
  skippedTiles folder_corrupt_pixels depthMap (fullROI mp64 0)
    [mkROI (mkRange 0 36) (mkRange 0 36); mkROI (mkRange 28 64) (mkRange 0 36)]
  = [WarningCannotFindMap (TileMapPath depthMap 28 0)].
Proof. reflexivity. Qed.

(** C8, amended.  When the map folder of the camera exists and holds no
    tile file, [readMapFromTiles] returns a map of the downscaled image
    dimensions whose pixels are all 0. *)
Theorem readMapFromTiles_no_tile tileParams0 fs rc mp fileType scale step :
  is_directory fs = true ->
  tileFiles fs fileType = [] ->
  exists out log,
    readMapFromTiles tileParams0 fs rc mp fileType scale step = Ok (out, log) /\
    Width out = divideRoundUp (getWidth mp rc) (Z.max scale 1 * step) /\
    Height out = divideRoundUp (getHeight mp rc) (Z.max scale 1 * step) /\
    forall y x, pix out y x = 0%Q.
Proof.
  intros Hdir Hnone.
  exists (Image_resize (divideRoundUp (getWidth mp rc) (Z.max scale 1 * step))
                       (divideRoundUp (getHeight mp rc) (Z.max scale 1 * step)) 0).
  exists [InfoNoMapTile].
  unfold readMapFromTiles, getTilePathList. rewrite Hdir. cbn [negb app].
  unfold tileFiles in Hnone. rewrite Hnone. cbn [map bind].
  repeat split.
Qed.

Lemma readMapFromTiles_no_tile_witness :
  exists out log,
    readMapFromTiles tp8 folder_empty 0 mp64 simMap 2 1 = Ok (out, log) /\
    Width out = divideRoundUp 64 (Z.max 2 1 * 1) /\
    Height out = divideRoundUp 64 (Z.max 2 1 * 1) /\
    forall y x, pix out y x = 0%Q.
Proof.
  apply (readMapFromTiles_no_tile tp8 folder_empty 0 mp64 simMap 2 1);
    reflexivity.
Defined.

(** C8 as stated fails when the folder of the camera does not exist: no
    tile file matches the pattern and [readMapFromTiles] throws. *)
Lemma readMapFromTiles_missing_folder_throws :
  tileFiles folder_missing depthMap = [] /\
  readMapFromTiles tp8 folder_missing 0 mp64 depthMap 1 1
    = Throw CannotFindMapDirectory.
Proof. split; reflexivity. Qed.

(** ** readMapFromTiles: tiles that cannot be merged *)

Lemma getRoiFromMetadata_rejected fs path :
  roiMetadataRejected fs path ->
  exists e, getRoiFromMetadata fs path ROI_default = Throw e.
Proof.
  unfold roiMetadataRejected, getRoiFromMetadata.
  destruct (readImageMetadata fs path) as [m | e]; cbn [bind];
    [ | intros _; eauto].
  cbn [ROI_default roi_x roi_y r_begin r_end].
  intros H.
  assert (Htest :
            (assign_if_found (roiBeginX m) 0 <? 0)
            || (assign_if_found (roiBeginY m) 0 <? 0)
            || (assign_if_found (roiEndX m) 0 <=? 0)
            || (assign_if_found (roiEndY m) 0 <=? 0) = true).
  { rewrite !orb_true_iff, !Z.ltb_lt, !Z.leb_le. unfold assign_if_found.
    destruct (roiBeginX m), (roiBeginY m), (roiEndX m), (roiEndY m);
      intuition lia. }
  rewrite Htest. eauto.
Qed.

Lemma readableTiles_app fs fileType imageRoi l1 l2 :
  readableTiles fs fileType imageRoi (l1 ++ l2)
  = readableTiles fs fileType imageRoi l1
    ++ readableTiles fs fileType imageRoi l2.
Proof. apply flat_map_app. Qed.

Lemma skippedTiles_app fs fileType imageRoi l1 l2 :
  skippedTiles fs fileType imageRoi (l1 ++ l2)
  = skippedTiles fs fileType imageRoi l1
    ++ skippedTiles fs fileType imageRoi l2.
Proof. apply flat_map_app. Qed.

Lemma emptyTile_dropped fs fileType imageRoi before roi after :
  ROI_isEmpty (intersect roi imageRoi) = true ->
  readableTiles fs fileType imageRoi (before ++ roi :: after)
  = readableTiles fs fileType imageRoi (before ++ after) /\
  skippedTiles fs fileType imageRoi (before ++ roi :: after)
  = skippedTiles fs fileType imageRoi (before ++ after).
Proof.
  intros Hempty.
  rewrite !readableTiles_app, !skippedTiles_app.
  unfold readableTiles at 2, skippedTiles at 2. cbn [flat_map].
  rewrite Hempty. cbn [app]. split; reflexivity.
Qed.

(** C2, amended.  In the loop that reads and adds the tiles, a tile whose
    image cannot be read is logged and skipped, and the other tiles are
    accumulated: the output is the merge of the readable tiles, with one
    warning for each skipped one.  A tile whose metadata cannot be read, or
    whose ROI entries do not pass the test of [getRoiFromMetadata] (an end
    entry absent or not positive, a negative begin entry), is not skipped:
    [readMapFromTiles] throws and no tile is accumulated.  A tile whose
    recorded ROI passes that test and does not meet the image is dropped
    without a message: the result is the one of the other tiles. *)
Theorem readMapFromTiles_skips_unreadable_images :
  (forall tileParams0 fs rc mp fileType scale step front rest tileParams rois,
     getTilePathList fs fileType [] = Ok (front :: rest) ->
     getTileParamsFromMetadata fs front tileParams0 = Ok tileParams ->
     getTileRoiList fs (front :: rest) = Ok rois ->
     let scaleStep := Z.max scale 1 * step in
     readMapFromTiles tileParams0 fs rc mp fileType scale step =
     Ok (mergeTiles rc mp tileParams scaleStep
           (readableTiles fs fileType (fullROI mp rc) rois)
           (Image_resize (divideRoundUp (getWidth mp rc) scaleStep)
                         (divideRoundUp (getHeight mp rc) scaleStep) 0),
         skippedTiles fs fileType (fullROI mp rc) rois)) /\
  (forall tileParams0 fs rc mp fileType scale step paths path,
     getTilePathList fs fileType [] = Ok paths ->
     In path paths ->
     roiMetadataRejected fs path ->
     exists e', readMapFromTiles tileParams0 fs rc mp fileType scale step
                = Throw e') /\
  (forall tileParams0 fs rc mp fileType scale step front rest tileParams
          before roi after,
     getTilePathList fs fileType [] = Ok (front :: rest) ->
     getTileParamsFromMetadata fs front tileParams0 = Ok tileParams ->
     getTileRoiList fs (front :: rest) = Ok (before ++ roi :: after) ->
     ROI_isEmpty (intersect roi (fullROI mp rc)) = true ->
     let scaleStep := Z.max scale 1 * step in
     readMapFromTiles tileParams0 fs rc mp fileType scale step =
     Ok (mergeTiles rc mp tileParams scaleStep
           (readableTiles fs fileType (fullROI mp rc) (before ++ after))
           (Image_resize (divideRoundUp (getWidth mp rc) scaleStep)
                         (divideRoundUp (getHeight mp rc) scaleStep) 0),
         skippedTiles fs fileType (fullROI mp rc) (before ++ after))).
Proof.
  assert (Hloop :
    forall tileParams0 fs rc mp fileType scale step front rest tileParams rois,
      getTilePathList fs fileType [] = Ok (front :: rest) ->
      getTileParamsFromMetadata fs front tileParams0 = Ok tileParams ->
      getTileRoiList fs (front :: rest) = Ok rois ->
      readMapFromTiles tileParams0 fs rc mp fileType scale step =
      Ok (mergeTiles rc mp tileParams (Z.max scale 1 * step)
            (readableTiles fs fileType (fullROI mp rc) rois)
            (Image_resize
               (divideRoundUp (getWidth mp rc) (Z.max scale 1 * step))
               (divideRoundUp (getHeight mp rc) (Z.max scale 1 * step)) 0),
          skippedTiles fs fileType (fullROI mp rc) rois)).
  { intros tp0 fs rc mp ft scale step front rest tp rois Hlist Htp Hrois.
    unfold readMapFromTiles. rewrite Hlist. cbn [bind].
    rewrite Htp. cbn [bind]. rewrite Hrois. cbn [bind].
    rewrite addTileStep_loop. reflexivity. }
  split; [ | split].
  - intros tp0 fs rc mp ft scale step front rest tp rois Hlist Htp Hrois s.
    apply Hloop with (front := front) (rest := rest); assumption.
  - intros tp0 fs rc mp ft scale step paths path Hlist Hin Hrejected.
    destruct (getRoiFromMetadata_rejected fs path Hrejected) as [e Hthrow].
    unfold readMapFromTiles. rewrite Hlist. cbn [bind].
    destruct paths as [|front rest]; [destruct Hin | ].
    destruct (getTileParamsFromMetadata fs front tp0) as [tp | e0];
      cbn [bind]; [ | eauto].
    destruct (getTileRoiList_throws fs (front :: rest) path e Hin Hthrow)
      as [e' He'].
    rewrite He'. cbn [bind]. eauto.
  - intros tp0 fs rc mp ft scale step front rest tp before roi after
           Hlist Htp Hrois Hempty s.
    rewrite (Hloop tp0 fs rc mp ft scale step front rest tp
                   (before ++ roi :: after) Hlist Htp Hrois).
    destruct (emptyTile_dropped fs ft (fullROI mp rc) before roi after Hempty)
      as [Hr Hs].
    rewrite Hr, Hs. reflexivity.
Qed.

Lemma readMapFromTiles_skips_unreadable_images_witness :
  readMapFromTiles tp8 folder_corrupt_pixels 0 mp64 depthMap 1 1 =
  Ok (mergeTiles 0 mp64 tp8 (Z.max 1 1 * 1)
        (readableTiles folder_corrupt_pixels depthMap (fullROI mp64 0)
           [mkROI (mkRange 0 36) (mkRange 0 36);
            mkROI (mkRange 28 64) (mkRange 0 36)])
        (Image_resize (divideRoundUp 64 (Z.max 1 1 * 1))
                      (divideRoundUp 64 (Z.max 1 1 * 1)) 0),
      skippedTiles folder_corrupt_pixels depthMap (fullROI mp64 0)
        [mkROI (mkRange 0 36) (mkRange 0 36);
         mkROI (mkRange 28 64) (mkRange 0 36)]) /\
  (exists e', readMapFromTiles tp8 folder_no_roi 0 mp64 depthMap 1 1
              = Throw e') /\
  readMapFromTiles tp8 folder_inverted_roi 0 mp64 depthMap 1 1 =
  Ok (mergeTiles 0 mp64 tp8 (Z.max 1 1 * 1)
        (readableTiles folder_inverted_roi depthMap (fullROI mp64 0)
           ([mkROI (mkRange 0 36) (mkRange 0 36)] ++ []))
        (Image_resize (divideRoundUp 64 (Z.max 1 1 * 1))
                      (divideRoundUp 64 (Z.max 1 1 * 1)) 0),
      skippedTiles folder_inverted_roi depthMap (fullROI mp64 0)
        ([mkROI (mkRange 0 36) (mkRange 0 36)] ++ [])).
Proof.
  split; [ | split].
  - apply (proj1 readMapFromTiles_skips_unreadable_images tp8
             folder_corrupt_pixels 0 mp64 depthMap 1 1
             (TileMapPath depthMap 0 0) [TileMapPath depthMap 28 0] tp8);
      reflexivity.
  - apply (proj1 (proj2 readMapFromTiles_skips_unreadable_images) tp8
             folder_no_roi 0 mp64 depthMap 1 1
             [TileMapPath depthMap 0 0; TileMapPath depthMap 28 0]
             (TileMapPath depthMap 28 0));
      [reflexivity | simpl; auto | vm_compute; auto].
  - apply (proj2 (proj2 readMapFromTiles_skips_unreadable_images) tp8
             folder_inverted_roi 0 mp64 depthMap 1 1
             (TileMapPath depthMap 0 0) [TileMapPath depthMap 40 0] tp8
             [mkROI (mkRange 0 36) (mkRange 0 36)]
             (mkROI (mkRange 40 36) (mkRange 0 36)) []);
      reflexivity.
Defined.

(** C2 as stated fails: the second tile of [folder_no_roi] has no ROI
    metadata and a readable image, the first tile is sound, and
    [readMapFromTiles] throws instead of returning the map of the first
    tile. *)
Lemma readMapFromTiles_no_roi_throws :
  In (TileMapPath depthMap 28 0,
      mkMapFile (Some no_metadata)
                (Some (crop ones (mkROI (mkRange 28 64) (mkRange 0 36)))))
     (entries folder_no_roi) /\
  getRoiFromMetadata folder_no_roi (TileMapPath depthMap 0 0) ROI_default
    = Ok (mkROI (mkRange 0 36) (mkRange 0 36)) /\
  readMapFromTiles tp8 folder_no_roi 0 mp64 depthMap 1 1
    = Throw (CannotFindROI (TileMapPath depthMap 28 0)).
Proof.
  split; [simpl; auto | split; reflexivity].
Qed.


(** ** getNbDepthValuesFromDepthMap *)

Lemma to_int32_small (z : Z) : - 2 ^ 31 <= z < 2 ^ 31 -> to_int32 z = z.
Proof.
  intros H. unfold to_int32.
  rewrite Z.mod_small by lia. lia.
Qed.

Lemma to_ulong_small (z : Z) : 0 <= z < 2 ^ 64 -> to_ulong z = z.
Proof. intros H. unfold to_ulong. apply Z.mod_small. exact H. Qed.

Lemma sumNbDepthValues_nonneg fs paths :
  (forall p, In p paths ->
     exists m n, readImageMetadata fs p = Ok m /\
                 nbDepthValues m = Some n /\ 0 <= n) ->
  0 <= sumNbDepthValues fs paths.
Proof.
  induction paths as [|p rest IH]; intros H; cbn [sumNbDepthValues]; [lia | ].
  destruct (H p (or_introl eq_refl)) as (m & n & Hm & Hn & Hpos).
  rewrite Hm. unfold get_nbDepthValues. rewrite Hn.
  assert (0 <= sumNbDepthValues fs rest)
    by (apply IH; intros q Hq; apply H; right; exact Hq).
  lia.
Qed.

(** The loop over the tiles adds every count to the running total. *)
Lemma sumTileDepthValues_total fs paths acc :
  (forall p, In p paths ->
     exists m n, readImageMetadata fs p = Ok m /\
                 nbDepthValues m = Some n /\ 0 <= n) ->
  -1 <= acc ->
  acc + sumNbDepthValues fs paths < 2 ^ 31 ->
  sumTileDepthValues fs paths acc = Ok (acc + sumNbDepthValues fs paths).
Proof.
  revert acc. induction paths as [|p rest IH]; intros acc H Hacc Hbound;
    cbn [sumTileDepthValues sumNbDepthValues] in *.
  - rewrite Z.add_0_r. reflexivity.
  - destruct (H p (or_introl eq_refl)) as (m & n & Hm & Hn & Hpos).
    assert (Hrest : 0 <= sumNbDepthValues fs rest)
      by (apply sumNbDepthValues_nonneg; intros q Hq; apply H; right; exact Hq).
    rewrite Hm in *. cbn [bind]. unfold get_nbDepthValues in *. rewrite Hn in *.
    destruct (Z.ltb_spec n 0); [lia | ].
    rewrite to_int32_small by lia.
    rewrite IH; try lia.
    + f_equal. lia.
    + intros q Hq. apply H. right. exact Hq.
Qed.

(** ** The statistics of writeDepthSimMap *)

Lemma Qgtb_spec (a b : Q) : Qgtb a b = true <-> (b < a)%Q.
Proof.
  unfold Qgtb. split; intros H.
  - apply (proj2 (Qgt_alt a b)). destruct (a ?= b)%Q; congruence.
  - apply (proj1 (Qgt_alt a b)) in H. rewrite H. reflexivity.
Qed.






(** ** The pixels of a map and its data *)

Lemma map_flat_map {A B C : Type} (g : B -> C) (f : A -> list B) (l : list A) :
  map g (flat_map f l) = flat_map (fun a => map g (f a)) l.
Proof.
  induction l as [|a l IH]; cbn [flat_map map]; [reflexivity | ].
  rewrite map_app, IH. reflexivity.
Qed.

(** The data of a map are its pixels, row after row. *)
Lemma Image_data_positions (img : Image) :
  Image_data img = map (fun p => pix img (fst p) (snd p)) (pixelPositions img).
Proof.
  unfold Image_data, pixelPositions. rewrite map_flat_map.
  apply flat_map_ext. intros y. rewrite map_map. reflexivity.
Qed.

Lemma In_pixelPositions (img : Image) (y x : Z) :
  In (y, x) (pixelPositions img) <-> inImage img y x.
Proof.
  unfold pixelPositions, inImage. rewrite in_flat_map. split.
  - intros (r & Hr & Hin). apply in_map_iff in Hin as (c & Hc & Hin).
    apply in_seq in Hr. apply in_seq in Hin.
    injection Hc as <- <-. lia.
  - intros [Hx Hy]. exists (Z.to_nat y). split; [apply in_seq; lia | ].
    apply in_map_iff. exists (Z.to_nat x).
    split; [ | apply in_seq; lia].
    rewrite !Z2Nat.id by lia. reflexivity.
Qed.

Lemma NoDup_pixelPositions (img : Image) : NoDup (pixelPositions img).
Proof.
  unfold pixelPositions.
  generalize (seq_NoDup (Z.to_nat (Height img)) 0).
  generalize (seq 0 (Z.to_nat (Height img))) as rows.
  induction rows as [|r rows IH]; intros Hrows; cbn [flat_map];
    [constructor | ].
  inversion Hrows as [|? ? Hnotin Hrest]; subst.
  apply NoDup_app.
  - apply NoDup_map_NoDup_ForallPairs; [ | apply seq_NoDup].
    intros a b _ _ Heq. injection Heq as Heq. lia.
  - apply IH. exact Hrest.
  - intros [y x] Hin Hin'.
    apply in_map_iff in Hin as (c & Hc & _).
    apply in_flat_map in Hin' as (r' & Hr' & Hin').
    apply in_map_iff in Hin' as (c' & Hc' & _).
    injection Hc as <- _. injection Hc' as Hy _.
    apply Nat2Z.inj in Hy. subst r'. contradiction.
Qed.

(** The count of [std::count_if] over the data of a map is the number of
    its pixels with a depth above 0. *)
Lemma count_valid_positivePixels (img : Image) (ps : list (Z * Z)) :
  positivePixels img ps ->
  count_valid (Image_data img) = Z.of_nat (length ps).
Proof.
  intros [Hnodup Hin].
  unfold count_valid. rewrite Image_data_positions, filter_map_swap.
  rewrite length_map. f_equal.
  apply Permutation_length. apply NoDup_Permutation.
  - apply NoDup_filter. apply NoDup_pixelPositions.
  - exact Hnodup.
  - intros [y x]. rewrite filter_In, In_pixelPositions, Hin.
    cbn [fst snd]. rewrite Qgtb_spec. reflexivity.
Qed.


(** ** getNbDepthValuesFromDepthMap on a tiled depth map *)

(** C9, amended.  For a tiled depth map (no full-size file) whose tiles all
    carry a non-negative [nbDepthValues] entry, and as long as the counts
    of the tiles sum to at most 2^31 (the [int] accumulator does not
    overflow), the running total starts at -1: when a tile records a valid
    depth the result is the sum of the counts of the tiles minus one; when
    the counts sum to 0 the result is the number of pixels with a depth
    above 0 of the map merged by [readMapFromTiles] (a number below 2^31),
    and an error of [readMapFromTiles] is the error of the call. *)
Theorem getNbDepthValues_tiled_off_by_one tileParams0 fs rc mp scale step
    paths :
  exists_ fs (getFileNameFromIndex depthMap None) = false ->
  getTilePathList fs depthMap [] = Ok paths ->
  (forall p, In p paths ->
     exists m n, readImageMetadata fs p = Ok m /\
                 nbDepthValues m = Some n /\ 0 <= n) ->
  sumNbDepthValues fs paths <= 2 ^ 31 ->
  (1 <= sumNbDepthValues fs paths ->
   getNbDepthValuesFromDepthMap tileParams0 fs rc mp scale step
   = Ok (sumNbDepthValues fs paths - 1)) /\
  (sumNbDepthValues fs paths = 0 ->
   (forall merged log ps,
      readMapFromTiles tileParams0 fs rc mp depthMap scale step
      = Ok (merged, log) ->
      positivePixels merged ps ->
      Z.of_nat (length ps) < 2 ^ 31 ->
      getNbDepthValuesFromDepthMap tileParams0 fs rc mp scale step
      = Ok (Z.of_nat (length ps))) /\
   (forall e,
      readMapFromTiles tileParams0 fs rc mp depthMap scale step = Throw e ->
      getNbDepthValuesFromDepthMap tileParams0 fs rc mp scale step
      = Throw e)).
Proof.
  intros Hfull Hlist Hmeta Hbound.
  pose proof (sumNbDepthValues_nonneg fs paths Hmeta) as Hpos.
  unfold getNbDepthValuesFromDepthMap.
  rewrite Hfull, Hlist. cbn [bind].
  rewrite (sumTileDepthValues_total fs paths (-1) Hmeta) by lia.
  cbn [bind]. split.
  - intros Hge.
    destruct (Z.ltb_spec (-1 + sumNbDepthValues fs paths) 0); [lia | ].
    rewrite to_ulong_small by lia. f_equal. lia.
  - intros Hzero. rewrite Hzero. cbn [Z.add Z.ltb Z.compare].
    unfold readDepthMap. rewrite Hfull. split.
    + intros merged log ps Hread Hps Hlen. rewrite Hread. cbn [bind fst].
      rewrite (count_valid_positivePixels merged ps Hps).
      rewrite to_int32_small by lia. rewrite to_ulong_small by lia.
      reflexivity.
    + intros e Hread. rewrite Hread. reflexivity.
Qed.

Lemma getNbDepthValues_tiled_off_by_one_witness :
  getNbDepthValuesFromDepthMap tp8 folder_two_tiles 0 mp64 1 1 = Ok 11 /\
  getNbDepthValuesFromDepthMap tp8 folder_zero_count 0 mp2 1 1
  = Ok (Z.of_nat (length [(0, 0); (0, 1); (1, 0); (1, 1)])).
Proof.
  split.
  - refine (proj1 (getNbDepthValues_tiled_off_by_one tp8 folder_two_tiles
                     0 mp64 1 1
                     [TileMapPath depthMap 0 0; TileMapPath depthMap 28 0]
                     _ _ _ _) _).
    + reflexivity.
    + reflexivity.
    + intros p [<- | [<- | []]].
      * exists (tile_metadata 0 0 36 36 5), 5. repeat split. discriminate.
      * exists (tile_metadata 28 0 64 36 7), 7. repeat split. discriminate.
    + vm_compute. discriminate.
    + vm_compute. discriminate.
  - refine (proj1 (proj2 (getNbDepthValues_tiled_off_by_one tp8
                            folder_zero_count 0 mp2 1 1
                            [TileMapPath depthMap 0 0] _ _ _ _) _)
              (mergeTiles 0 mp2 (mkTileParams 40 40 8) (Z.max 1 1 * 1)
                 [(mkROI (mkRange 0 2) (mkRange 0 2), depth2x2)]
                 (Image_resize 2 2 0))
              [] [(0, 0); (0, 1); (1, 0); (1, 1)] _ _ _).
    + reflexivity.
    + reflexivity.
    + intros p [<- | []].
      exists (tile_metadata 0 0 2 2 0), 0. repeat split. discriminate.
    + vm_compute. discriminate.
    + reflexivity.
    + reflexivity.
    + split.
      * repeat constructor; simpl; intuition congruence.
      * intros y x. unfold inImage. split.
        -- intros [H | [H | [H | [H | []]]]]; injection H as <- <-;
             (split; [vm_compute; intuition congruence | reflexivity]).
        -- intros [[Hx Hy] _].
           match type of Hx with
           | _ <= _ < Width ?m =>
               change (Width m) with 2 in Hx; change (Height m) with 2 in Hy
           end.
           assert (Hxx : x = 0 \/ x = 1) by lia.
           assert (Hyy : y = 0 \/ y = 1) by lia.
           destruct Hxx, Hyy; subst; simpl; auto.
    + vm_compute. reflexivity.
Defined.

(** C9 as stated fails when the counts do not fit: two tiles that record
    2147483647 and 2 valid depths carry non-negative entries, the [int]
    total wraps around to a negative number, and the result is the recount
    over the merged map, 0, instead of the sum minus one. *)
Lemma getNbDepthValues_large_counts_wrap :
  exists_ folder_large_counts (getFileNameFromIndex depthMap None) = false /\
  getTilePathList folder_large_counts depthMap []
  = Ok [TileMapPath depthMap 0 0; TileMapPath depthMap 28 0] /\
  readImageMetadata folder_large_counts (TileMapPath depthMap 0 0)
  = Ok (tile_metadata 0 0 36 36 2147483647) /\
  readImageMetadata folder_large_counts (TileMapPath depthMap 28 0)
  = Ok (tile_metadata 28 0 64 36 2) /\
  sumNbDepthValues folder_large_counts
    [TileMapPath depthMap 0 0; TileMapPath depthMap 28 0] - 1 = 2147483648 /\
  getNbDepthValuesFromDepthMap tp8 folder_large_counts 0 mp64 1 1 = Ok 0.
Proof.
  repeat split; vm_compute; reflexivity.
Qed.

(** ** computeNormalMap_kernel *)

Lemma for_range_In_keep {A : Type} (e : A) (lo hi : Z)
    (body : Z -> list A -> list A) (s : list A) :
  (forall i t, In e t -> In e (body i t)) ->
  In e s -> In e (for_range lo hi body s).
Proof.
  intros Hmono Hin.
  destruct (Z_lt_le_dec hi lo) as [Hlt | Hle].
  - rewrite for_range_empty by lia. exact Hin.
  - apply (for_range_ind (fun _ t => In e t)); auto.
Qed.

Lemma for_range_In_add {A : Type} (e : A) (lo hi : Z)
    (body : Z -> list A -> list A) (i0 : Z) (s : list A) :
  (forall i t, In e t -> In e (body i t)) ->
  lo <= i0 < hi ->
  (forall t, In e (body i0 t)) ->
  In e (for_range lo hi body s).
Proof.
  intros Hmono Hi0 Hadd.
  assert (H : i0 < hi -> In e (for_range lo hi body s)); [ | apply H; lia].
  apply (for_range_ind (fun h t => i0 < h -> In e t)); [lia | | lia].
  intros i t Hi IH Hlt.
  destruct (Z.eq_dec i0 i) as [-> | Hne].
  - apply Hadd.
  - apply Hmono, IH. lia.
Qed.

Section NormalMapKernel.

Variable ops : DeviceOps.
Variable cam : DeviceCameraParams.
Variable depthMap_d : Z -> Z -> Q.

Lemma windowStep_keeps x y depth pixSize yp xp e s3d :
  In e s3d -> In e (windowStep ops cam depthMap_d x y depth pixSize yp xp s3d).
Proof.
  intros H. unfold windowStep.
  destruct (Qltb 0 depth && Qltb _ _); [apply in_or_app; left | ]; exact H.
Qed.

Lemma Qltb_spec (a b : Q) : Qltb a b = true <-> (a < b)%Q.
Proof.
  unfold Qltb. rewrite Qlt_alt.
  destruct (a ?= b)%Q; split; intros H; congruence.
Qed.

(** A pixel without a valid depth gets the sentinel normal. *)
Lemma invalid_depth_sentinel width height wsh x y :
  x < width -> y < height -> (depthMap_d x y <= 0)%Q ->
  computeNormalMap_kernel ops cam depthMap_d width height wsh x y
  = Some (make_float3 (-1) (-1) (-1)).
Proof.
  intros Hx Hy Hd. unfold computeNormalMap_kernel.
  destruct (Z.leb_spec width x), (Z.leb_spec height y); try lia.
  cbn [orb]. apply Qle_bool_iff in Hd. rewrite Hd. reflexivity.
Qed.

(** C4, the plane-fitting window.  The test of the window loop is on the
    depth of the centre pixel, which is positive there, and not on the depth
    of the neighbour: a neighbour of the window whose depth is 0 or less is
    given to the plane fit as soon as its depth is closer to the depth of
    the centre than 30 pixel sizes. *)
Theorem invalid_neighbour_in_plane_fit wsh x y xp yp :
  let depth := depthMap_d x y in
  let depthn := depthMap_d (x + xp) (y + yp) in
  (0 < depth)%Q -> (depthn <= 0)%Q ->
  - wsh <= xp <= wsh -> - wsh <= yp <= wsh ->
  (Qabs (depthn - depth) < 30 * pixSizeAt ops cam x y depth)%Q ->
  In (get3DPointForPixelAndDepthFromRC ops cam
        (inject_Z (x + xp), inject_Z (y + yp)) depthn, 1%Q)
     (windowSamples ops cam depthMap_d wsh x y).
Proof.
  intros depth depthn Hpos Hinvalid Hxp Hyp Hclose.
  unfold windowSamples. fold depth.
  apply (for_range_In_add _ (- wsh) (wsh + 1) _ yp); [ | lia | ].
  - intros i t Hin. apply for_range_In_keep; [ | exact Hin].
    intros j u. apply windowStep_keeps.
  - intros t.
    apply (for_range_In_add _ (- wsh) (wsh + 1) _ xp); [ | lia | ].
    + intros j u. apply windowStep_keeps.
    + intros u. unfold windowStep. fold depthn.
      rewrite (proj2 (Qltb_spec 0 depth) Hpos).
      rewrite (proj2 (Qltb_spec _ _) Hclose). cbn [andb].
      apply in_or_app. right. left. reflexivity.
Qed.

End NormalMapKernel.

Lemma invalid_neighbour_in_plane_fit_witness :
  In (get3DPointForPixelAndDepthFromRC example_ops example_camera
        (inject_Z (0 + 1), inject_Z (0 + 0)) (example_depthMap (0 + 1) (0 + 0)),
      1%Q)
     (windowSamples example_ops example_camera example_depthMap 4 0 0).
Proof.
  apply (invalid_neighbour_in_plane_fit example_ops example_camera
           example_depthMap 4 0 0 1 0).
  - vm_compute. reflexivity.
  - vm_compute. discriminate.
  - lia.
  - lia.
  - vm_compute. reflexivity.
Defined.

(** ** Best and second best similarity volumes *)

Lemma updateBestSim_ordered (cell : Z * Z) (sim : option Z) :
  fst cell <= snd cell ->
  fst (updateBestSim cell sim) <= snd (updateBestSim cell sim).
Proof.
  intros H. unfold updateBestSim.
  destruct sim as [c | ]; [ | exact H].
  destruct (Z.ltb_spec c (fst cell)); cbn [fst snd]; [lia | ].
  destruct (Z.ltb_spec c (snd cell)); cbn [fst snd]; lia.
Qed.

Lemma bestSim_fold_ordered (tcSims : list (Z * Z * Z -> option Z))
    (cell : Z * Z * Z) (acc : Z * Z) :
  fst acc <= snd acc ->
  let r := fold_left (fun a tcSim => updateBestSim a (tcSim cell)) tcSims acc in
  fst r <= snd r.
Proof.
  revert acc. induction tcSims as [|tc rest IH]; intros acc H; cbn [fold_left].
  - exact H.
  - apply IH. apply updateBestSim_ordered. exact H.
Qed.

(** C5.  After the costs of all the neighbour cameras, the best volume is
    at most the second best volume at every cell for which a neighbour
    defines a cost. *)
Theorem best_le_second_best (tcSims : list (Z * Z * Z -> option Z))
    (cell : Z * Z * Z) :
  (exists tcSim c, In tcSim tcSims /\ tcSim cell = Some c) ->
  volumeBestSim tcSims cell <= volumeSecBestSim tcSims cell.
Proof.
  intros _. unfold volumeBestSim, volumeSecBestSim, computeSimilarityVolumes.
  apply bestSim_fold_ordered. cbn [fst snd]. lia.
Qed.

Lemma best_le_second_best_witness :
  volumeBestSim [fun _ => Some 90; fun _ => None; fun _ => Some 40] (1, 2, 3)
  <= volumeSecBestSim [fun _ => Some 90; fun _ => None; fun _ => Some 40]
                      (1, 2, 3).
Proof.
  apply (best_le_second_best
           [fun _ => Some 90; fun _ => None; fun _ => Some 40] (1, 2, 3)).
  exists (fun _ => Some 90), 90. split; [left; reflexivity | reflexivity].
Defined.

(** ** The refinement loop *)

Section RefineLoop.

Context {M2 M1 : Type} (k : Kernels M2 M1) (sgm refine : M2) (roi : ROI).

Lemma refine_loop_stream (n : nat) (lo : nat) (s : list Launch) :
  fold_left
    (fun acc k =>
       (acc ++ [optimize_getOptDeptMapFromOptDepthSimMap_kernel roi])
       ++ [optimize_depthSimMap_kernel (0 + Z.of_nat k) roi])
    (seq lo n) s
  = s ++ flat_map
           (fun i => [optimize_getOptDeptMapFromOptDepthSimMap_kernel roi;
                      optimize_depthSimMap_kernel (Z.of_nat i) roi])
           (seq lo n).
Proof.
  revert lo s. induction n as [|n IH]; intros lo s; cbn [seq fold_left flat_map].
  - rewrite app_nil_r. reflexivity.
  - rewrite IH, <- !app_assoc. reflexivity.
Qed.

Lemma refine_loop_count (l : list nat) :
  length (filter is_depthSimMap_launch
            (flat_map
               (fun i => [optimize_getOptDeptMapFromOptDepthSimMap_kernel roi;
                          optimize_depthSimMap_kernel (Z.of_nat i) roi]) l))
  = length l.
Proof.
  induction l as [|i l IH]; cbn [flat_map app filter is_depthSimMap_launch length].
  - reflexivity.
  - rewrite IH. reflexivity.
Qed.

Lemma refine_loop_run (l : list nat) (st : DeviceState M2 M1) :
  runStream k sgm refine
    (flat_map
       (fun i => [optimize_getOptDeptMapFromOptDepthSimMap_kernel roi;
                  optimize_depthSimMap_kernel (Z.of_nat i) roi]) l) st
  = fold_left (refineIteration k sgm refine roi) l st.
Proof.
  unfold runStream. revert st.
  induction l as [|i l IH]; intros st; cbn [flat_map app fold_left].
  - reflexivity.
  - rewrite IH. reflexivity.
Qed.

(** C7.  The host function first copies the SGM depth/pixSize map into the
    output map (and computes the image variance), then runs exactly
    [optimizationNbIterations] iterations; iteration [iter] launches the copy
    of the optimized depths into the temporary map and then the adjustment
    kernel on the variance, the temporary depths, the SGM and refine maps
    and [iter]. *)
Theorem refine_runs_nbIterations (refineParams : RefineParams)
    (st : DeviceState M2 M1) :
  0 <= optimizationNbIterations refineParams ->
  let n := Z.to_nat (optimizationNbIterations refineParams) in
  let stream := cuda_depthSimMapOptimizeGradientDescent refineParams roi [] in
  stream =
    [copyFrom_sgmDepthPixSizeMap;
     optimize_varLofLABtoW_kernel (stepXY refineParams) roi]
    ++ flat_map
         (fun i => [optimize_getOptDeptMapFromOptDepthSimMap_kernel roi;
                    optimize_depthSimMap_kernel (Z.of_nat i) roi])
         (seq 0 n) /\
  Z.of_nat (length (filter is_depthSimMap_launch stream))
    = optimizationNbIterations refineParams /\
  runStream k sgm refine stream st =
    fold_left (refineIteration k sgm refine roi) (seq 0 n)
      (mkDeviceState sgm
         (varLofLABtoW k (stepXY refineParams) roi (inout_imgVariance_dmp st))
         (inout_tmpOptDepthMap_dmp st)).
Proof.
  intros Hn n stream.
  assert (Hstream : stream =
            [copyFrom_sgmDepthPixSizeMap;
             optimize_varLofLABtoW_kernel (stepXY refineParams) roi]
            ++ flat_map
                 (fun i => [optimize_getOptDeptMapFromOptDepthSimMap_kernel roi;
                            optimize_depthSimMap_kernel (Z.of_nat i) roi])
                 (seq 0 n)).
  { subst stream. unfold cuda_depthSimMapOptimizeGradientDescent, for_range.
    rewrite Z.sub_0_r. fold n. cbn [app].
    apply (refine_loop_stream n 0%nat). }
  split; [exact Hstream | ]. rewrite Hstream. split.
  - cbn [app filter is_depthSimMap_launch].
    rewrite refine_loop_count, length_seq. subst n. lia.
  - unfold runStream. cbn [app fold_left execLaunch].
    apply (refine_loop_run (seq 0 n)).
Qed.

End RefineLoop.

Lemma refine_runs_nbIterations_witness :
  Z.of_nat (length (filter is_depthSimMap_launch
                      (cuda_depthSimMapOptimizeGradientDescent
                         RefineParams_default example_roi [])))
  = 100.
Proof.
  apply (refine_runs_nbIterations example_kernels 0 0 example_roi
           RefineParams_default (mkDeviceState 0 0 0)).
  vm_compute. discriminate.
Defined.

(** * Further properties of the merge *)

(** ** The ramps *)

Lemma clamp_range (v : Q) : (0 <= clamp v 0 1 <= 1)%Q.
Proof.
  unfold clamp. split.
  - apply Q.le_max_l.
  - apply Q.max_lub; [lra | apply Q.le_min_r].
Qed.

Lemma clamp_monotone (u v : Q) : (u <= v)%Q -> (clamp u 0 1 <= clamp v 0 1)%Q.
Proof.
  intros H. unfold clamp.
  apply Q.max_le_compat_l. apply Q.min_le_compat_r. exact H.
Qed.

Lemma inject_Z_le (a b : Z) : a <= b -> (inject_Z a <= inject_Z b)%Q.
Proof. intros H. rewrite <- Zle_Qle. exact H. Qed.

Lemma margin_divisor_pos (n : Z) : 4 < n -> (0 < inject_Z n - 2 * margin)%Q.
Proof.
  intros H. unfold margin.
  assert (H5 : (inject_Z 5 <= inject_Z n)%Q) by (apply inject_Z_le; lia).
  change (inject_Z 5) with 5%Q in H5. lra.
Qed.

Lemma margin_divisor_neg (n : Z) : n < 4 -> (inject_Z n - 2 * margin < 0)%Q.
Proof.
  intros H. unfold margin.
  assert (H3 : (inject_Z n <= inject_Z 3)%Q) by (apply inject_Z_le; lia).
  change (inject_Z 3) with 3%Q in H3. lra.
Qed.

Lemma Qdiv_nonpos (a d : Q) : (0 < d)%Q -> (a <= 0)%Q -> (a / d <= 0)%Q.
Proof. intros Hd Ha. apply Qle_shift_div_r; [exact Hd | lra]. Qed.

Lemma Qdiv_ge_one (a d : Q) : (0 < d)%Q -> (d <= a)%Q -> (1 <= a / d)%Q.
Proof. intros Hd Ha. apply Qle_shift_div_l; [exact Hd | lra]. Qed.

Lemma ramp_l_low (n lx x : Z) :
  4 < n -> x <= lx + 2 -> (ramp_l n lx x == 0)%Q.
Proof.
  intros Hn Hx. unfold ramp_l. apply clamp_low.
  apply Qdiv_nonpos; [apply margin_divisor_pos; exact Hn | ].
  pose proof (inject_Z_le x (lx + 2) Hx) as H.
  rewrite inject_Z_plus in H. change (inject_Z 2) with 2%Q in H.
  unfold margin. lra.
Qed.

Lemma ramp_l_high (n lx x : Z) :
  4 < n -> lx + n - 2 <= x -> (ramp_l n lx x == 1)%Q.
Proof.
  intros Hn Hx. unfold ramp_l. apply clamp_high.
  apply Qdiv_ge_one; [apply margin_divisor_pos; exact Hn | ].
  pose proof (inject_Z_le (lx + n - 2) x Hx) as H.
  unfold Z.sub in H. rewrite !inject_Z_plus in H.
  change (inject_Z (- (2))) with (-2)%Q in H.
  unfold margin. lra.
Qed.

Lemma ramp_r_low (n lx x : Z) :
  4 < n -> x <= lx + 2 -> (ramp_r n lx x == 1)%Q.
Proof.
  intros Hn Hx.
  pose proof (ramp_r_l n lx x ltac:(lia)) as Hs.
  pose proof (ramp_l_low n lx x Hn Hx) as Hl. lra.
Qed.

Lemma ramp_r_high (n lx x : Z) :
  4 < n -> lx + n - 2 <= x -> (ramp_r n lx x == 0)%Q.
Proof.
  intros Hn Hx.
  pose proof (ramp_r_l n lx x ltac:(lia)) as Hs.
  pose proof (ramp_l_high n lx x Hn Hx) as Hl. lra.
Qed.

(** X1.  Within the margin of 2 pixels around a corner of the weighted
    area, the weight is the alpha of that corner: [a] at the top left, [b]
    at the top right, [c] at the bottom right and [d] at the bottom left
    (for an area more than 4 pixels wide and high). *)
Theorem borderWeight_corner_margin (a b c d bw bh lx ly x y : Z) :
  4 < bw -> 4 < bh ->
  (x <= lx + 2 -> y <= ly + 2 ->
     (borderWeight a b c d bw bh (pt lx ly) x y == inject_Z a)%Q) /\
  (lx + bw - 2 <= x -> y <= ly + 2 ->
     (borderWeight a b c d bw bh (pt lx ly) x y == inject_Z b)%Q) /\
  (lx + bw - 2 <= x -> ly + bh - 2 <= y ->
     (borderWeight a b c d bw bh (pt lx ly) x y == inject_Z c)%Q) /\
  (x <= lx + 2 -> ly + bh - 2 <= y ->
     (borderWeight a b c d bw bh (pt lx ly) x y == inject_Z d)%Q).
Proof.
  intros Hw Hh. rewrite borderWeight_ramps.
  repeat split; intros Hx Hy.
  - rewrite (ramp_r_low bw lx x), (ramp_l_low bw lx x),
      (ramp_r_low bh ly y), (ramp_l_low bh ly y) by assumption. ring.
  - rewrite (ramp_r_high bw lx x), (ramp_l_high bw lx x),
      (ramp_r_low bh ly y), (ramp_l_low bh ly y) by assumption. ring.
  - rewrite (ramp_r_high bw lx x), (ramp_l_high bw lx x),
      (ramp_r_high bh ly y), (ramp_l_high bh ly y) by assumption. ring.
  - rewrite (ramp_r_low bw lx x), (ramp_l_low bw lx x),
      (ramp_r_high bh ly y), (ramp_l_high bh ly y) by assumption. ring.
Qed.

Lemma borderWeight_corner_margin_witness :
  (borderWeight 1 0 0 0 8 8 (pt 28 28) 30 29 == inject_Z 1)%Q.
Proof.
  refine (proj1 (borderWeight_corner_margin 1 0 0 0 8 8 28 28 30 29 _ _) _ _);
    lia.
Defined.

Lemma ramp_l_monotone (n lx x x' : Z) :
  4 < n -> x <= x' -> (ramp_l n lx x <= ramp_l n lx x')%Q.
Proof.
  intros Hn Hx. unfold ramp_l. apply clamp_monotone.
  pose proof (margin_divisor_pos n Hn) as Hd.
  pose proof (inject_Z_le x x' Hx) as H.
  unfold Qdiv. apply Qmult_le_compat_r; [lra | ].
  apply Qlt_le_weak, Qinv_lt_0_compat. exact Hd.
Qed.

Lemma ramp_l_antitone (n lx x x' : Z) :
  n < 4 -> x <= x' -> (ramp_l n lx x' <= ramp_l n lx x)%Q.
Proof.
  intros Hn Hx. unfold ramp_l. apply clamp_monotone.
  pose proof (margin_divisor_neg n Hn) as Hd.
  pose proof (inject_Z_le x x' Hx) as H.
  set (dv := (inject_Z n - 2 * margin)%Q) in *.
  assert (Hinv : (0 < / - dv)%Q) by (apply Qinv_lt_0_compat; lra).
  assert (Hnz : ~ (dv == 0)%Q) by lra.
  assert (Hneg : (/ dv == - / - dv)%Q) by (field; exact Hnz).
  unfold Qdiv. rewrite Hneg. nra.
Qed.

(** X2.  The weight of the left border of a tile (alphas 0, 1, 1, 0) does
    not depend on the row and follows the column: it does not decrease
    from left to right when the band is more than 4 pixels wide, and it
    does not increase - the ramp is reversed - when the band is less than
    4 pixels wide. *)
Theorem left_border_ramp_direction (bw bh lx ly x x' y y' : Z) :
  bh <> 4 -> x <= x' ->
  (4 < bw ->
     (borderWeight 0 1 1 0 bw bh (pt lx ly) x y
      <= borderWeight 0 1 1 0 bw bh (pt lx ly) x' y')%Q) /\
  (bw < 4 ->
     (borderWeight 0 1 1 0 bw bh (pt lx ly) x' y'
      <= borderWeight 0 1 1 0 bw bh (pt lx ly) x y)%Q).
Proof.
  intros Hh Hx.
  assert (Hw : forall u v,
             (borderWeight 0 1 1 0 bw bh (pt lx ly) u v == ramp_l bw lx u)%Q).
  { intros u v. rewrite borderWeight_ramps.
    change (inject_Z 0) with 0%Q. change (inject_Z 1) with 1%Q.
    pose proof (ramp_r_l bh ly v Hh) as Hs.
    assert (Hr : (ramp_r bh ly v == 1 - ramp_l bh ly v)%Q) by lra.
    rewrite Hr. ring. }
  split; intros Hbw; rewrite !Hw.
  - apply ramp_l_monotone; assumption.
  - apply ramp_l_antitone; assumption.
Qed.

Lemma left_border_ramp_direction_witness :
  (borderWeight 0 1 1 0 2 20 (pt 0 2) 1 5
   <= borderWeight 0 1 1 0 2 20 (pt 0 2) 0 9)%Q.
Proof.
  refine (proj2 (left_border_ramp_direction 2 20 0 2 0 1 9 5 _ _) _); lia.
Defined.

(** ** One tile *)

Lemma sideWeight_range (first last : bool) (size p t : Z) :
  (0 <= sideWeight first last size p t <= 1)%Q.
Proof.
  unfold sideWeight.
  destruct (t <? p); [destruct first | destruct (size - p <=? t);
                                       [destruct last | ]];
    try (split; lra); unfold ramp_l, ramp_r; apply clamp_range.
Qed.

Lemma weight_product_bound (sx sy v : Q) :
  (0 <= sx <= 1)%Q -> (0 <= sy <= 1)%Q -> (0 <= v)%Q ->
  (0 <= v * (sx * sy))%Q /\ (v * (sx * sy) <= v)%Q.
Proof.
  intros [H1 H2] [H3 H4] Hv.
  assert (Hm0 : (0 <= sx * sy)%Q) by (apply Qmult_le_0_compat; assumption).
  assert (Hm1 : (sx * sy <= 1)%Q).
  { assert (sx * sy <= 1 * sy)%Q by (apply Qmult_le_compat_r; assumption).
    lra. }
  split.
  - apply Qmult_le_0_compat; assumption.
  - assert (v * (sx * sy) <= v * 1)%Q.
    { rewrite (Qmult_comm v (sx * sy)), (Qmult_comm v 1).
      apply Qmult_le_compat_r; assumption. }
    lra.
Qed.

(** X3.  Weighting never amplifies a tile: a non-negative pixel of the tile
    map stays between 0 and its value. *)
Theorem weighting_never_amplifies rc mp tp roi s tile out tx ty :
  let d := downscaleROI roi s in
  let w := ROI_width d in
  let h := ROI_height d in
  let p := padding tp ÷ s in
  let weighted := fst (addTileMapWeighted rc mp tp roi s tile out) in
  Width tile = w -> Height tile = h ->
  0 <= p -> 2 * p <= w -> 2 * p <= h ->
  p <> 4 -> w - 2 * p <> 4 -> h - 2 * p <> 4 ->
  0 <= tx < w -> 0 <= ty < h ->
  (0 <= pix tile ty tx)%Q ->
  (0 <= pix weighted ty tx)%Q /\ (pix weighted ty tx <= pix tile ty tx)%Q.
Proof.
  intros d w h p weighted HW HH Hp Hpw Hph Hp4 Hw4 Hh4 Htx Hty Hpos.
  subst weighted. unfold addTileMapWeighted. cbn [fst].
  rewrite weightTileBorders_pixel by assumption.
  pose proof (sideWeight_range (r_begin (roi_x roi) =? 0)
                (r_end (roi_x roi) =? getWidth mp rc) w p tx) as Hx.
  pose proof (sideWeight_range (r_begin (roi_y roi) =? 0)
                (r_end (roi_y roi) =? getHeight mp rc) h p ty) as Hy.
  exact (weight_product_bound _ _ _ Hx Hy Hpos).
Qed.

Lemma weighting_never_amplifies_witness :
  (0 <= pix (fst (addTileMapWeighted 0 mp64 tp8 roi_left_second_row 1
                    (crop ones roi_left_second_row) (Image_resize 64 64 0)))
            3 30)%Q /\
  (pix (fst (addTileMapWeighted 0 mp64 tp8 roi_left_second_row 1
               (crop ones roi_left_second_row) (Image_resize 64 64 0))) 3 30
   <= pix (crop ones roi_left_second_row) 3 30)%Q.
Proof.
  apply (weighting_never_amplifies 0 mp64 tp8 roi_left_second_row 1
           (crop ones roi_left_second_row) (Image_resize 64 64 0) 30 3);
    try reflexivity; try (vm_compute; discriminate);
    vm_compute; split; discriminate || reflexivity.
Defined.

(** X4.  The interior of a tile, at least the padding away from its four
    sides, is never weighted: [addTileMapWeighted] leaves those pixels of
    the tile map as they are, whatever the position of the tile and the
    size of the tile map. *)
Theorem tile_interior_untouched rc mp tp roi s tile out tx ty :
  let d := downscaleROI roi s in
  let p := padding tp ÷ s in
  0 <= p ->
  p <= tx < ROI_width d - p -> p <= ty < ROI_height d - p ->
  pix (fst (addTileMapWeighted rc mp tp roi s tile out)) ty tx
  = pix tile ty tx.
Proof.
  intros d p Hp Htx Hty. unfold addTileMapWeighted. cbn [fst]. fold d p.
  generalize (r_begin (roi_x roi) =? 0) (r_end (roi_x roi) =? getWidth mp rc)
             (r_begin (roi_y roi) =? 0) (r_end (roi_y roi) =? getHeight mp rc).
  intros fc lc fr lr.
  set (w := ROI_width d) in *. set (h := ROI_height d) in *.
  name_blocks tile.
  pose proof (H1 ty tx) as P1. pose proof (H2 ty tx) as P2.
  pose proof (H3 ty tx) as P3. pose proof (H4 ty tx) as P4.
  pose proof (H5 ty tx) as P5. pose proof (H6 ty tx) as P6.
  pose proof (H7 ty tx) as P7. pose proof (H8 ty tx) as P8.
  clear H1 H2 H3 H4 H5 H6 H7 H8.
  rect_cases_in_hyps.
  rewrite andb_false_r in *. congruence.
Qed.

Lemma tile_interior_untouched_witness :
  pix (fst (addTileMapWeighted 0 mp64 tp8 roi_left_second_row 1
              (crop ones roi_left_second_row) (Image_resize 64 64 0))) 8 27
  = pix (crop ones roi_left_second_row) 8 27.
Proof.
  apply (tile_interior_untouched 0 mp64 tp8 roi_left_second_row 1
           (crop ones roi_left_second_row) (Image_resize 64 64 0) 27 8);
    vm_compute; try discriminate; split; discriminate || reflexivity.
Defined.

(** X5.  [addTileMapWeighted] keeps the dimensions of the output map and
    changes none of its pixels outside the downscaled ROI of the tile. *)
Theorem addTileMapWeighted_frame rc mp tp roi s tile out :
  let d := downscaleROI roi s in
  let out' := snd (addTileMapWeighted rc mp tp roi s tile out) in
  Width out' = Width out /\ Height out' = Height out /\
  forall y x,
    ~ (r_begin (roi_x d) <= x < r_end (roi_x d) /\
       r_begin (roi_y d) <= y < r_end (roi_y d)) ->
    pix out' y x = pix out y x.
Proof.
  intros d out'. subst out'.
  destruct (addTileMapWeighted_dims rc mp tp roi s tile out) as (Hw & Hh).
  split; [exact Hw | split; [exact Hh | ]].
  intros y x Hout. unfold addTileMapWeighted. cbn [snd]. fold d.
  match goal with
  | |- pix (accumulateTile d ?t out) y x = _ =>
      destruct (accumulateTile_spec d t out) as (_ & _ & Hp)
  end.
  rewrite Hp. unfold in_rect.
  destruct (Z.leb_spec (r_begin (roi_x d)) x),
    (Z.ltb_spec x (r_end (roi_x d))),
    (Z.leb_spec (r_begin (roi_y d)) y),
    (Z.ltb_spec y (r_end (roi_y d))); cbn [andb]; try reflexivity.
  exfalso. apply Hout. lia.
Qed.

Lemma addTileMapWeighted_frame_witness :
  pix (snd (addTileMapWeighted 0 mp64 tp8 roi_left_second_row 1
              (crop ones roi_left_second_row) (Image_resize 64 64 0))) 5 40
  = pix (Image_resize 64 64 0) 5 40.
Proof.
  apply (addTileMapWeighted_frame 0 mp64 tp8 roi_left_second_row 1
           (crop ones roi_left_second_row) (Image_resize 64 64 0)).
  vm_compute. intros [[_ H] _]. discriminate.
Defined.

(** ** readMapFromTiles *)

(** X6.  Whenever [readMapFromTiles] returns, its map has the dimensions of
    the downscaled image, whatever the tiles it found, read or skipped. *)
Theorem readMapFromTiles_dims tileParams0 fs rc mp fileType scale step out log :
  readMapFromTiles tileParams0 fs rc mp fileType scale step = Ok (out, log) ->
  Width out = divideRoundUp (getWidth mp rc) (Z.max scale 1 * step) /\
  Height out = divideRoundUp (getHeight mp rc) (Z.max scale 1 * step).
Proof.
  unfold readMapFromTiles.
  destruct (getTilePathList fs fileType []) as [paths | e]; cbn [bind];
    [ | discriminate].
  destruct paths as [|front rest].
  - intros H. injection H as <- _. split; reflexivity.
  - destruct (getTileParamsFromMetadata fs front tileParams0) as [tp | e];
      cbn [bind]; [ | discriminate].
    destruct (getTileRoiList fs (front :: rest)) as [rois | e]; cbn [bind];
      [ | discriminate].
    rewrite addTileStep_loop. intros H. injection H as <- _.
    apply mergeTiles_dims.
Qed.

Lemma readMapFromTiles_dims_witness :
  exists out log,
    readMapFromTiles tp8 folder_corrupt_pixels 0 mp64 depthMap 2 1
      = Ok (out, log) /\
    Width out = divideRoundUp 64 (Z.max 2 1 * 1) /\
    Height out = divideRoundUp 64 (Z.max 2 1 * 1).
Proof.
  destruct (readMapFromTiles tp8 folder_corrupt_pixels 0 mp64 depthMap 2 1)
    as [[out log] | e] eqn:E; [ | discriminate E].
  exists out, log. split; [reflexivity | ].
  exact (readMapFromTiles_dims tp8 folder_corrupt_pixels 0 mp64 depthMap 2 1
           out log E).
Defined.

(** * Further properties of the normal map kernel *)

Section NormalMapKernelMore.

Variable ops : DeviceOps.
Variable cam : DeviceCameraParams.
Variable depthMap_d : Z -> Z -> Q.

Lemma dot_add_l (a b n : float3) :
  (dot (float3_add a b) n == dot a n + dot b n)%Q.
Proof.
  destruct a as [[ax ay] az], b as [[bx by_] bz], n as [[nx ny] nz].
  cbn [dot float3_add]. ring.
Qed.

Lemma dot_opp_l (nx ny nz : Q) (n : float3) :
  (dot (- nx, - ny, - nz)%Q n == - dot (nx, ny, nz) n)%Q.
Proof. destruct n as [[mx my] mz]. cbn [dot]. ring. Qed.

(** X7.  When the pixel has a valid depth and the plane fit succeeds, the
    normal written by the kernel is the fitted normal or its opposite, the
    one that faces the camera: its dot product with the normalized
    direction from the point to the camera centre is not negative. *)
Theorem normal_faces_camera width height wsh x y pp nx ny nz :
  x < width -> y < height -> (0 < depthMap_d x y)%Q ->
  let p := get3DPointForPixelAndDepthFromRC_int ops cam (x, y)
             (depthMap_d x y) in
  computePlaneByPCA ops (windowSamples ops cam depthMap_d wsh x y) p
                    (make_float3 (-1) (-1) (-1)) = Some (pp, (nx, ny, nz)) ->
  exists n,
    computeNormalMap_kernel ops cam depthMap_d width height wsh x y = Some n /\
    (n = (nx, ny, nz) \/ n = (- nx, - ny, - nz)%Q) /\
    (0 <= dot n (normalize ops (float3_sub (C cam) p)))%Q.
Proof.
  intros Hx Hy Hd p Hpca. unfold computeNormalMap_kernel.
  destruct (Z.leb_spec width x), (Z.leb_spec height y); try lia.
  cbn [orb].
  destruct (Qle_bool (depthMap_d x y) 0) eqn:E.
  { apply Qle_bool_iff in E. lra. }
  fold p. rewrite Hpca.
  set (nc := normalize ops (float3_sub (C cam) p)).
  unfold orientedPointPlaneDistanceNormalizedNormal.
  destruct (Qltb (dot (float3_add pp (nx, ny, nz)) nc - dot pp nc) 0) eqn:Eo.
  - apply Qltb_spec in Eo. rewrite dot_add_l in Eo.
    exists (- nx, - ny, - nz)%Q. split; [reflexivity | split; [auto | ]].
    rewrite dot_opp_l. lra.
  - exists (nx, ny, nz). split; [reflexivity | split; [auto | ]].
    destruct (Qlt_le_dec (dot (float3_add pp (nx, ny, nz)) nc - dot pp nc) 0)
      as [Hlt | Hge].
    + apply Qltb_spec in Hlt. congruence.
    + rewrite dot_add_l in Hge. lra.
Qed.

(** X8.  Every sample given to the plane fit is the point of a pixel of the
    window around the thread pixel, at the depth of that pixel, with the
    weight 1, and the depth of that pixel differs from the depth of the
    centre by less than 30 pixel sizes. *)
Theorem plane_fit_samples_are_close wsh x y (e : float3 * Q) :
  In e (windowSamples ops cam depthMap_d wsh x y) ->
  let depth := depthMap_d x y in
  exists xp yp,
    - wsh <= xp <= wsh /\ - wsh <= yp <= wsh /\
    e = (get3DPointForPixelAndDepthFromRC ops cam
           (inject_Z (x + xp), inject_Z (y + yp))
           (depthMap_d (x + xp) (y + yp)), 1%Q) /\
    (Qabs (depthMap_d (x + xp) (y + yp) - depth)
     < 30 * pixSizeAt ops cam x y depth)%Q.
Proof.
  intros Hin depth. unfold windowSamples in Hin. fold depth in Hin.
  set (good := fun (ylim : Z) (yp xlim : Z) (e : float3 * Q) =>
         exists xp' yp',
           - wsh <= xp' <= wsh /\ - wsh <= yp' <= wsh /\
           e = (get3DPointForPixelAndDepthFromRC ops cam
                  (inject_Z (x + xp'), inject_Z (y + yp'))
                  (depthMap_d (x + xp') (y + yp')), 1%Q) /\
           (Qabs (depthMap_d (x + xp') (y + yp') - depth)
            < 30 * pixSizeAt ops cam x y depth)%Q).
  destruct (Z_lt_le_dec (wsh + 1) (- wsh)) as [Hneg | Hle].
  { rewrite for_range_empty in Hin by lia. destruct Hin. }
  revert e Hin.
  apply (for_range_ind
           (fun hi (t : list (float3 * Q)) =>
              hi <= wsh + 1 -> forall e, In e t -> good hi 0 0 e)
           (- wsh)); [intros _ e [] | | exact Hle | lia].
  intros yp t Hyp IH Hhi.
  apply (for_range_ind
           (fun hi (u : list (float3 * Q)) =>
              hi <= wsh + 1 -> forall e, In e u -> good 0 yp hi e)
           (- wsh)); [ | | exact Hle | lia].
  - intros _ e He. apply IH; [lia | exact He].
  - intros xp u Hxp IHx Hxhi e He. unfold windowStep in He.
    destruct (Qltb 0 depth && Qltb _ _) eqn:Ec.
    + apply in_app_or in He. destruct He as [He | [<- | []]].
      * apply IHx; [lia | exact He].
      * apply andb_prop in Ec. destruct Ec as [_ Ec].
        apply Qltb_spec in Ec.
        exists xp, yp. repeat split; try lia. exact Ec.
    + apply IHx; [lia | exact He].
Qed.

End NormalMapKernelMore.

Lemma normal_faces_camera_witness :
  exists n,
    computeNormalMap_kernel example_ops_plane example_camera example_depthMap
                            8 8 4 0 0 = Some n /\
    (n = (0, 0, 1)%Q \/ n = (- 0, - 0, - (1))%Q) /\
    (0 <= dot n (normalize example_ops_plane
                   (float3_sub (C example_camera)
                      (get3DPointForPixelAndDepthFromRC_int example_ops_plane
                         example_camera (0, 0)%Z (example_depthMap 0 0)))))%Q.
Proof.
  apply (normal_faces_camera example_ops_plane example_camera example_depthMap
           8 8 4 0 0
           (get3DPointForPixelAndDepthFromRC_int example_ops_plane
              example_camera (0, 0) (example_depthMap 0 0)) 0%Q 0%Q 1%Q).
  - lia.
  - lia.
  - vm_compute. reflexivity.
  - reflexivity.
Defined.

Lemma plane_fit_samples_are_close_witness :
  exists xp yp,
    - 4 <= xp <= 4 /\ - 4 <= yp <= 4 /\
    (get3DPointForPixelAndDepthFromRC example_ops example_camera
       (inject_Z (0 + 1), inject_Z (0 + 0)) (example_depthMap (0 + 1) (0 + 0)),
     1%Q)
    = (get3DPointForPixelAndDepthFromRC example_ops example_camera
         (inject_Z (0 + xp), inject_Z (0 + yp))
         (example_depthMap (0 + xp) (0 + yp)), 1%Q) /\
    (Qabs (example_depthMap (0 + xp) (0 + yp) - example_depthMap 0 0)
     < 30 * pixSizeAt example_ops example_camera 0 0 (example_depthMap 0 0))%Q.
Proof.
  apply (plane_fit_samples_are_close example_ops example_camera
           example_depthMap 4 0 0).
  vm_compute. repeat first [left; reflexivity | right].
Defined.

(** * Further properties of the refinement loop *)

Section RefineLoopMore.

Context {M2 M1 : Type} (k : Kernels M2 M1) (sgm refine : M2) (roi : ROI).

(** X9.  Without iterations ([optimizationNbIterations] zero or negative)
    the output map is the SGM depth/pixSize map as it was copied, and the
    temporary depth map is not written. *)
Theorem refine_without_iterations (refineParams : RefineParams)
    (st : DeviceState M2 M1) :
  optimizationNbIterations refineParams <= 0 ->
  let st' := runStream k sgm refine
               (cuda_depthSimMapOptimizeGradientDescent refineParams roi [])
               st in
  out_optimizeDepthSimMap_dmp st' = sgm /\
  inout_tmpOptDepthMap_dmp st' = inout_tmpOptDepthMap_dmp st.
Proof.
  intros Hn st'. subst st'.
  unfold cuda_depthSimMapOptimizeGradientDescent.
  rewrite for_range_empty by lia. split; reflexivity.
Qed.

Lemma refine_loop_append (refineParams : RefineParams) (stream : list Launch) :
  cuda_depthSimMapOptimizeGradientDescent refineParams roi stream
  = stream ++ cuda_depthSimMapOptimizeGradientDescent refineParams roi [].
Proof.
  unfold cuda_depthSimMapOptimizeGradientDescent, for_range.
  rewrite !(refine_loop_stream roi). cbn [app].
  rewrite <- !app_assoc. reflexivity.
Qed.

(** X10.  The launches go to the end of the stream, behind the ones that
    are already there: running the stream after the call is running what
    was enqueued before and then the refinement on the state it leaves. *)
Theorem refine_runs_after_enqueued (refineParams : RefineParams)
    (stream : list Launch) (st : DeviceState M2 M1) :
  runStream k sgm refine
    (cuda_depthSimMapOptimizeGradientDescent refineParams roi stream) st
  = runStream k sgm refine
      (cuda_depthSimMapOptimizeGradientDescent refineParams roi [])
      (runStream k sgm refine stream st).
Proof.
  rewrite refine_loop_append. unfold runStream. apply fold_left_app.
Qed.

Lemma refineIteration_variance (l : list nat) (st : DeviceState M2 M1) :
  inout_imgVariance_dmp (fold_left (refineIteration k sgm refine roi) l st)
  = inout_imgVariance_dmp st.
Proof.
  revert st. induction l as [|i l IH]; intros st; cbn [fold_left].
  - reflexivity.
  - rewrite IH. reflexivity.
Qed.

(** X11.  The image variance is computed once, before the loop: after the
    call, whatever the number of iterations, the variance buffer is the
    result of the variance kernel on the initial buffer. *)
Theorem refine_variance_computed_once (refineParams : RefineParams)
    (st : DeviceState M2 M1) :
  inout_imgVariance_dmp
    (runStream k sgm refine
       (cuda_depthSimMapOptimizeGradientDescent refineParams roi []) st)
  = varLofLABtoW k (stepXY refineParams) roi (inout_imgVariance_dmp st).
Proof.
  unfold cuda_depthSimMapOptimizeGradientDescent, for_range.
  rewrite (refine_loop_stream roi). cbn [app].
  unfold runStream. cbn [fold_left execLaunch].
  match goal with
  | |- context [fold_left (execLaunch k sgm refine) (flat_map _ ?l) ?s] =>
      pose proof (refine_loop_run k sgm refine roi l s) as Hrun
  end.
  unfold runStream in Hrun. rewrite Hrun, refineIteration_variance.
  reflexivity.
Qed.

End RefineLoopMore.

Lemma refine_without_iterations_witness :
  out_optimizeDepthSimMap_dmp
    (runStream example_kernels 7 0
       (cuda_depthSimMapOptimizeGradientDescent (mkRefineParams 1 (-3))
          example_roi [])
       (mkDeviceState 0 0 5)) = 7 /\
  inout_tmpOptDepthMap_dmp
    (runStream example_kernels 7 0
       (cuda_depthSimMapOptimizeGradientDescent (mkRefineParams 1 (-3))
          example_roi [])
       (mkDeviceState 0 0 5)) = 5.
Proof.
  apply (refine_without_iterations example_kernels 7 0 example_roi
           (mkRefineParams 1 (-3)) (mkDeviceState 0 0 5)).
  simpl. lia.
Defined.

(** * Further properties of the readers *)

Lemma sumTileDepthValues_throws fs paths p acc :
  (forall q, In q paths -> exists m, readImageMetadata fs q = Ok m) ->
  In p paths ->
  (forall m, readImageMetadata fs p = Ok m -> get_nbDepthValues m < 0) ->
  sumTileDepthValues fs paths acc = Throw IncorrectNbDepthValues.
Proof.
  revert acc. induction paths as [|q rest IH]; intros acc Hread Hin Hneg;
    [destruct Hin | ].
  cbn [sumTileDepthValues].
  destruct (Hread q (or_introl eq_refl)) as [m Hm]. rewrite Hm. cbn [bind].
  destruct (Z.ltb_spec (get_nbDepthValues m) 0) as [Hlt | Hge]; [reflexivity | ].
  destruct Hin as [-> | Hin].
  - specialize (Hneg m Hm). lia.
  - apply IH; [ | exact Hin | exact Hneg].
    intros r Hr. apply Hread. right. exact Hr.
Qed.

(** X12.  For a tiled depth map, one tile whose metadata has no
    [nbDepthValues] entry (or a negative one) makes
    [getNbDepthValuesFromDepthMap] throw, whatever the other tiles record:
    the count is not recomputed from the map. *)
Theorem getNbDepthValues_tile_without_count_throws tileParams0 fs rc mp
    scale step paths p :
  exists_ fs (getFileNameFromIndex depthMap None) = false ->
  getTilePathList fs depthMap [] = Ok paths ->
  (forall q, In q paths -> exists m, readImageMetadata fs q = Ok m) ->
  In p paths ->
  (forall m, readImageMetadata fs p = Ok m -> get_nbDepthValues m < 0) ->
  getNbDepthValuesFromDepthMap tileParams0 fs rc mp scale step
  = Throw IncorrectNbDepthValues.
Proof.
  intros Hfull Hlist Hread Hin Hneg.
  unfold getNbDepthValuesFromDepthMap. rewrite Hfull, Hlist. cbn [bind].
  rewrite (sumTileDepthValues_throws fs paths p (-1) Hread Hin Hneg).
  reflexivity.
Qed.

Lemma getNbDepthValues_tile_without_count_throws_witness :
  getNbDepthValuesFromDepthMap tp8 folder_tile_without_count 0 mp64 1 1
  = Throw IncorrectNbDepthValues.
Proof.
  apply (getNbDepthValues_tile_without_count_throws tp8
           folder_tile_without_count 0 mp64 1 1
           [TileMapPath depthMap 0 0; TileMapPath depthMap 28 0]
           (TileMapPath depthMap 28 0)).
  - reflexivity.
  - reflexivity.
  - intros q [<- | [<- | []]]; eexists; reflexivity.
  - simpl. auto.
  - intros m Hm. injection Hm as <-. reflexivity.
Defined.

Lemma Image_data_all (P : Q -> Prop) (img : Image) :
  (forall y x, P (pix img y x)) -> Forall P (Image_data img).
Proof.
  intros H. unfold Image_data. apply Forall_flat_map.
  apply Forall_forall. intros y _. apply Forall_map.
  apply Forall_forall. intros x _. apply H.
Qed.

Lemma count_valid_none (data : list Q) :
  Forall (fun v => (v <= 0)%Q) data -> count_valid data = 0.
Proof.
  intros H. unfold count_valid.
  replace (filter (fun v => Qgtb v 0) data) with (@nil Q); [reflexivity | ].
  induction H as [|v l Hv _ IH]; [reflexivity | ].
  cbn [filter]. destruct (Qgtb v 0) eqn:E; [ | exact IH].
  apply Qgtb_spec in E. lra.
Qed.

(** X13.  For a camera whose folder exists and holds neither a full-size
    depth map nor a depth map tile, [getNbDepthValuesFromDepthMap] returns
    0: the count is recomputed from the empty merged map. *)
Theorem getNbDepthValues_no_map tileParams0 fs rc mp scale step :
  is_directory fs = true ->
  exists_ fs (getFileNameFromIndex depthMap None) = false ->
  tileFiles fs depthMap = [] ->
  getNbDepthValuesFromDepthMap tileParams0 fs rc mp scale step = Ok 0.
Proof.
  intros Hdir Hfull Hnone.
  unfold getNbDepthValuesFromDepthMap, readDepthMap, readMapFromTiles,
    getTilePathList.
  unfold tileFiles in Hnone.
  rewrite Hfull, Hdir, Hnone. cbn [negb app map bind sumTileDepthValues].
  cbn [Z.ltb Z.compare fst].
  rewrite count_valid_none; [reflexivity | ].
  apply Image_data_all. intros y x. cbn [Image_resize pix]. lra.
Qed.

Lemma getNbDepthValues_no_map_witness :
  getNbDepthValuesFromDepthMap tp8 folder_empty 0 mp64 1 1 = Ok 0.
Proof.
  apply (getNbDepthValues_no_map tp8 folder_empty 0 mp64 1 1); reflexivity.
Defined.

(** X14.  [readDepthSimMap] takes the full-size files only when both
    exist.  When the full-size depth map is there without the similarity
    map, and the folder holds no tile, [readDepthMap] returns the depth
    map while [readDepthSimMap] returns two maps of zeros. *)
Theorem readDepthSimMap_needs_both_files tileParams0 fs rc mp scale step img :
  readImage fs (getFileNameFromIndex depthMap None) = Ok img ->
  exists_ fs (getFileNameFromIndex simMap None) = false ->
  is_directory fs = true ->
  tileFiles fs depthMap = [] -> tileFiles fs simMap = [] ->
  let zero :=
    Image_resize (divideRoundUp (getWidth mp rc) (Z.max scale 1 * step))
                 (divideRoundUp (getHeight mp rc) (Z.max scale 1 * step)) 0 in
  readDepthMap tileParams0 fs rc mp scale step = Ok (img, []) /\
  readDepthSimMap tileParams0 fs rc mp scale step
  = Ok (zero, zero, [InfoNoMapTile; InfoNoMapTile]).
Proof.
  intros Hd Hs Hdir Htd Hts zero. split.
  - unfold readDepthMap. rewrite (readImage_exists _ _ _ Hd), Hd. reflexivity.
  - unfold readDepthSimMap, readMapFromTiles, getTilePathList.
    unfold tileFiles in Htd, Hts.
    rewrite Hs, andb_false_r, Hdir, Htd, Hts. reflexivity.
Qed.

Lemma readDepthSimMap_needs_both_files_witness :
  readDepthMap tp8 folder_depth_only 0 mp2 1 1 = Ok (depth2x2, []) /\
  readDepthSimMap tp8 folder_depth_only 0 mp2 1 1
  = Ok (Image_resize (divideRoundUp 2 (Z.max 1 1 * 1))
                     (divideRoundUp 2 (Z.max 1 1 * 1)) 0,
        Image_resize (divideRoundUp 2 (Z.max 1 1 * 1))
                     (divideRoundUp 2 (Z.max 1 1 * 1)) 0,
        [InfoNoMapTile; InfoNoMapTile]).
Proof.
  apply (readDepthSimMap_needs_both_files tp8 folder_depth_only 0 mp2 1 1
           depth2x2); reflexivity.
Defined.

(** * Properties of the writer *)

Lemma EFileType_eqb_eq (a b : EFileType) : EFileType_eqb a b = true <-> a = b.
Proof. destruct a, b; cbn; split; intros H; congruence. Qed.

Lemma MapPath_eqb_eq (a b : MapPath) : MapPath_eqb a b = true <-> a = b.
Proof.
  destruct a as [f | f x y], b as [g | g x' y']; cbn.
  - rewrite EFileType_eqb_eq. split; intros H; congruence.
  - split; intros H; congruence.
  - split; intros H; congruence.
  - rewrite !andb_true_iff, EFileType_eqb_eq, !Z.eqb_eq.
    split; [intros [[-> ->] ->]; reflexivity | intros H; injection H; auto].
Qed.

Lemma MapPath_eqb_refl (a : MapPath) : MapPath_eqb a a = true.
Proof. apply MapPath_eqb_eq. reflexivity. Qed.

Lemma MapPath_eqb_neq (a b : MapPath) : a <> b -> MapPath_eqb a b = false.
Proof.
  intros H. destruct (MapPath_eqb a b) eqn:E; [ | reflexivity].
  apply MapPath_eqb_eq in E. contradiction.
Qed.

Lemma lookupFile_storeFile_same l path f :
  lookupFile (storeFile l path f) path = Some f.
Proof.
  induction l as [|[p g] l IH]; cbn [storeFile lookupFile].
  - rewrite MapPath_eqb_refl. reflexivity.
  - destruct (MapPath_eqb p path) eqn:E; cbn [lookupFile]; rewrite E.
    + reflexivity.
    + exact IH.
Qed.

Lemma lookupFile_storeFile_other l path f q :
  q <> path -> lookupFile (storeFile l path f) q = lookupFile l q.
Proof.
  intros Hne. induction l as [|[p g] l IH]; cbn [storeFile lookupFile].
  - rewrite MapPath_eqb_neq by congruence. reflexivity.
  - destruct (MapPath_eqb p path) eqn:E; cbn [lookupFile].
    + apply MapPath_eqb_eq in E. subst p.
      rewrite MapPath_eqb_neq by congruence. reflexivity.
    + rewrite IH. reflexivity.
Qed.

Lemma metadata_find_base (m : list (string * string)) (l : ParamValueList)
    (name : string) :
  existsb (fun e => String.eqb (fst e) name) m = false ->
  metadata_find (getMetadataFromMap m ++ l) name = metadata_find l name.
Proof.
  induction m as [|[k v] m IH]; intros H; cbn in *; [reflexivity | ].
  apply orb_false_elim in H. destruct H as [Hk Hm].
  rewrite Hk. apply IH. exact Hm.
Qed.

Lemma noReaderKey_spec (cam : CameraData) (name : string) :
  noReaderKey cam = true -> In name readerKeys ->
  existsb (fun e => String.eqb (fst e) name) (getMetadata cam) = false.
Proof.
  unfold noReaderKey. intros H Hin.
  rewrite forallb_forall in H. specialize (H name Hin).
  apply negb_true_iff in H. exact H.
Qed.

(** What the readers find in the metadata written by [writeDepthSimMap]. *)
Lemma storedMetadata_written ops cam tp roi img scaleStep :
  noReaderKey cam = true ->
  storedMetadata (depthSimMapMetadata ops cam tp roi img scaleStep) =
  mkMetadata (Some (to_int32 (r_begin (roi_x roi))))
             (Some (to_int32 (r_begin (roi_y roi))))
             (Some (to_int32 (r_end (roi_x roi))))
             (Some (to_int32 (r_end (roi_y roi))))
             (Some (bufferWidth tp)) (Some (bufferHeight tp))
             (Some (padding tp))
             (Some (to_int32 (stat_nbDepthValues
                                (depthMapStats (Image_data img))))).
Proof.
  intros Hkeys. unfold depthSimMapMetadata.
  destruct (cameraCenterAndInverse ops cam scaleStep) as [C iP].
  unfold storedMetadata, find_INT. rewrite <- !app_assoc.
  rewrite !metadata_find_base
    by (apply noReaderKey_spec; [exact Hkeys | cbn; tauto]).
  reflexivity.
Qed.

Lemma writeDepthSimMap_paths ops toHalf fs rc mp cam tp roi depthMap_ simMap_
    scale step :
  let s := Z.max scale 1 * step in
  let imageRoi :=
    mkROI (mkRange 0 (divideRoundUp (getWidth mp rc) s))
          (mkRange 0 (divideRoundUp (getHeight mp rc) s)) in
  let metadata := depthSimMapMetadata ops cam tp roi depthMap_ s in
  writeDepthSimMap ops toHalf fs rc mp cam tp roi depthMap_ simMap_ scale step
  = let fs1 :=
      if not_size_le_0 depthMap_
      then writeImage toHalf fs (writtenMapPath depthMap rc mp roi s)
                      depthMap_ Float metadata imageRoi (downscaleROI roi s)
      else fs in
    if not_size_le_0 simMap_
    then writeImage toHalf fs1 (writtenMapPath simMap rc mp roi s)
                    simMap_ Half metadata imageRoi (downscaleROI roi s)
    else fs1.
Proof.
  cbv zeta. unfold writeDepthSimMap, writtenMapPath, getFileNameFromIndex.
  destruct (negb _ || negb _); reflexivity.
Qed.

Lemma writtenMapPath_fileType ft ft' rc mp roi s :
  ft <> ft' -> writtenMapPath ft rc mp roi s <> writtenMapPath ft' rc mp roi s.
Proof.
  intros Hne. unfold writtenMapPath.
  destruct (negb _ || negb _); congruence.
Qed.

Lemma not_size_le_0_spec (img : Image) :
  not_size_le_0 img = negb (Image_size img =? 0).
Proof. unfold not_size_le_0. destruct (Image_size img =? 0); reflexivity. Qed.

(** The file of the depth map after [writeDepthSimMap]. *)
Lemma written_depth_file ops toHalf fs rc mp cam tp roi depthMap_ simMap_
    scale step :
  Image_size depthMap_ <> 0 ->
  lookupFile
    (entries (writeDepthSimMap ops toHalf fs rc mp cam tp roi depthMap_ simMap_
                               scale step))
    (writtenMapPath depthMap rc mp roi (Z.max scale 1 * step))
  = Some (mkMapFile
            (Some (storedMetadata
                     (depthSimMapMetadata ops cam tp roi depthMap_
                        (Z.max scale 1 * step))))
            (Some depthMap_)).
Proof.
  intros Hsize. rewrite writeDepthSimMap_paths. cbv zeta.
  rewrite (not_size_le_0_spec depthMap_).
  apply Z.eqb_neq in Hsize. rewrite Hsize. cbn [negb].
  destruct (not_size_le_0 simMap_); unfold writeImage; cbn [entries].
  - rewrite lookupFile_storeFile_other
      by (apply writtenMapPath_fileType; discriminate).
    apply lookupFile_storeFile_same.
  - apply lookupFile_storeFile_same.
Qed.

Lemma roi_storable_int32 (roi : ROI) :
  roi_storable roi ->
  to_int32 (r_begin (roi_x roi)) = r_begin (roi_x roi) /\
  to_int32 (r_begin (roi_y roi)) = r_begin (roi_y roi) /\
  to_int32 (r_end (roi_x roi)) = r_end (roi_x roi) /\
  to_int32 (r_end (roi_y roi)) = r_end (roi_y roi).
Proof.
  unfold roi_storable. intros H.
  repeat split; apply to_int32_small; lia.
Qed.

Lemma written_map_readers ops toHalf fs rc mp cam tp roi depthMap_ simMap_
    scale step tp_any :
  let fs' := writeDepthSimMap ops toHalf fs rc mp cam tp roi depthMap_ simMap_
                              scale step in
  let path := writtenMapPath depthMap rc mp roi (Z.max scale 1 * step) in
  noReaderKey cam = true -> Image_size depthMap_ <> 0 ->
  roi_storable roi -> tileParams_valid tp ->
  getRoiFromMetadata fs' path ROI_default = Ok roi /\
  getTileParamsFromMetadata fs' path tp_any = Ok tp /\
  readImage fs' path = Ok depthMap_.
Proof.
  intros fs' path Hkeys Hsize Hroi Htp.
  pose proof (written_depth_file ops toHalf fs rc mp cam tp roi depthMap_
                simMap_ scale step Hsize) as Hfile.
  fold fs' path in Hfile.
  rewrite (storedMetadata_written _ _ _ _ _ _ Hkeys) in Hfile.
  destruct (roi_storable_int32 roi Hroi) as (Ebx & Eby & Eex & Eey).
  rewrite Ebx, Eby, Eex, Eey in Hfile.
  unfold getRoiFromMetadata, getTileParamsFromMetadata, readImageMetadata,
    readImage.
  rewrite Hfile. cbn.
  destruct Hroi as (Hbx & Hby & Hex & Hey), Htp as (Hw & Hh & Hp).
  destruct roi as [[bx ex] [by_ ey]], tp as [tw th tpad]. cbn in *.
  repeat split.
  - destruct (Z.ltb_spec bx 0), (Z.ltb_spec by_ 0), (Z.leb_spec ex 0),
      (Z.leb_spec ey 0); try lia. reflexivity.
  - destruct (Z.leb_spec tw 0), (Z.leb_spec th 0), (Z.ltb_spec tpad 0);
      try lia. reflexivity.
Qed.

(** X15.  What [writeDepthSimMap] writes is what the readers of a tile
    find: for a non-empty depth map, a ROI with non-negative begins and
    positive ends, valid tile parameters and image metadata that does not
    use the names of the entries, [getRoiFromMetadata] returns the ROI,
    [getTileParamsFromMetadata] the tile parameters and [readImage] the
    depth map, from the file named by the writer. *)
Theorem written_map_reads_back ops toHalf fs rc mp cam tp roi depthMap_ simMap_
    scale step tp_any :
  let fs' := writeDepthSimMap ops toHalf fs rc mp cam tp roi depthMap_ simMap_
                              scale step in
  let path := writtenMapPath depthMap rc mp roi (Z.max scale 1 * step) in
  noReaderKey cam = true -> Image_size depthMap_ <> 0 ->
  roi_storable roi -> tileParams_valid tp ->
  getRoiFromMetadata fs' path ROI_default = Ok roi /\
  getTileParamsFromMetadata fs' path tp_any = Ok tp /\
  readImage fs' path = Ok depthMap_.
Proof.
  exact (written_map_readers ops toHalf fs rc mp cam tp roi depthMap_ simMap_
           scale step tp_any).
Qed.

Lemma tileFiles_storeFile_other ft l path f :
  matchesTilePattern ft path = false ->
  filter (fun e => matchesTilePattern ft (fst e)) (storeFile l path f)
  = filter (fun e => matchesTilePattern ft (fst e)) l.
Proof.
  intros Hm. induction l as [|[p g] l IH]; cbn [storeFile filter fst].
  - rewrite Hm. reflexivity.
  - destruct (MapPath_eqb p path) eqn:E; cbn [filter fst].
    + apply MapPath_eqb_eq in E. subst p. rewrite Hm. reflexivity.
    + rewrite IH. reflexivity.
Qed.

Lemma tileFiles_storeFile_new ft l path f :
  matchesTilePattern ft path = true ->
  filter (fun e => matchesTilePattern ft (fst e)) l = [] ->
  filter (fun e => matchesTilePattern ft (fst e)) (storeFile l path f)
  = [(path, f)].
Proof.
  intros Hm. induction l as [|[p g] l IH]; intros Hnone;
    cbn [storeFile filter fst] in *.
  - rewrite Hm. reflexivity.
  - destruct (matchesTilePattern ft p) eqn:Ep; [discriminate | ].
    destruct (MapPath_eqb p path) eqn:E.
    + apply MapPath_eqb_eq in E. congruence.
    + cbn [filter fst]. rewrite Ep. apply IH. exact Hnone.
Qed.

(** X16.  A tile written by [writeDepthSimMap] into a folder without depth
    map tiles is found and merged by [readMapFromTiles]: the result is the
    tile added with its weights to the zero map, under the tile parameters
    that were written, and nothing is logged. *)
Theorem written_tile_is_merged ops toHalf tileParams0 fs rc mp cam tp roi
    depthMap_ simMap_ scale step :
  let s := Z.max scale 1 * step in
  let fs' := writeDepthSimMap ops toHalf fs rc mp cam tp roi depthMap_ simMap_
                              scale step in
  is_directory fs = true -> tileFiles fs depthMap = [] ->
  noReaderKey cam = true -> Image_size depthMap_ <> 0 ->
  roi_storable roi -> tileParams_valid tp ->
  writtenMapPath depthMap rc mp roi s
    = TileMapPath depthMap (r_begin (roi_x roi)) (r_begin (roi_y roi)) ->
  r_begin (roi_x roi) < r_end (roi_x roi) <= getWidth mp rc ->
  r_begin (roi_y roi) < r_end (roi_y roi) <= getHeight mp rc ->
  readMapFromTiles tileParams0 fs' rc mp depthMap scale step
  = Ok (snd (addTileMapWeighted rc mp tp roi s depthMap_
               (Image_resize (divideRoundUp (getWidth mp rc) s)
                             (divideRoundUp (getHeight mp rc) s) 0)),
        []).
Proof.
  intros s fs' Hdir Hnone Hkeys Hsize Hroi Htp Hpath Hx Hy.
  destruct (written_map_readers ops toHalf fs rc mp cam tp roi depthMap_
              simMap_ scale step tileParams0 Hkeys Hsize Hroi Htp)
    as (Hgetroi & Hgettp & Hread).
  fold s fs' in Hgetroi, Hgettp, Hread. rewrite Hpath in *.
  pose proof (written_depth_file ops toHalf fs rc mp cam tp roi depthMap_
                simMap_ scale step Hsize) as Hfile.
  fold s fs' in Hfile. rewrite Hpath in Hfile.
  assert (Hdir' : is_directory fs' = true).
  { subst fs'. rewrite writeDepthSimMap_paths. cbv zeta.
    destruct (not_size_le_0 depthMap_), (not_size_le_0 simMap_);
      exact Hdir. }
  assert (Htiles : map fst (tileFiles fs' depthMap)
                   = [TileMapPath depthMap (r_begin (roi_x roi))
                                  (r_begin (roi_y roi))]).
  { subst fs'. rewrite writeDepthSimMap_paths. cbv zeta. fold s.
    rewrite (not_size_le_0_spec depthMap_).
    apply Z.eqb_neq in Hsize. rewrite Hsize. cbn [negb].
    rewrite Hpath. unfold tileFiles in *.
    assert (Hm : matchesTilePattern depthMap
                   (TileMapPath depthMap (r_begin (roi_x roi))
                                (r_begin (roi_y roi))) = true).
    { destruct Hroi as (Hbx & Hby & _). cbn.
      destruct (Z.leb_spec 0 (r_begin (roi_x roi))),
        (Z.leb_spec 0 (r_begin (roi_y roi))); first [lia | reflexivity]. }
    destruct (not_size_le_0 simMap_); unfold writeImage; cbn [entries].
    - rewrite tileFiles_storeFile_other
        by (unfold writtenMapPath; destruct (negb _ || negb _); reflexivity).
      rewrite (tileFiles_storeFile_new _ _ _ _ Hm Hnone). reflexivity.
    - rewrite (tileFiles_storeFile_new _ _ _ _ Hm Hnone). reflexivity. }
  unfold readMapFromTiles, getTilePathList. rewrite Hdir'. cbn [negb app].
  fold (tileFiles fs' depthMap). rewrite Htiles. cbn [bind].
  rewrite Hgettp. cbn [bind getTileRoiList]. rewrite Hgetroi.
  cbn [bind fold_left]. unfold addTileStep.
  assert (Hint : intersect roi
                   (mkROI (mkRange 0 (getWidth mp rc))
                          (mkRange 0 (getHeight mp rc))) = roi).
  { destruct Hroi as (Hbx & Hby & _).
    destruct roi as [[bx ex] [by_ ey]]. unfold intersect, Range_intersect.
    cbn in *. rewrite !Z.max_l, !Z.min_l by lia. reflexivity. }
  rewrite Hint.
  assert (Hne : ROI_isEmpty roi = false).
  { unfold ROI_isEmpty, Range_isEmpty.
    destruct (Z.leb_spec (r_end (roi_x roi)) (r_begin (roi_x roi))),
      (Z.leb_spec (r_end (roi_y roi)) (r_begin (roi_y roi)));
      first [lia | reflexivity]. }
  rewrite Hne. unfold getFileNameFromIndex. rewrite Hread. reflexivity.
Qed.

Lemma written_map_reads_back_witness :
  getRoiFromMetadata
    (writeDepthSimMap example_matrixOps example_toHalf folder_empty 0 mp64
       example_cameraData tp8 example_tile_roi example_tile_map Image_empty
       1 1)
    (writtenMapPath depthMap 0 mp64 example_tile_roi (Z.max 1 1 * 1))
    ROI_default = Ok example_tile_roi /\
  getTileParamsFromMetadata
    (writeDepthSimMap example_matrixOps example_toHalf folder_empty 0 mp64
       example_cameraData tp8 example_tile_roi example_tile_map Image_empty
       1 1)
    (writtenMapPath depthMap 0 mp64 example_tile_roi (Z.max 1 1 * 1))
    (mkTileParams 0 0 0) = Ok tp8 /\
  readImage
    (writeDepthSimMap example_matrixOps example_toHalf folder_empty 0 mp64
       example_cameraData tp8 example_tile_roi example_tile_map Image_empty
       1 1)
    (writtenMapPath depthMap 0 mp64 example_tile_roi (Z.max 1 1 * 1))
  = Ok example_tile_map.
Proof.
  apply (written_map_reads_back example_matrixOps example_toHalf folder_empty
           0 mp64 example_cameraData tp8 example_tile_roi example_tile_map
           Image_empty 1 1 (mkTileParams 0 0 0)).
  - reflexivity.
  - vm_compute. discriminate.
  - unfold roi_storable. cbn. lia.
  - unfold tileParams_valid. cbn. lia.
Defined.

Lemma written_tile_is_merged_witness :
  readMapFromTiles (mkTileParams 0 0 0)
    (writeDepthSimMap example_matrixOps example_toHalf folder_empty 0 mp64
       example_cameraData tp8 example_tile_roi example_tile_map Image_empty
       1 1)
    0 mp64 depthMap 1 1
  = Ok (snd (addTileMapWeighted 0 mp64 tp8 example_tile_roi (Z.max 1 1 * 1)
               example_tile_map
               (Image_resize (divideRoundUp 64 (Z.max 1 1 * 1))
                             (divideRoundUp 64 (Z.max 1 1 * 1)) 0)),
        []).
Proof.
  apply (written_tile_is_merged example_matrixOps example_toHalf
           (mkTileParams 0 0 0) folder_empty 0 mp64 example_cameraData tp8
           example_tile_roi example_tile_map Image_empty 1 1).
  - reflexivity.
  - reflexivity.
  - reflexivity.
  - vm_compute. discriminate.
  - unfold roi_storable. cbn. lia.
  - unfold tileParams_valid. cbn. lia.
  - reflexivity.
  - cbn. lia.
  - cbn. lia.
Defined.

Lemma writtenMapPath_full ft rc mp s :
  writtenMapPath ft rc mp (fullROI mp rc) s = FullMapPath ft.
Proof.
  unfold writtenMapPath, downscaleROI, downscaleRange, fullROI, ROI_width,
    ROI_height, Range_size.
  cbn [roi_x roi_y r_begin r_end]. rewrite Zdiv_0_l, !Z.sub_0_r, !Z.eqb_refl.
  reflexivity.
Qed.

Lemma tileFiles_full_write ft ft' l f :
  filter (fun e => matchesTilePattern ft (fst e))
         (storeFile l (FullMapPath ft') f)
  = filter (fun e => matchesTilePattern ft (fst e)) l.
Proof. apply tileFiles_storeFile_other. reflexivity. Qed.

(** X17.  The full-size maps written by [writeDepthSimMap] (the overload
    without ROI) are the ones that [readDepthSimMap] returns: the depth map
    as it is and the similarity map converted to half. *)
Theorem written_full_maps_read_back ops toHalf tileParams0 fs rc mp cam
    depthMap_ simMap_ scale step :
  Image_size depthMap_ <> 0 -> Image_size simMap_ <> 0 ->
  readDepthSimMap tileParams0
    (writeDepthSimMap_full ops toHalf tileParams0 fs rc mp cam depthMap_
                           simMap_ scale step)
    rc mp scale step
  = Ok (depthMap_, storedAsHalf toHalf simMap_, []).
Proof.
  intros Hd Hs. unfold writeDepthSimMap_full.
  change (mkROI (mkRange 0 (getWidth mp rc)) (mkRange 0 (getHeight mp rc)))
    with (fullROI mp rc).
  rewrite writeDepthSimMap_paths. cbv zeta.
  rewrite !not_size_le_0_spec.
  apply Z.eqb_neq in Hd, Hs. rewrite Hd, Hs. cbn [negb].
  rewrite !writtenMapPath_full.
  unfold readDepthSimMap, exists_, readImage, getFileNameFromIndex, writeImage.
  cbn [entries].
  rewrite lookupFile_storeFile_same.
  rewrite lookupFile_storeFile_other by discriminate.
  rewrite lookupFile_storeFile_same. reflexivity.
Qed.

Lemma written_full_maps_read_back_witness :
  readDepthSimMap tp8
    (writeDepthSimMap_full example_matrixOps example_toHalf tp8 folder_empty 0
       mp2 example_cameraData depth2x2 sim2x2 1 1)
    0 mp2 1 1
  = Ok (depth2x2, storedAsHalf example_toHalf sim2x2, []).
Proof.
  apply (written_full_maps_read_back example_matrixOps example_toHalf tp8
           folder_empty 0 mp2 example_cameraData depth2x2 sim2x2 1 1);
    vm_compute; discriminate.
Defined.




(** X19.  [writeDepthMap] writes no similarity map, and so
    [readDepthSimMap] does not find the depth map it wrote: in a folder
    without tiles and without a full-size similarity map, [readDepthMap]
    returns the written depth map and [readDepthSimMap] returns maps of
    zeros. *)
Theorem writeDepthMap_not_read_by_readDepthSimMap ops toHalf tileParams0 fs
    rc mp cam depthMap_ scale step :
  is_directory fs = true ->
  exists_ fs (getFileNameFromIndex simMap None) = false ->
  tileFiles fs depthMap = [] -> tileFiles fs simMap = [] ->
  Image_size depthMap_ <> 0 ->
  let fs' := writeDepthMap ops toHalf tileParams0 fs rc mp cam depthMap_
                           scale step in
  let zero :=
    Image_resize (divideRoundUp (getWidth mp rc) (Z.max scale 1 * step))
                 (divideRoundUp (getHeight mp rc) (Z.max scale 1 * step)) 0 in
  readDepthMap tileParams0 fs' rc mp scale step = Ok (depthMap_, []) /\
  readDepthSimMap tileParams0 fs' rc mp scale step
  = Ok (zero, zero, [InfoNoMapTile; InfoNoMapTile]).
Proof.
  intros Hdir Hsim Htd Hts Hsize fs' zero.
  assert (Hfs' : fs' = writeImage toHalf fs (FullMapPath depthMap) depthMap_
                         Float
                         (depthSimMapMetadata ops cam tileParams0
                            (fullROI mp rc) depthMap_ (Z.max scale 1 * step))
                         (mkROI (mkRange 0 (divideRoundUp (getWidth mp rc)
                                              (Z.max scale 1 * step)))
                                (mkRange 0 (divideRoundUp (getHeight mp rc)
                                              (Z.max scale 1 * step))))
                         (downscaleROI (fullROI mp rc)
                            (Z.max scale 1 * step))).
  { subst fs'. unfold writeDepthMap.
    change (mkROI (mkRange 0 (getWidth mp rc)) (mkRange 0 (getHeight mp rc)))
      with (fullROI mp rc).
    rewrite writeDepthSimMap_paths. cbv zeta.
    rewrite (not_size_le_0_spec depthMap_).
    apply Z.eqb_neq in Hsize. rewrite Hsize. cbn [negb].
    rewrite writtenMapPath_full. reflexivity. }
  rewrite Hfs'. unfold writeImage.
  unfold readDepthMap, readDepthSimMap, readMapFromTiles, getTilePathList,
    exists_, readImage, getFileNameFromIndex in *.
  cbn [entries is_directory].
  rewrite lookupFile_storeFile_same.
  rewrite lookupFile_storeFile_other by discriminate.
  unfold tileFiles in Htd, Hts.
  rewrite !tileFiles_full_write, Htd, Hts, Hdir.
  destruct (lookupFile (entries fs) (FullMapPath simMap)); [discriminate | ].
  split; reflexivity.
Qed.

Lemma writeDepthMap_not_read_by_readDepthSimMap_witness :
  readDepthMap tp8
    (writeDepthMap example_matrixOps example_toHalf tp8 folder_empty 0 mp2
       example_cameraData depth2x2 1 1) 0 mp2 1 1
  = Ok (depth2x2, []) /\
  readDepthSimMap tp8
    (writeDepthMap example_matrixOps example_toHalf tp8 folder_empty 0 mp2
       example_cameraData depth2x2 1 1) 0 mp2 1 1
  = Ok (Image_resize (divideRoundUp 2 (Z.max 1 1 * 1))
                     (divideRoundUp 2 (Z.max 1 1 * 1)) 0,
        Image_resize (divideRoundUp 2 (Z.max 1 1 * 1))
                     (divideRoundUp 2 (Z.max 1 1 * 1)) 0,
        [InfoNoMapTile; InfoNoMapTile]).
Proof.
  apply (writeDepthMap_not_read_by_readDepthSimMap example_matrixOps
           example_toHalf tp8 folder_empty 0 mp2 example_cameraData depth2x2
           1 1); try reflexivity.
  vm_compute. discriminate.
Defined.

(** ** The statistics written by writeDepthSimMap *)






(** * Properties of deleteDepthSimMapTiles *)

Lemma filter_filter {A : Type} (f g : A -> bool) (l : list A) :
  filter f (filter g l) = filter (fun a => g a && f a) l.
Proof.
  induction l as [|a l IH]; cbn [filter]; [reflexivity | ].
  destruct (g a); cbn [filter andb]; [destruct (f a) | ]; rewrite IH;
    reflexivity.
Qed.

Lemma removeTiles_cons removeThrows warning p rest fs log :
  removeTiles removeThrows warning (p :: rest) (fs, log)
  = removeTiles removeThrows warning rest
      (if removeThrows p then (fs, log ++ [warning p])
       else (mkMapFolder (is_directory fs)
               (filter (fun e => negb (MapPath_eqb (fst e) p)) (entries fs)),
             log)).
Proof.
  unfold removeTiles. cbn [fold_left fst snd]. unfold fs_remove.
  destruct (removeThrows p); reflexivity.
Qed.

Lemma removeTiles_spec removeThrows warning paths fs log :
  is_directory (fst (removeTiles removeThrows warning paths (fs, log)))
  = is_directory fs /\
  entries (fst (removeTiles removeThrows warning paths (fs, log)))
  = filter (fun e => negb (removedBy removeThrows paths e)) (entries fs) /\
  snd (removeTiles removeThrows warning paths (fs, log))
  = log ++ map warning (filter removeThrows paths).
Proof.
  revert fs log.
  induction paths as [|p rest IH]; intros fs log.
  - cbn [removeTiles fold_left fst snd filter map]. rewrite app_nil_r.
    repeat split. symmetry.
    rewrite (filter_ext _ (fun _ => true)); [apply filter_true | ].
    intros e. reflexivity.
  - rewrite removeTiles_cons. cbn [filter].
    destruct (removeThrows p) eqn:Ep.
    + destruct (IH fs (log ++ [warning p])) as (Hd & He & Hl).
      split; [exact Hd | split].
      * rewrite He. apply filter_ext. intros e. unfold removedBy.
        cbn [existsb]. rewrite Ep. cbn [negb]. rewrite andb_false_r.
        reflexivity.
      * rewrite Hl, <- app_assoc. reflexivity.
    + destruct (IH (mkMapFolder (is_directory fs)
                      (filter (fun e => negb (MapPath_eqb (fst e) p))
                              (entries fs))) log) as (Hd & He & Hl).
      split; [exact Hd | split; [ | exact Hl]].
      rewrite He. cbn [entries]. rewrite filter_filter.
      apply filter_ext. intros e. unfold removedBy. cbn [existsb].
      rewrite Ep. cbn [negb]. rewrite andb_true_r, negb_orb. reflexivity.
Qed.

Lemma removedBy_tiles removeThrows fileType l e :
  In e l ->
  removedBy removeThrows
    (map fst (filter (fun e => matchesTilePattern fileType (fst e)) l)) e
  = matchesTilePattern fileType (fst e) && negb (removeThrows (fst e)).
Proof.
  intros Hin. unfold removedBy.
  destruct (matchesTilePattern fileType (fst e) && negb (removeThrows (fst e)))
    eqn:E.
  - apply andb_true_iff in E as [Em Et].
    apply existsb_exists. exists (fst e). split.
    + apply in_map. apply filter_In. split; assumption.
    + rewrite MapPath_eqb_refl, Et. reflexivity.
  - destruct (existsb _ _) eqn:Ex; [ | reflexivity].
    apply existsb_exists in Ex as (p & Hp & Hq).
    apply andb_true_iff in Hq as [Heq Ht].
    apply MapPath_eqb_eq in Heq. subst p.
    apply in_map_iff in Hp as (e' & He' & Hf).
    apply filter_In in Hf as [_ Hm].
    rewrite He' in Hm. rewrite Hm, Ht in E. discriminate E.
Qed.

Lemma deleteDepthSimMapTiles_entries removeThrows fs :
  is_directory fs = true ->
  exists fs' log,
    deleteDepthSimMapTiles removeThrows fs = Ok (fs', log) /\
    is_directory fs' = true /\
    entries fs' = filter (keptByDelete removeThrows) (entries fs).
Proof.
  intros Hdir. unfold deleteDepthSimMapTiles, getTilePathList.
  rewrite Hdir. cbn [negb bind app].
  match goal with
  | |- context [removeTiles _ WarningCannotDeleteSimMapTile ?ps
                  (removeTiles _ WarningCannotDeleteDepthMapTile ?pd (?f, ?l))] =>
      destruct (removeTiles_spec removeThrows
                  WarningCannotDeleteDepthMapTile pd f l) as (Hd1 & He1 & _);
      destruct (removeTiles removeThrows WarningCannotDeleteDepthMapTile pd
                  (f, l)) as [fs1 log1] eqn:E1;
      destruct (removeTiles_spec removeThrows
                  WarningCannotDeleteSimMapTile ps fs1 log1) as (Hd2 & He2 & _);
      destruct (removeTiles removeThrows WarningCannotDeleteSimMapTile ps
                  (fs1, log1)) as [fs2 log2] eqn:E2
  end.
  cbn [fst snd] in *.
  exists fs2, log2. split; [reflexivity | split; [congruence | ]].
  rewrite He2, He1, filter_filter.
  apply filter_ext_in. intros e Hin.
  rewrite !removedBy_tiles by exact Hin.
  unfold keptByDelete.
  destruct (matchesTilePattern depthMap (fst e)),
           (matchesTilePattern simMap (fst e)),
           (removeThrows (fst e)); reflexivity.
Qed.

Lemma lookupFile_filter (keep : MapPath * MapFile -> bool) l path :
  (forall e, fst e = path -> keep e = true) ->
  lookupFile (filter keep l) path = lookupFile l path.
Proof.
  intros Hkeep. induction l as [|[p f] l IH]; cbn [filter lookupFile];
    [reflexivity | ].
  destruct (keep (p, f)) eqn:Ek; cbn [lookupFile].
  - rewrite IH. reflexivity.
  - destruct (MapPath_eqb p path) eqn:Ep; [ | exact IH].
    apply MapPath_eqb_eq in Ep.
    rewrite (Hkeep (p, f) Ep) in Ek. discriminate Ek.
Qed.

Lemma keptByDelete_tile removeThrows fileType e :
  matchesTilePattern fileType (fst e) = true ->
  keptByDelete removeThrows e = removeThrows (fst e).
Proof.
  intros Hm. unfold keptByDelete.
  destruct fileType; rewrite Hm; rewrite ?orb_true_r; cbn [orb andb];
    apply negb_involutive.
Qed.

Lemma tileFiles_after_delete removeThrows l fileType :
  filter (fun e => matchesTilePattern fileType (fst e))
         (filter (keptByDelete removeThrows) l)
  = filter (fun e => removeThrows (fst e))
           (filter (fun e => matchesTilePattern fileType (fst e)) l).
Proof.
  rewrite !filter_filter. apply filter_ext. intros e.
  destruct (matchesTilePattern fileType (fst e)) eqn:Em.
  - rewrite (keptByDelete_tile removeThrows fileType e Em).
    rewrite andb_true_r. reflexivity.
  - rewrite andb_false_r. reflexivity.
Qed.

(** X21 (deleteDepthSimMapTiles, then readMapFromTiles): when the file
    system refuses no removal, a later merge of the tiles finds no tile
    at all: it returns, without an error, the map of the downscaled image
    size whose pixels are all 0, and logs that there is no tile. *)
Theorem readMapFromTiles_after_delete removeThrows tileParams0 fs rc mp
    fileType scale step
    (Hdir : is_directory fs = true)
    (Hremove : forall path, removeThrows path = false) :
  exists fs' log,
    deleteDepthSimMapTiles removeThrows fs = Ok (fs', log) /\
    readMapFromTiles tileParams0 fs' rc mp fileType scale step
    = Ok (Image_resize (divideRoundUp (getWidth mp rc) (Z.max scale 1 * step))
            (divideRoundUp (getHeight mp rc) (Z.max scale 1 * step)) 0,
          [InfoNoMapTile]).
Proof.
  destruct (deleteDepthSimMapTiles_entries removeThrows fs Hdir)
    as (fs' & log & Hrun & Hdir' & Hent).
  exists fs', log. split; [exact Hrun | ].
  unfold readMapFromTiles, getTilePathList. rewrite Hdir'. cbn [negb app].
  rewrite Hent, tileFiles_after_delete.
  rewrite (filter_ext _ (fun _ => false)) by (intros e; apply Hremove).
  rewrite filter_false. reflexivity.
Qed.

Lemma readMapFromTiles_after_delete_witness :
  exists fs' log,
    deleteDepthSimMapTiles (fun _ => false) folder_two_tiles = Ok (fs', log) /\
    readMapFromTiles tp8 fs' 0 mp64 depthMap 1 1
    = Ok (Image_resize (divideRoundUp (getWidth mp64 0) (Z.max 1 1 * 1))
            (divideRoundUp (getHeight mp64 0) (Z.max 1 1 * 1)) 0,
          [InfoNoMapTile]).
Proof.
  apply (readMapFromTiles_after_delete (fun _ => false) tp8 folder_two_tiles
           0 mp64 depthMap 1 1); reflexivity.
Defined.

(** X22 (deleteDepthSimMapTiles, then readDepthSimMap): once the two
    full-size maps are in the folder, deleting the tiles does not change
    what [readDepthSimMap] returns, whichever removals the file system
    refuses. *)
Theorem readDepthSimMap_after_delete removeThrows tileParams0 fs rc mp
    scale step
    (Hdir : is_directory fs = true)
    (Hdepth : exists_ fs (getFileNameFromIndex depthMap None) = true)
    (Hsim : exists_ fs (getFileNameFromIndex simMap None) = true) :
  exists fs' log,
    deleteDepthSimMapTiles removeThrows fs = Ok (fs', log) /\
    readDepthSimMap tileParams0 fs' rc mp scale step
    = readDepthSimMap tileParams0 fs rc mp scale step.
Proof.
  destruct (deleteDepthSimMapTiles_entries removeThrows fs Hdir)
    as (fs' & log & Hrun & _ & Hent).
  exists fs', log. split; [exact Hrun | ].
  assert (Hfull : forall fileType,
             lookupFile (entries fs') (FullMapPath fileType)
             = lookupFile (entries fs) (FullMapPath fileType)).
  { intros fileType. rewrite Hent. apply lookupFile_filter.
    intros e He. unfold keptByDelete. rewrite He. reflexivity. }
  unfold readDepthSimMap, exists_, readImage, getFileNameFromIndex in *.
  rewrite !Hfull.
  destruct (lookupFile (entries fs) (FullMapPath depthMap));
    [ | discriminate Hdepth].
  destruct (lookupFile (entries fs) (FullMapPath simMap));
    [ | discriminate Hsim].
  reflexivity.
Qed.

Lemma readDepthSimMap_after_delete_witness :
  exists fs' log,
    deleteDepthSimMapTiles example_removeThrows folder_merged
    = Ok (fs', log) /\
    readDepthSimMap tp8 fs' 0 mp2 1 1
    = readDepthSimMap tp8 folder_merged 0 mp2 1 1.
Proof.
  apply (readDepthSimMap_after_delete example_removeThrows tp8 folder_merged
           0 mp2 1 1); reflexivity.
Defined.

(** ** What deleteDepthSimMapTiles removes and logs *)

Lemma map_fst_nil {A B : Type} (l : list (A * B)) :
  match map fst l with [] => true | _ => false end
  = match l with [] => true | _ => false end.
Proof. destruct l; reflexivity. Qed.

(** X20 (deleteDepthSimMapTiles): in an existing map folder the call
    returns without an error; afterwards the tile files of either kind are
    exactly those that the file system refused to remove, and the full-size
    depth and similarity maps are still the files they were.  Each refused
    removal is caught and logged: the messages are one information for
    each kind of map that has no tile, then one warning for each depth map
    tile and one for each similarity map tile that could not be removed. *)
Theorem deleteDepthSimMapTiles_removes_tiles_only removeThrows fs
    (Hdir : is_directory fs = true) :
  exists fs' log,
    deleteDepthSimMapTiles removeThrows fs = Ok (fs', log) /\
    (forall fileType,
        tileFiles fs' fileType
        = filter (fun e => removeThrows (fst e)) (tileFiles fs fileType)) /\
    (forall fileType,
        lookupFile (entries fs') (FullMapPath fileType)
        = lookupFile (entries fs) (FullMapPath fileType)) /\
    log = deleteLog removeThrows fs.
Proof.
  unfold deleteDepthSimMapTiles, getTilePathList.
  rewrite Hdir. cbn [negb bind app].
  match goal with
  | |- context [removeTiles _ WarningCannotDeleteSimMapTile ?ps
                  (removeTiles _ WarningCannotDeleteDepthMapTile ?pd (?f, ?l))] =>
      destruct (removeTiles_spec removeThrows
                  WarningCannotDeleteDepthMapTile pd f l) as (_ & He1 & Hl1);
      destruct (removeTiles removeThrows WarningCannotDeleteDepthMapTile pd
                  (f, l)) as [fs1 log1] eqn:E1;
      destruct (removeTiles_spec removeThrows
                  WarningCannotDeleteSimMapTile ps fs1 log1) as (_ & He2 & Hl2);
      destruct (removeTiles removeThrows WarningCannotDeleteSimMapTile ps
                  (fs1, log1)) as [fs2 log2] eqn:E2
  end.
  cbn [fst snd] in *.
  assert (Hent : entries fs2 = filter (keptByDelete removeThrows) (entries fs)).
  { rewrite He2, He1, filter_filter.
    apply filter_ext_in. intros e Hin.
    rewrite !removedBy_tiles by exact Hin.
    unfold keptByDelete.
    destruct (matchesTilePattern depthMap (fst e)),
             (matchesTilePattern simMap (fst e)),
             (removeThrows (fst e)); reflexivity. }
  exists fs2, log2. split; [reflexivity | ].
  split; [ | split].
  - intros fileType. unfold tileFiles. rewrite Hent.
    apply tileFiles_after_delete.
  - intros fileType. rewrite Hent. apply lookupFile_filter.
    intros e He. unfold keptByDelete. rewrite He. reflexivity.
  - rewrite Hl2, Hl1. unfold deleteLog, tileFiles.
    rewrite !map_fst_nil, <- !app_assoc.
    destruct (filter (fun e => matchesTilePattern depthMap (fst e))
                     (entries fs));
      destruct (filter (fun e => matchesTilePattern simMap (fst e))
                       (entries fs)); reflexivity.
Qed.

Lemma deleteDepthSimMapTiles_removes_tiles_only_witness :
  exists fs' log,
    deleteDepthSimMapTiles example_removeThrows folder_two_tiles
    = Ok (fs', log) /\
    (forall fileType,
        tileFiles fs' fileType
        = filter (fun e => example_removeThrows (fst e))
                 (tileFiles folder_two_tiles fileType)) /\
    (forall fileType,
        lookupFile (entries fs') (FullMapPath fileType)
        = lookupFile (entries folder_two_tiles) (FullMapPath fileType)) /\
    log = [InfoNoSimMapTileToDelete;
           WarningCannotDeleteDepthMapTile (TileMapPath depthMap 28 0)].
Proof.
  apply (deleteDepthSimMapTiles_removes_tiles_only example_removeThrows
           folder_two_tiles).
  reflexivity.
Defined.
